(** * VAakshakti: the speech-evaluation pipeline

    A shallow embedding of the fan-out / fan-in evaluation pipeline of the
    VAakshakti backend:

    - [database.py]: the rows [BackgroundTask], [EvaluationComponentResult]
      and [PracticeSession] with the enumerations [TaskStatus] and
      [EvaluationComponentType];
    - [tasks/component_tasks.py]: the status updater
      [update_component_task_status_sync], the component tasks and
      [_run_component_task], the rating [_calculate_rating] and the
      summariser [create_final_summary_task];
    - [main.py]: [evaluate_speech_async] and the polling evaluator
      [get_task_status].

    Conventions of the embedding.  A table is the list of its rows in
    insertion order.  A text column that holds [json.dumps] of a value is
    represented by the JSON value it encodes, so [json.loads] of the column
    is the identity; such a column is never the empty string, hence it is
    truthy exactly when it is not NULL.  [datetime.now] is a parameter of the
    operation that reads the clock.  The Celery broker is the list of the
    messages sent to it, oldest first. *)

From Stdlib Require Import ZArith QArith Lia.
From stdpp Require Import base option list strings gmap fin_maps fin_sets pretty sorting.

Open Scope string_scope.
Open Scope list_scope.
Open Scope Z_scope.

(** ** Enumerations ([database.py]) *)

Inductive TaskStatus := PENDING | PROCESSING | COMPLETED | FAILED.

Inductive EvaluationComponentType :=
  | TRANSCRIPTION
  | AUDIO_FEATURES
  | EMOTION_TEXT
  | SENTIMENT_TEXT
  | LINGUISTIC_TEXT
  | GRAMMAR
  | CONTENT_COMPARISON
  | PRONUNCIATION.

#[global] Instance TaskStatus_eq_dec : EqDecision TaskStatus.
Proof. solve_decision. Defined.

#[global] Instance EvaluationComponentType_eq_dec : EqDecision EvaluationComponentType.
Proof. solve_decision. Defined.

(** [[e for e in EvaluationComponentType]]: the members in definition order. *)
Definition all_component_types : list EvaluationComponentType :=
  [TRANSCRIPTION; AUDIO_FEATURES; EMOTION_TEXT; SENTIMENT_TEXT;
   LINGUISTIC_TEXT; GRAMMAR; CONTENT_COMPARISON; PRONUNCIATION].

(** [len(EvaluationComponentType)] *)
Definition len_EvaluationComponentType : nat := length all_component_types.

(** [e.value] *)
Definition component_value (k : EvaluationComponentType) : string :=
  match k with
  | TRANSCRIPTION => "transcription"
  | AUDIO_FEATURES => "audio_features"
  | EMOTION_TEXT => "emotion_text"
  | SENTIMENT_TEXT => "sentiment_text"
  | LINGUISTIC_TEXT => "linguistic_text"
  | GRAMMAR => "grammar"
  | CONTENT_COMPARISON => "content_comparison"
  | PRONUNCIATION => "pronunciation"
  end.

Definition component_index (k : EvaluationComponentType) : nat :=
  match k with
  | TRANSCRIPTION => 0
  | AUDIO_FEATURES => 1
  | EMOTION_TEXT => 2
  | SENTIMENT_TEXT => 3
  | LINGUISTIC_TEXT => 4
  | GRAMMAR => 5
  | CONTENT_COMPARISON => 6
  | PRONUNCIATION => 7
  end%nat.

#[global] Instance EvaluationComponentType_countable :
  Countable EvaluationComponentType.
Proof.
  refine (inj_countable component_index (λ n, all_component_types !! n) _).
  by intros [].
Defined.

(** ** JSON values

    The payloads the pipeline stores and sends are JSON documents; a Python
    [dict] is an object, [None] is [JNull]. *)

#[warnings="-register-all"] Inductive json :=
  | JNull
  | JBool (b : bool)
  | JInt (n : Z)
  | JFloat (q : Q)
  | JStr (s : string)
  | JArr (items : list json)
  | JObj (fields : list (string * json)).

(** [d.get(key)] on the items of a [dict]; the keys of a [dict] are
    distinct, and the first item with the key is the one returned. *)
Fixpoint dict_lookup (key : string) (fields : list (string * json)) : option json :=
  match fields with
  | [] => None
  | (k, v) :: rest => if decide (k = key) then Some v else dict_lookup key rest
  end.

(** [v.get(key, dflt)]; [None] when [v] is not a [dict] and the call
    raises [AttributeError]. *)
Definition json_get (v : json) (key : string) (dflt : json) : option json :=
  match v with
  | JObj fields => Some (default dflt (dict_lookup key fields))
  | _ => None
  end.

(** ** Python truthiness *)

(** [if s:] for an [Optional[str]] *)
Definition truthy_str (s : option string) : bool :=
  match s with
  | Some (String _ _) => true
  | _ => false
  end.

(** [if d:] for an [Optional[Dict]] given by its items *)
Definition truthy_dict (d : option (list (string * json))) : bool :=
  match d with
  | Some (_ :: _) => true
  | _ => false
  end.

(** [if col:] for a nullable column holding [json.dumps] of a value *)
Definition truthy_col (c : option json) : bool :=
  match c with
  | Some _ => true
  | None => false
  end.

(** ** Rows ([database.py]) *)

Definition datetime := Z.

Record EvaluationComponentResult := mkComponent {
  c_id : nat;
  c_parent_task_id : string;
  c_component_type : EvaluationComponentType;
  c_status : TaskStatus;
  c_status_message : option string;
  c_result : option json;
  c_error_message : option string;
  c_created_at : datetime;
  c_updated_at : datetime;
  c_completed_at : option datetime
}.

Record BackgroundTask := mkTask {
  bt_id : nat;
  bt_user_id : nat;
  bt_task_id : string;
  bt_task_type : string;
  bt_topic : option string;
  bt_difficulty : option string;
  bt_question : option string;
  bt_ideal_answer : option string;
  bt_model : option string;
  bt_status : TaskStatus;
  bt_progress : Z;
  bt_status_message : option string;
  bt_result : option json;
  bt_error_message : option string;
  bt_created_at : datetime;
  bt_updated_at : datetime;
  bt_completed_at : option datetime
}.

Record PracticeSession := mkSession {
  ps_id : nat;
  ps_parent_task_id : string;
  ps_topic : string;
  ps_difficulty : string;
  ps_question : string;
  ps_ideal_answer : string;
  ps_transcript : string;
  ps_grammar_feedback : option string;
  ps_pronunciation_feedback : option string;
  ps_content_evaluation : option string;
  ps_audio_features : option json;
  ps_linguistic_features : option json;
  ps_sentiment_analysis : option json;
  ps_emotion_analysis : option json;
  ps_rating : Q;
  ps_created_at : datetime;
  ps_user_id : option nat
}.

(** A message on the Celery broker: the registered task name and the
    positional arguments, serialised as JSON. *)
Record Job := mkJob {
  job_name : string;
  job_args : list json
}.

(** The durable state: the three tables and the broker. *)
Record State := mkState {
  background_tasks : list BackgroundTask;
  component_results : list EvaluationComponentResult;
  practice_sessions : list PracticeSession;
  broker : list Job
}.

Definition empty_state : State := mkState [] [] [] [].

(** ** The status updater ([tasks/component_tasks.py]) *)

(** The body of [if task_entry:], on the row that was found.  The call
    reads the clock for [updated_at] and again for [completed_at]; [now]
    stands for both readings. *)
Definition update_component_entry (now : datetime) (status : TaskStatus)
    (status_message : option string) (result : option (list (string * json)))
    (error : option string) (task_entry : EvaluationComponentResult)
    : EvaluationComponentResult :=
  {| c_id := c_id task_entry;
     c_parent_task_id := c_parent_task_id task_entry;
     c_component_type := c_component_type task_entry;
     c_status := status;
     c_status_message :=
       if truthy_str status_message then status_message
       else c_status_message task_entry;
     c_result :=
       if truthy_dict result then JObj <$> result
       else c_result task_entry;
     c_error_message :=
       if truthy_str error then error else c_error_message task_entry;
     c_created_at := c_created_at task_entry;
     c_updated_at := now;
     c_completed_at :=
       if bool_decide (status ∈ [COMPLETED; FAILED]) then Some now
       else c_completed_at task_entry |}.

(** [session.get(EvaluationComponentResult, component_id)] *)
Definition get_component (st : State) (component_id : nat)
    : option EvaluationComponentResult :=
  find (λ c, bool_decide (c_id c = component_id)) (component_results st).

(** [session.add(row); session.commit()] for a component row: the row with
    the same primary key is replaced. *)
Definition commit_component (row : EvaluationComponentResult) (st : State) : State :=
  {| background_tasks := background_tasks st;
     component_results :=
       (λ c, if bool_decide (c_id c = c_id row) then row else c)
         <$> component_results st;
     practice_sessions := practice_sessions st;
     broker := broker st |}.

(** [update_component_task_status_sync]: a component that does not exist
    leaves the state as it is. *)
Definition update_component_task_status_sync (now : datetime) (component_id : nat)
    (status : TaskStatus) (status_message : option string)
    (result : option (list (string * json))) (error : option string)
    (st : State) : State :=
  match get_component st component_id with
  | Some task_entry =>
      commit_component
        (update_component_entry now status status_message result error task_entry) st
  | None => st
  end.

(** ** The polling evaluator ([main.py], [get_task_status]) *)

(** [{c.component_type: c.status for c in components}]: a later row of a
    kind overwrites an earlier one. *)
Definition component_statuses (components : list EvaluationComponentResult)
    : gmap EvaluationComponentType TaskStatus :=
  foldl (λ m c, <[c_component_type c := c_status c]> m) ∅ components.

(** [sum(1 for status in component_statuses.values() if status == s)] *)
Definition count_status (s : TaskStatus)
    (statuses : gmap EvaluationComponentType TaskStatus) : nat :=
  size (filter (λ kv, kv.2 = s) statuses).

Definition set_failed (error : string) (t : BackgroundTask) : BackgroundTask :=
  {| bt_id := bt_id t; bt_user_id := bt_user_id t; bt_task_id := bt_task_id t;
     bt_task_type := bt_task_type t; bt_topic := bt_topic t;
     bt_difficulty := bt_difficulty t; bt_question := bt_question t;
     bt_ideal_answer := bt_ideal_answer t; bt_model := bt_model t;
     bt_status := FAILED;
     bt_progress := bt_progress t;
     bt_status_message := bt_status_message t;
     bt_result := bt_result t;
     bt_error_message := Some error;
     bt_created_at := bt_created_at t; bt_updated_at := bt_updated_at t;
     bt_completed_at := bt_completed_at t |}.

Definition set_dispatched (t : BackgroundTask) : BackgroundTask :=
  {| bt_id := bt_id t; bt_user_id := bt_user_id t; bt_task_id := bt_task_id t;
     bt_task_type := bt_task_type t; bt_topic := bt_topic t;
     bt_difficulty := bt_difficulty t; bt_question := bt_question t;
     bt_ideal_answer := bt_ideal_answer t; bt_model := bt_model t;
     bt_status := bt_status t;
     bt_progress := bt_progress t;
     bt_status_message := Some "Text analysis tasks dispatched.";
     bt_result := Some (JObj [("text_tasks_dispatched", JBool true)]);
     bt_error_message := bt_error_message t;
     bt_created_at := bt_created_at t; bt_updated_at := bt_updated_at t;
     bt_completed_at := bt_completed_at t |}.

Definition set_progress (progress : Z) (message : string) (t : BackgroundTask)
    : BackgroundTask :=
  {| bt_id := bt_id t; bt_user_id := bt_user_id t; bt_task_id := bt_task_id t;
     bt_task_type := bt_task_type t; bt_topic := bt_topic t;
     bt_difficulty := bt_difficulty t; bt_question := bt_question t;
     bt_ideal_answer := bt_ideal_answer t; bt_model := bt_model t;
     bt_status := bt_status t;
     bt_progress := progress;
     bt_status_message := Some message;
     bt_result := bt_result t;
     bt_error_message := bt_error_message t;
     bt_created_at := bt_created_at t; bt_updated_at := bt_updated_at t;
     bt_completed_at := bt_completed_at t |}.

(** An [Optional[str]] as a task argument. *)
Definition json_of_str (s : option string) : json :=
  match s with
  | Some x => JStr x
  | None => JNull
  end.

(** [f'tasks.component_tasks.{comp_entry.component_type.value}_task'] *)
Definition component_task_name (k : EvaluationComponentType) : string :=
  "tasks.component_tasks." +:+ component_value k +:+ "_task".

(** The message of one pass of the wave-2 loop. *)
Definition text_job (parent_task : BackgroundTask) (transcript flagged_words : json)
    (comp_entry : EvaluationComponentResult) : Job :=
  let args := [JInt (Z.of_nat (c_id comp_entry)); transcript] in
  let task_args :=
    match c_component_type comp_entry with
    | GRAMMAR =>
        args ++ [json_of_str (bt_question parent_task);
                 json_of_str (bt_model parent_task)]
    | CONTENT_COMPARISON =>
        args ++ [json_of_str (bt_ideal_answer parent_task);
                 json_of_str (bt_question parent_task);
                 json_of_str (bt_model parent_task)]
    | PRONUNCIATION =>
        args ++ [flagged_words;
                 json_of_str (bt_question parent_task);
                 json_of_str (bt_model parent_task)]
    | _ => args
    end in
  mkJob (component_task_name (c_component_type comp_entry)) task_args.

(** [[c for c in components if c.component_type not in [TRANSCRIPTION, AUDIO_FEATURES]]] *)
Definition text_components (components : list EvaluationComponentResult)
    : list EvaluationComponentResult :=
  filter (λ c, c_component_type c ∉ [TRANSCRIPTION; AUDIO_FEATURES]) components.

Definition final_summary_job (parent_task_id : string) : Job :=
  mkJob "tasks.component_tasks.create_final_summary_task" [JStr parent_task_id].

(** [int((completed_count / len(EvaluationComponentType)) * 90)]: the
    quotient by 8 and its product by 90 are exact in binary floating point,
    so the truncation is the integer quotient of [completed_count * 90]. *)
Definition partial_progress (completed_count : nat) : Z :=
  (Z.of_nat completed_count * 90) / Z.of_nat len_EvaluationComponentType.

Definition partial_message (completed_count : nat) : string :=
  pretty completed_count +:+ "/" +:+ pretty len_EvaluationComponentType
    +:+ " components processed.".

(** The stage-2 branch, once both wave-1 kinds are complete and the parent
    holds no result.  [None]: [transcript_data.get] raised. *)
Definition dispatch_text_tasks (parent_task : BackgroundTask)
    (components : list EvaluationComponentResult)
    : option (BackgroundTask * list Job) :=
  let transcription_comp :=
    find (λ c, bool_decide (c_component_type c = TRANSCRIPTION)) components in
  match transcription_comp ≫= c_result with
  | Some transcript_data =>
      transcript ← json_get transcript_data "transcript" JNull;
      flagged_words ← json_get transcript_data "flagged_words" JNull;
      Some (set_dispatched parent_task,
            text_job parent_task transcript flagged_words
              <$> text_components components)
  | None => Some (set_failed "Transcription result not found." parent_task, [])
  end.

(** The body of [if parent_task.status == TaskStatus.PROCESSING:] up to the
    commit: the modified parent and the messages sent, in order. *)
Definition evaluate_components (parent_task : BackgroundTask)
    (components : list EvaluationComponentResult)
    : option (BackgroundTask * list Job) :=
  let statuses := component_statuses components in
  let completed_count := count_status COMPLETED statuses in
  let failed_count := count_status FAILED statuses in
  if bool_decide (0 < failed_count)%nat then
    Some (set_failed "One or more evaluation components failed." parent_task, [])
  else if bool_decide (statuses !! TRANSCRIPTION = Some COMPLETED)
          && bool_decide (statuses !! AUDIO_FEATURES = Some COMPLETED)
          && negb (truthy_col (bt_result parent_task)) then
    dispatch_text_tasks parent_task components
  else if bool_decide (completed_count = len_EvaluationComponentType) then
    Some (set_progress 95 "All components complete. Aggregating final results..."
            parent_task,
          [final_summary_job (bt_task_id parent_task)])
  else
    Some (set_progress (partial_progress completed_count)
            (partial_message completed_count) parent_task, []).

(** What the handler holds after its two [select] statements: the parent
    row of the user and the component rows of the task. *)
Definition load_task (st : State) (task_id : string) (user_id : nat)
    : option (BackgroundTask * list EvaluationComponentResult) :=
  parent_task ←
    find (λ t, bool_decide (bt_task_id t = task_id)
               && bool_decide (bt_user_id t = user_id)) (background_tasks st);
  Some (parent_task,
        filter (λ c, c_parent_task_id c = task_id) (component_results st)).

(** [celery_app.send_task] / [task.delay], one message after the other. *)
Definition send_jobs (jobs : list Job) (st : State) : State :=
  {| background_tasks := background_tasks st;
     component_results := component_results st;
     practice_sessions := practice_sessions st;
     broker := broker st ++ jobs |}.

(** [session.add(parent_task); session.commit()]: the row with the same
    primary key is replaced. *)
Definition commit_task (row : BackgroundTask) (st : State) : State :=
  {| background_tasks :=
       (λ t, if bool_decide (bt_id t = bt_id row) then row else t)
         <$> background_tasks st;
     component_results := component_results st;
     practice_sessions := practice_sessions st;
     broker := broker st |}.

(** [session.refresh(parent_task)] *)
Definition refresh_task (st : State) (parent_task : BackgroundTask) : BackgroundTask :=
  default parent_task
    (find (λ t, bool_decide (bt_id t = bt_id parent_task)) (background_tasks st)).

Inductive Response :=
  | HTTP_404
  | HTTP_500
  | BackgroundTaskRead (parent_task : BackgroundTask)
  | TaskStatusResponse (parent_task : BackgroundTask)
      (components : list EvaluationComponentResult).

(** The handler from the point where both [select]s have returned: the
    evaluation runs on the rows the handler holds, the messages go to the
    broker as the loop sends them, then the parent row is committed. *)
Definition finish_task_status
    (held : BackgroundTask * list EvaluationComponentResult) (st : State)
    : Response * State :=
  let '(parent_task, components) := held in
  if bool_decide (bt_status parent_task = PROCESSING) then
    match evaluate_components parent_task components with
    | Some (parent_task', jobs) =>
        let st' := commit_task parent_task' (send_jobs jobs st) in
        (TaskStatusResponse (refresh_task st' parent_task') components, st')
    | None => (HTTP_500, st)
    end
  else (TaskStatusResponse (refresh_task st parent_task) components, st).

(** [get_task_status], run without interruption. *)
Definition get_task_status (task_id : string) (user_id : nat) (st : State)
    : Response * State :=
  match load_task st task_id user_id with
  | Some held => finish_task_status held st
  | None => (HTTP_404, st)
  end.

(** ** Submission ([main.py], [evaluate_speech_async]) *)

Definition new_component (now : datetime) (parent_task_id : string) (id : nat)
    (comp_type : EvaluationComponentType) : EvaluationComponentResult :=
  {| c_id := id;
     c_parent_task_id := parent_task_id;
     c_component_type := comp_type;
     c_status := PENDING;
     c_status_message := Some "Component task submitted...";
     c_result := None;
     c_error_message := None;
     c_created_at := now;
     c_updated_at := now;
     c_completed_at := None |}.

(** The two messages of the first wave, in the order of the rows. *)
Definition wave1_jobs (temp_audio_path parent_task_id question ideal_answer model : string)
    (component_entries : list EvaluationComponentResult) : list Job :=
  omap (λ comp_entry,
          match c_component_type comp_entry with
          | TRANSCRIPTION =>
              Some (mkJob "tasks.component_tasks.transcribe_audio_task"
                      [JInt (Z.of_nat (c_id comp_entry)); JStr temp_audio_path;
                       JStr parent_task_id; JStr question; JStr ideal_answer;
                       JStr model])
          | AUDIO_FEATURES =>
              Some (mkJob "tasks.component_tasks.audio_features_task"
                      [JInt (Z.of_nat (c_id comp_entry)); JStr temp_audio_path])
          | _ => None
          end) component_entries.

(** [evaluate_speech_async]; [parent_task_id] is the fresh [uuid4].  The
    column [task_id] is unique: a second row with the same value makes the
    first commit fail and the handler answer 500.  The handler commits the
    parent as PENDING, then the eight component rows, sends the two
    messages and commits the parent as PROCESSING; the state given here is
    the one it leaves when it returns, what it leaves when it raises is
    [evaluate_speech_async_raises]. *)
Definition evaluate_speech_async (now : datetime) (user_id : nat)
    (parent_task_id temp_audio_path topic difficulty question ideal_answer model : string)
    (st : State) : Response * State :=
  if bool_decide (parent_task_id ∈ bt_task_id <$> background_tasks st) then
    (HTTP_500, st)
  else
    let parent_task :=
      {| bt_id := S (length (background_tasks st));
         bt_user_id := user_id;
         bt_task_id := parent_task_id;
         bt_task_type := "master_speech_evaluation";
         bt_topic := Some topic;
         bt_difficulty := Some difficulty;
         bt_question := Some question;
         bt_ideal_answer := Some ideal_answer;
         bt_model := Some model;
         bt_status := PROCESSING;
         bt_progress := 0;
         bt_status_message := Some "Initial audio analysis tasks dispatched.";
         bt_result := None;
         bt_error_message := None;
         bt_created_at := now;
         bt_updated_at := now;
         bt_completed_at := None |} in
    let component_entries :=
      imap (λ i comp_type,
              new_component now parent_task_id
                (S (length (component_results st) + i)) comp_type)
        all_component_types in
    (BackgroundTaskRead parent_task,
     {| background_tasks := background_tasks st ++ [parent_task];
        component_results := component_results st ++ component_entries;
        practice_sessions := practice_sessions st;
        broker := broker st
                  ++ wave1_jobs temp_audio_path parent_task_id question
                       ideal_answer model component_entries |}).

(** ** Component tasks ([tasks/component_tasks.py]) *)

(** What a call into an analysis collaborator does: return or raise. *)
Inductive outcome (A : Type) :=
  | Returns (value : A)
  | Raises (exc : string).
Arguments Returns {A} value.
Arguments Raises {A} exc.

(** The state Celery records for a task run. *)
Inductive celery_state := SUCCESS | FAILURE.

(** [_run_component_task]: the analysis function is called inside the
    [try], after the row was marked PROCESSING. *)
Definition _run_component_task (now1 now2 : datetime) (component_id : nat)
    (status_message : string)
    (analysis_func : outcome (option (list (string * json)))) (st : State)
    : celery_state * State :=
  let st1 :=
    update_component_task_status_sync now1 component_id PROCESSING
      (Some (status_message +:+ "...")) None None st in
  match analysis_func with
  | Returns result =>
      (SUCCESS,
       update_component_task_status_sync now2 component_id COMPLETED
         (Some "Analysis complete.") result None st1)
  | Raises e =>
      let error_msg := status_message +:+ " error: " +:+ e in
      (SUCCESS,
       update_component_task_status_sync now2 component_id FAILED
         (Some error_msg) None (Some error_msg) st1)
  end.

(** [analyze_text_sentiment_task]: the analysis is handed to
    [_run_component_task] uncalled. *)
Definition analyze_text_sentiment_task (now1 now2 : datetime) (component_id : nat)
    (analyze_sentiment : outcome (option (list (string * json)))) (st : State)
    : celery_state * State :=
  _run_component_task now1 now2 component_id "Text sentiment analysis"
    analyze_sentiment st.

(** [evaluate_grammar_task]: [get_corrected_grammar] is called first, on
    its own; what reaches [_run_component_task] is a lambda that cannot
    raise. *)
Definition evaluate_grammar_task (now1 now2 : datetime) (component_id : nat)
    (get_corrected_grammar : outcome string) (st : State)
    : celery_state * State :=
  match get_corrected_grammar with
  | Raises _ => (FAILURE, st)
  | Returns result =>
      _run_component_task now1 now2 component_id "Grammar evaluation"
        (Returns (Some [("grammar_feedback", JStr result)])) st
  end.

(** [evaluate_content_task] *)
Definition evaluate_content_task (now1 now2 : datetime) (component_id : nat)
    (compare_answers : outcome string) (st : State)
    : celery_state * State :=
  match compare_answers with
  | Raises _ => (FAILURE, st)
  | Returns result =>
      _run_component_task now1 now2 component_id "Content evaluation"
        (Returns (Some [("content_evaluation", JStr result)])) st
  end.

(** [evaluate_pronunciation_task] *)
Definition evaluate_pronunciation_task (now1 now2 : datetime) (component_id : nat)
    (get_speech_feedback : outcome string) (st : State)
    : celery_state * State :=
  match get_speech_feedback with
  | Raises _ => (FAILURE, st)
  | Returns result =>
      _run_component_task now1 now2 component_id "Pronunciation evaluation"
        (Returns (Some [("pronunciation_feedback", JStr result)])) st
  end.

(** ** The rating ([_calculate_rating]) *)

(** [len(s)] of a text: the number of its characters.  A [string] holds
    the UTF-8 bytes of the text, and a character starts at every byte that
    is not a continuation byte (10xxxxxx). *)
Definition is_continuation_byte (a : Ascii.ascii) : bool :=
  match a with
  | Ascii.Ascii _ _ _ _ _ _ b6 b7 => b7 && negb b6
  end.

Fixpoint str_len (s : string) : nat :=
  match s with
  | EmptyString => 0%nat
  | String a rest =>
      ((if is_continuation_byte a then 0 else 1) + str_len rest)%nat
  end.

(** [len(v)]; [None] when [v] has no length and [len] raises.  A string is
    a sequence of characters and its length is their number. *)
Definition py_len (v : json) : option nat :=
  match v with
  | JStr s => Some (str_len s)
  | JArr items => Some (length items)
  | JObj fields => Some (length fields)
  | _ => None
  end.

(** [round(x)] to the nearest integer, ties to the even one. *)
Definition round_half_even (x : Q) : Z :=
  let n := Qnum x in
  let d := Z.pos (Qden x) in
  let f := n / d in
  let r2 := 2 * (n mod d) in
  if (r2 <? d)%Z then f
  else if (d <? r2)%Z then f + 1
  else if Z.even f then f else f + 1.

(** [round(score, 1)] *)
Definition round1 (score : Q) : Q :=
  Qred (round_half_even (score * 10) # 10).

(** [min(a, b)] and [max(a, b)] of Python: the first argument unless the
    second is strictly smaller (larger). *)
Definition py_min (a b : Q) : Q := if Qle_bool a b then a else b.
Definition py_max (a b : Q) : Q := if Qle_bool b a then a else b.

(** [max(1.0, min(5.0, round(score, 1)))] *)
Definition rating_of_score (score : Q) : Q :=
  py_max 1 (py_min 5 (round1 score)).

(** One of the two [next(...)] / [if comp and len(...) < limit] steps: the
    increment, or [None] when the step raises. *)
Definition rating_step (comp_type : EvaluationComponentType) (key : string)
    (limit : nat) (components : list EvaluationComponentResult) : option Q :=
  match find (λ c, bool_decide (c_component_type c = comp_type)
                   && truthy_col (c_result c)) components with
  | Some comp =>
      payload ← c_result comp;
      feedback ← json_get payload key (JStr "");
      n ← py_len feedback;
      Some (if bool_decide (n < limit)%nat then 1%Q else 0%Q)
  | None => Some 0%Q
  end.

(** [_calculate_rating]: an exception leaves the [try] with the score
    reached so far. *)
Definition _calculate_rating (components : list EvaluationComponentResult) : Q :=
  let score := 3%Q in
  let score :=
    match rating_step GRAMMAR "grammar_feedback" 300 components with
    | Some inc1 =>
        let score := Qred (score + inc1) in
        match rating_step CONTENT_COMPARISON "content_evaluation" 500 components with
        | Some inc2 => Qred (score + inc2)
        | None => score
        end
    | None => score
    end in
  rating_of_score score.

(** ** The summariser ([create_final_summary_task]) *)

(** [{comp.component_type.value: json.loads(comp.result) for comp in
    completed_components if comp.result}] *)
Definition component_payloads (completed_components : list EvaluationComponentResult)
    : gmap string json :=
  foldl (λ m comp,
           match c_result comp with
           | Some payload => <[component_value (c_component_type comp) := payload]> m
           | None => m
           end) ∅ completed_components.

(** [results.get(kind.value, {}).get(key, dflt)] *)
Definition payload_get (results : gmap string json) (kind : EvaluationComponentType)
    (key : string) (dflt : json) : option json :=
  json_get (default (JObj []) (results !! component_value kind)) key dflt.

(** Validation of a [str] field and of an [Optional[str]] field of
    [PracticeSessionCreate]; [None] when the value is rejected.  Text is
    accepted as it is, [None] only where the field is optional, and every
    other value is rejected. *)
Definition validate_str (v : json) : option string :=
  match v with
  | JStr s => Some s
  | _ => None
  end.

Definition validate_optional_str (v : json) : option (option string) :=
  match v with
  | JNull => Some None
  | JStr s => Some (Some s)
  | _ => None
  end.

Definition set_completed (now : datetime) (session_id : nat) (t : BackgroundTask)
    : BackgroundTask :=
  {| bt_id := bt_id t; bt_user_id := bt_user_id t; bt_task_id := bt_task_id t;
     bt_task_type := bt_task_type t; bt_topic := bt_topic t;
     bt_difficulty := bt_difficulty t; bt_question := bt_question t;
     bt_ideal_answer := bt_ideal_answer t; bt_model := bt_model t;
     bt_status := COMPLETED;
     bt_progress := 100;
     bt_status_message :=
       Some ("Evaluation complete. View results in session "
             +:+ pretty session_id +:+ ".");
     bt_result := Some (JObj [("practice_session_id", JInt (Z.of_nat session_id))]);
     bt_error_message := bt_error_message t;
     bt_created_at := bt_created_at t; bt_updated_at := bt_updated_at t;
     bt_completed_at := Some now |}.

(** [select(BackgroundTask).where(BackgroundTask.task_id == parent_task_id)).first()] *)
Definition find_task (st : State) (parent_task_id : string) : option BackgroundTask :=
  find (λ t, bool_decide (bt_task_id t = parent_task_id)) (background_tasks st).

(** The [PracticeSessionCreate(...)] expression; [None] when a [.get] or
    the validation raises. *)
Definition final_session_data (now : datetime) (parent_task_id : string)
    (parent_task : BackgroundTask)
    (completed_components : list EvaluationComponentResult) (session_id : nat)
    : option PracticeSession :=
  let results := component_payloads completed_components in
  transcript ← payload_get results TRANSCRIPTION "transcript" (JStr "N/A")
                 ≫= validate_str;
  topic ← bt_topic parent_task;
  difficulty ← bt_difficulty parent_task;
  question ← bt_question parent_task;
  ideal_answer ← bt_ideal_answer parent_task;
  grammar_feedback ← payload_get results GRAMMAR "grammar_feedback" JNull
                       ≫= validate_optional_str;
  pronunciation_feedback ←
    payload_get results PRONUNCIATION "pronunciation_feedback" JNull
      ≫= validate_optional_str;
  content_evaluation ←
    payload_get results CONTENT_COMPARISON "content_evaluation" JNull
      ≫= validate_optional_str;
  Some {| ps_id := session_id;
          ps_parent_task_id := parent_task_id;
          ps_topic := topic;
          ps_difficulty := difficulty;
          ps_question := question;
          ps_ideal_answer := ideal_answer;
          ps_transcript := transcript;
          ps_grammar_feedback := grammar_feedback;
          ps_pronunciation_feedback := pronunciation_feedback;
          ps_content_evaluation := content_evaluation;
          ps_audio_features :=
            Some (default JNull (results !! component_value AUDIO_FEATURES));
          ps_linguistic_features :=
            Some (default JNull (results !! component_value LINGUISTIC_TEXT));
          ps_sentiment_analysis :=
            Some (default JNull (results !! component_value SENTIMENT_TEXT));
          ps_emotion_analysis :=
            Some (default JNull (results !! component_value EMOTION_TEXT));
          ps_rating := _calculate_rating completed_components;
          ps_created_at := now;
          ps_user_id := Some (bt_user_id parent_task) |}.

(** The [try] block; [None] when it raises.  The column
    [PracticeSession.parent_task_id] is unique, so the insert of a second
    session of the same parent fails at its commit.  The key of the new
    session is the database's to choose among the unused ones; here it is the
    number after the stored rows, and the properties stated below do not say
    which it is. *)
Definition try_final_summary (now : datetime) (parent_task_id : string) (st : State)
    : option State :=
  let all_components :=
    filter (λ c, c_parent_task_id c = parent_task_id) (component_results st) in
  let completed_components :=
    filter (λ c, c_status c = COMPLETED) all_components in
  parent_task ← find_task st parent_task_id;
  db_practice_session ←
    final_session_data now parent_task_id parent_task completed_components
      (S (length (practice_sessions st)));
  if bool_decide (parent_task_id ∈ ps_parent_task_id <$> practice_sessions st) then
    None
  else
    Some (commit_task (set_completed now (ps_id db_practice_session) parent_task)
            {| background_tasks := background_tasks st;
               component_results := component_results st;
               practice_sessions := practice_sessions st ++ [db_practice_session];
               broker := broker st |}).

(** [create_final_summary_task]: the [except] branch marks the parent
    FAILED when it finds it. *)
Definition create_final_summary_task (now : datetime) (parent_task_id : string)
    (st : State) : State :=
  match try_final_summary now parent_task_id st with
  | Some st' => st'
  | None =>
      match find_task st parent_task_id with
      | Some parent_task =>
          commit_task (set_failed "Failed to create final summary." parent_task) st
      | None => st
      end
  end.

(** ** Runs of the pipeline *)

Definition is_final_summary_job (parent_task_id : string) (j : Job) : bool :=
  bool_decide (job_name j = "tasks.component_tasks.create_final_summary_task")
  && match job_args j with
     | [JStr s] => bool_decide (s = parent_task_id)
     | _ => false
     end.

(** The broker without the first message that satisfies [p], when there is
    one. *)
Fixpoint take_job (p : Job → bool) (jobs : list Job) : option (list Job) :=
  match jobs with
  | [] => None
  | j :: rest => if p j then Some rest else cons j <$> take_job p rest
  end.

Definition with_broker (jobs : list Job) (st : State) : State :=
  {| background_tasks := background_tasks st;
     component_results := component_results st;
     practice_sessions := practice_sessions st;
     broker := jobs |}.

(** The operations on the state: a submission, a status query, a worker's
    call of the status updater, and a worker that takes a final-summary
    message off the broker and runs it. *)
Inductive op :=
  | Submit (now : datetime) (user_id : nat)
      (parent_task_id temp_audio_path topic difficulty question ideal_answer
         model : string)
  | GetStatus (task_id : string) (user_id : nat)
  | Report (now : datetime) (component_id : nat) (status : TaskStatus)
      (status_message : option string) (result : option (list (string * json)))
      (error : option string)
  | Summarize (now : datetime) (parent_task_id : string).

Definition exec (o : op) (st : State) : State :=
  match o with
  | Submit now user_id parent_task_id temp_audio_path topic difficulty question
      ideal_answer model =>
      (evaluate_speech_async now user_id parent_task_id temp_audio_path topic
         difficulty question ideal_answer model st).2
  | GetStatus task_id user_id => (get_task_status task_id user_id st).2
  | Report now component_id status status_message result error =>
      update_component_task_status_sync now component_id status status_message
        result error st
  | Summarize now parent_task_id =>
      match take_job (is_final_summary_job parent_task_id) (broker st) with
      | Some rest => create_final_summary_task now parent_task_id (with_broker rest st)
      | None => st
      end
  end.

(** [run ops st]: the operations of [ops] one after the other. *)
Definition run (ops : list op) (st : State) : State :=
  foldl (λ s o, exec o s) st ops.

(** The states the pipeline can be in. *)
Definition reachable (st : State) : Prop :=
  ∃ ops, st = run ops empty_state.

(** The three conditions the [if] chain of the evaluator tests, in its
    order. *)
Definition any_failed (components : list EvaluationComponentResult) : Prop :=
  (0 < count_status FAILED (component_statuses components))%nat.

Definition stage2_due (parent_task : BackgroundTask)
    (components : list EvaluationComponentResult) : Prop :=
  component_statuses components !! TRANSCRIPTION = Some COMPLETED
  ∧ component_statuses components !! AUDIO_FEATURES = Some COMPLETED
  ∧ bt_result parent_task = None.

Definition all_complete (components : list EvaluationComponentResult) : Prop :=
  count_status COMPLETED (component_statuses components)
  = len_EvaluationComponentType.

(** [next((c for c in components if c.component_type == TRANSCRIPTION), None)] *)
Definition transcription_comp_of (components : list EvaluationComponentResult)
    : option EvaluationComponentResult :=
  find (λ c, bool_decide (c_component_type c = TRANSCRIPTION)) components.

(** Progress is within 0..95, or it is 100 and the outcome of the task is
    in the table of practice sessions. *)
Definition progress_ok (sessions : list PracticeSession) (t : BackgroundTask) : Prop :=
  0 ≤ bt_progress t ≤ 95
  ∨ (bt_progress t = 100
     ∧ ∃ s, s ∈ sessions ∧ ps_parent_task_id s = bt_task_id t).

Definition progress_inv (st : State) : Prop :=
  ∀ t, t ∈ background_tasks st → progress_ok (practice_sessions st) t.

Definition is_summarize (o : op) : bool :=
  match o with
  | Summarize _ _ => true
  | _ => false
  end.

(** ** The rating in the words of the specification

    Base value 3.0, plus 1.0 if the feedback text of the grammar component is
    under 300 characters, plus 1.0 if the feedback text of the
    content-comparison component is under 500 characters, clamped to
    [1.0, 5.0] and rounded to one decimal place.  A length is [None] for a
    kind that has no component with a result. *)
Definition length_bonus (len : option nat) (limit : nat) : Q :=
  match len with
  | Some n => if bool_decide (n < limit)%nat then 1%Q else 0%Q
  | None => 0%Q
  end.

Definition clamp (lo hi x : Q) : Q :=
  if negb (Qle_bool lo x) then lo
  else if negb (Qle_bool x hi) then hi
  else x.

Definition rating_of_lengths (grammar_length content_length : option nat) : Q :=
  round1 (clamp 1 5
            (3 + length_bonus grammar_length 300
               + length_bonus content_length 500)%Q).

(** The length of the feedback text that the component of a kind holds
    under [key], among components with one row per kind. *)
Inductive feedback_length (kind : EvaluationComponentType) (key : string)
    (components : list EvaluationComponentResult) : option nat → Prop :=
  | no_feedback :
      (∀ c, c ∈ components → c_component_type c = kind → c_result c = None) →
      feedback_length kind key components None
  | text_feedback c fields text :
      c ∈ components →
      c_component_type c = kind →
      c_result c = Some (JObj fields) →
      dict_lookup key fields = Some (JStr text) →
      feedback_length kind key components (Some (str_len text)).

(** The same length as a function of any set of components: the length of
    the feedback text of the first component of the kind that has a result,
    [None] when there is no such component or its payload holds no text
    under [key]. *)
Definition feedback_text_length (kind : EvaluationComponentType) (key : string)
    (components : list EvaluationComponentResult) : option nat :=
  match find (λ c, bool_decide (c_component_type c = kind)
                   && truthy_col (c_result c)) components with
  | Some c =>
      match c_result c with
      | Some (JObj fields) =>
          match dict_lookup key fields with
          | Some (JStr text) => Some (str_len text)
          | _ => None
          end
      | _ => None
      end
  | None => None
  end.

(** A text of [n] characters. *)
Fixpoint text_of_length (n : nat) : string :=
  match n with
  | O => ""
  | S m => String (Ascii.ascii_of_nat 97) (text_of_length m)
  end.

(** Completed grammar and content rows with feedback of 250 and of 600
    characters. *)
Definition rated_components : list EvaluationComponentResult :=
  [mkComponent 6 "task-1" GRAMMAR COMPLETED (Some "Analysis complete.")
     (Some (JObj [("grammar_feedback", JStr (text_of_length 250))])) None
     10 24 (Some 24);
   mkComponent 7 "task-1" CONTENT_COMPARISON COMPLETED (Some "Analysis complete.")
     (Some (JObj [("content_evaluation", JStr (text_of_length 600))])) None
     10 25 (Some 25)].

(** A grammar feedback of 298 letters and one accented letter: 299
    characters in 300 bytes. *)
Definition accented_feedback : string := text_of_length 298 +:+ "é".

Definition accented_components : list EvaluationComponentResult :=
  [mkComponent 6 "task-1" GRAMMAR COMPLETED (Some "Analysis complete.")
     (Some (JObj [("grammar_feedback", JStr accented_feedback)])) None
     10 24 (Some 24)].

(** Completed grammar and content rows where the language model answered
    the grammar request with a number and the content request with a short
    text. *)
Definition numeric_grammar_components : list EvaluationComponentResult :=
  [mkComponent 6 "task-1" GRAMMAR COMPLETED (Some "Analysis complete.")
     (Some (JObj [("grammar_feedback", JInt 7)])) None 10 24 (Some 24);
   mkComponent 7 "task-1" CONTENT_COMPARISON COMPLETED (Some "Analysis complete.")
     (Some (JObj [("content_evaluation", JStr "Good.")])) None 10 25 (Some 25)].

(** ** Sample rows and runs *)

(** A row in a terminal status, and the state that holds only it. *)
Definition finished_component : EvaluationComponentResult :=
  {| c_id := 1;
     c_parent_task_id := "task";
     c_component_type := GRAMMAR;
     c_status := COMPLETED;
     c_status_message := Some "Analysis complete.";
     c_result := Some (JObj [("grammar_feedback", JStr "Fine.")]);
     c_error_message := None;
     c_created_at := 1;
     c_updated_at := 5;
     c_completed_at := Some 5 |}.

Definition finished_state : State :=
  mkState [] [finished_component] [] [].

(** A submission at time 10, and the reports of the two wave-1 workers. *)
Definition submitted : State :=
  run [Submit 10 1%nat "task-1" "/tmp/audio_task-1_a.wav" "travel" "easy"
         "Describe your last trip." "I went to the sea." "mistral:latest"]
    empty_state.

Definition transcription_result : option (list (string * json)) :=
  Some [("transcript", JStr "the quick brown fox"); ("flagged_words", JArr [])].

Definition wave1_done : State :=
  run [Report 11 1%nat PROCESSING (Some "Transcription in progress...") None None;
       Report 12 2%nat PROCESSING (Some "Audio feature extraction...") None None;
       Report 13 1%nat COMPLETED (Some "Transcription complete.")
         transcription_result None;
       Report 14 2%nat COMPLETED (Some "Analysis complete.")
         (Some [("pitch_mean", JInt 180)]) None]
    submitted.

(** The same, with a FAILED grammar row as well. *)
Definition wave1_done_grammar_failed : State :=
  run [Report 15 6%nat FAILED (Some "Grammar evaluation error: timeout") None
         (Some "Grammar evaluation error: timeout")]
    wave1_done.

(** The parent row and the component rows of ["task-1"] in a state. *)
Definition parent_of (st : State) : BackgroundTask :=
  default (mkTask 0 0 "" "" None None None None None PENDING 0 None None None 0 0 None)
    (find_task st "task-1").

Definition components_of (st : State) : list EvaluationComponentResult :=
  filter (λ c, c_parent_task_id c = "task-1") (component_results st).

(** The state after the status query that dispatches the second wave. *)
Definition wave2_dispatched : State :=
  run [GetStatus "task-1" 1%nat] wave1_done.

(** The six text-analysis workers report their results. *)
Definition text_reports : list op :=
  [Report 21 3%nat COMPLETED (Some "Analysis complete.")
     (Some [("emotion", JStr "neutral")]) None;
   Report 22 4%nat COMPLETED (Some "Analysis complete.")
     (Some [("sentiment", JStr "positive")]) None;
   Report 23 5%nat COMPLETED (Some "Analysis complete.")
     (Some [("word_count", JInt 4)]) None;
   Report 24 6%nat COMPLETED (Some "Analysis complete.")
     (Some [("grammar_feedback", JStr "No errors found.")]) None;
   Report 25 7%nat COMPLETED (Some "Analysis complete.")
     (Some [("content_evaluation", JStr "Relevant, but short.")]) None;
   Report 26 8%nat COMPLETED (Some "Analysis complete.")
     (Some [("pronunciation_feedback", JStr "Clear.")]) None].

Definition all_done : State := run text_reports wave2_dispatched.

(** The whole run up to the status query that sees all eight components
    COMPLETED; no final-summary worker has run in it. *)
Definition ops_until_aggregating : list op :=
  [Submit 10 1%nat "task-1" "/tmp/audio_task-1_a.wav" "travel" "easy"
     "Describe your last trip." "I went to the sea." "mistral:latest";
   Report 11 1%nat PROCESSING (Some "Transcription in progress...") None None;
   Report 12 2%nat PROCESSING (Some "Audio feature extraction...") None None;
   Report 13 1%nat COMPLETED (Some "Transcription complete.")
     transcription_result None;
   Report 14 2%nat COMPLETED (Some "Analysis complete.")
     (Some [("pitch_mean", JInt 180)]) None;
   GetStatus "task-1" 1%nat]
  ++ text_reports ++ [GetStatus "task-1" 1%nat].

Definition aggregating : State := run ops_until_aggregating empty_state.

(** ** Handlers that overlap

    [get_task_status] is a coroutine: it awaits its two [select]s, then runs
    the evaluation, the sends and the commit.  Each request has a session
    of its own, so a handler evaluates the rows it loaded, whatever another
    handler committed in between. *)
Inductive event :=
  | Load (handler : nat) (task_id : string) (user_id : nat)
  | Finish (handler : nat).

Definition handler_step (e : event)
    (s : State * gmap nat (BackgroundTask * list EvaluationComponentResult))
    : State * gmap nat (BackgroundTask * list EvaluationComponentResult) :=
  match e with
  | Load h task_id user_id =>
      match load_task s.1 task_id user_id with
      | Some held => (s.1, <[h := held]> s.2)
      | None => s
      end
  | Finish h =>
      match s.2 !! h with
      | Some held => ((finish_task_status held s.1).2, delete h s.2)
      | None => s
      end
  end.

(** The state after the events of a schedule, from a state in which no
    handler is running. *)
Definition schedule (events : list event) (st : State) : State :=
  (foldl (λ s e, handler_step e s) (st, ∅) events).1.

(** The messages of the second wave on a broker. *)
Definition is_text_job (j : Job) : bool :=
  bool_decide (job_name j ∈ component_task_name <$>
                 [EMOTION_TEXT; SENTIMENT_TEXT; LINGUISTIC_TEXT; GRAMMAR;
                  CONTENT_COMPARISON; PRONUNCIATION]).

(** ** The layout of the tables

    What the submission handler establishes and no operation undoes: the
    primary keys count the rows, no two parents share a [task_id], every
    component row belongs to a parent, every parent has one component row
    of each kind, and no two practice sessions share a parent. *)
Definition store_inv (st : State) : Prop :=
  bt_id <$> background_tasks st = seq 1 (length (background_tasks st))
  ∧ c_id <$> component_results st = seq 1 (length (component_results st))
  ∧ NoDup (bt_task_id <$> background_tasks st)
  ∧ (∀ c, c ∈ component_results st →
       c_parent_task_id c ∈ bt_task_id <$> background_tasks st)
  ∧ (∀ task_id, task_id ∈ bt_task_id <$> background_tasks st →
       c_component_type
         <$> filter (λ c, c_parent_task_id c = task_id) (component_results st)
       = all_component_types)
  ∧ NoDup (ps_parent_task_id <$> practice_sessions st).



(** ** The analysis collaborators and the other component tasks

    ([language_analyzer.py], [whisper_engine.py], [grammar_corrector.py],
    [tasks/component_tasks.py]).  What a library call inside a collaborator
    does is an [outcome]; the collaborator's own [try], guards and defaults
    are as in the source. *)

(** [analyze_audio_features]: [extraction] is the feature extraction inside
    the [try]; an exception there is logged and [{}] is returned. *)
Definition analyze_audio_features (extraction : outcome (list (string * json)))
    : outcome (option (list (string * json))) :=
  match extraction with
  | Returns features => Returns (Some features)
  | Raises _ => Returns (Some [])
  end.

Definition neutral_emotion : list (string * json) :=
  [("dominant_emotion", JStr "neutral"); ("emotion_confidence", JFloat 0);
   ("emotion_scores", JObj [])].

(** [analyze_emotion]: without a pipeline, for a blank text and after an
    exception the neutral default is returned. *)
Definition analyze_emotion (pipeline_loaded blank : bool)
    (classification : outcome (list (string * json)))
    : outcome (option (list (string * json))) :=
  if negb pipeline_loaded || blank then Returns (Some neutral_emotion)
  else match classification with
       | Returns scores => Returns (Some scores)
       | Raises _ => Returns (Some neutral_emotion)
       end.

Definition neutral_sentiment : list (string * json) :=
  [("sentiment_score", JFloat 0); ("sentiment_label", JStr "neutral");
   ("sentiment_confidence", JFloat 0)].

(** [analyze_sentiment] *)
Definition analyze_sentiment (scoring : outcome (list (string * json)))
    : outcome (option (list (string * json))) :=
  match scoring with
  | Returns scores => Returns (Some scores)
  | Raises _ => Returns (Some neutral_sentiment)
  end.

Definition blank_linguistic_features : list (string * json) :=
  [("vocabulary_complexity", JFloat 0); ("sentence_complexity", JFloat 0);
   ("coherence_score", JFloat 0); ("fluency_score", JFloat 0);
   ("word_count", JInt 0); ("sentence_count", JInt 0);
   ("avg_sentence_length", JFloat 0); ("lexical_diversity", JFloat 0)].

Definition failed_linguistic_features : list (string * json) :=
  [("vocabulary_complexity", JFloat 0); ("sentence_complexity", JFloat 0);
   ("coherence_score", JFloat 0); ("fluency_score", JFloat 0)].

(** [analyze_linguistic_features] *)
Definition analyze_linguistic_features (blank : bool)
    (analysis : outcome (list (string * json)))
    : outcome (option (list (string * json))) :=
  if blank then Returns (Some blank_linguistic_features)
  else match analysis with
       | Returns features => Returns (Some features)
       | Raises _ => Returns (Some failed_linguistic_features)
       end.

(** [extract_audio_features_task] *)
Definition extract_audio_features_task (now1 now2 : datetime) (component_id : nat)
    (extraction : outcome (list (string * json))) (st : State)
    : celery_state * State :=
  _run_component_task now1 now2 component_id "Audio feature extraction"
    (analyze_audio_features extraction) st.

(** [analyze_text_emotion_task] *)
Definition analyze_text_emotion_task (now1 now2 : datetime) (component_id : nat)
    (pipeline_loaded blank : bool)
    (classification : outcome (list (string * json))) (st : State)
    : celery_state * State :=
  _run_component_task now1 now2 component_id "Text emotion analysis"
    (analyze_emotion pipeline_loaded blank classification) st.

(** [analyze_linguistic_features_task] *)
Definition analyze_linguistic_features_task (now1 now2 : datetime)
    (component_id : nat) (blank : bool)
    (analysis : outcome (list (string * json))) (st : State)
    : celery_state * State :=
  _run_component_task now1 now2 component_id "Linguistic feature analysis"
    (analyze_linguistic_features blank analysis) st.

(** [transcribe]: [recognition] is what loading the model and running it
    does, the stripped text of the segments or the exception; no word is
    ever appended to [flagged_words]. *)
Definition transcribe (recognition : outcome string)
    : outcome (string * list (string * Q)) :=
  match recognition with
  | Returns text => Returns (text, [])
  | Raises e => Raises e
  end.

(** A list of (word, probability) pairs as a task result. *)
Definition json_of_flagged_words (flagged_words : list (string * Q)) : json :=
  JArr ((λ wp, JArr [JStr wp.1; JFloat wp.2]) <$> flagged_words).

(** [transcribe_audio_task]; [path_exists] is [os.path.exists(audio_file_path)]. *)
Definition transcribe_audio_task (now1 now2 : datetime) (component_id : nat)
    (audio_file_path : string) (path_exists : bool)
    (recognition : outcome string) (st : State) : celery_state * State :=
  let st1 :=
    update_component_task_status_sync now1 component_id PROCESSING
      (Some "Transcription in progress...") None None st in
  let failed (e : string) :=
    let error_msg := "Transcription error: " +:+ e in
    update_component_task_status_sync now2 component_id FAILED
      (Some error_msg) None (Some error_msg) st1 in
  if negb path_exists then
    (SUCCESS, failed ("Audio file not found: " +:+ audio_file_path))
  else
    match transcribe recognition with
    | Returns (transcript, flagged_words) =>
        if truthy_str (Some transcript) then
          (SUCCESS,
           update_component_task_status_sync now2 component_id COMPLETED
             (Some "Transcription complete.")
             (Some [("transcript", JStr transcript);
                    ("flagged_words", json_of_flagged_words flagged_words)])
             None st1)
        else (SUCCESS, failed "Transcription failed: No speech detected.")
    | Raises e => (SUCCESS, failed e)
    end.

(** After the query that saw all components complete, the transcription
    message of ["task-1"] is delivered a second time; the uploaded file is
    no longer there, the task reports the failure, and the next query sees
    it. *)
Definition failed_after_aggregating : State :=
  (get_task_status "task-1" 1%nat
     (transcribe_audio_task 30 31 1%nat "/tmp/audio_task-1_a.wav" false
        (Returns "") aggregating).2).2.

(** [if v:] for a JSON value. *)
Definition py_truthy (v : json) : bool :=
  match v with
  | JNull => false
  | JBool b => b
  | JInt n => negb (n =? 0)
  | JFloat q => negb (Qeq_bool q 0)
  | JStr s => truthy_str (Some s)
  | JArr items => match items with [] => false | _ => true end
  | JObj fields => match fields with [] => false | _ => true end
  end.

(** [get_speech_feedback]: [llm] is what building the prompt and calling
    the model does, reached only with flagged words. *)
Definition get_speech_feedback (flagged_words : json) (llm : outcome string)
    : outcome string :=
  if py_truthy flagged_words then llm
  else Returns "✅ Your speech was clear!".

(** [get_corrected_grammar] *)
Definition get_corrected_grammar (transcript : json) (llm : outcome string)
    : outcome string :=
  if py_truthy transcript then llm
  else Returns "⚠️ No transcript found to correct.".

(** The tasks registered with Celery ([@celery_app.task(name=...)]), each
    with the number of arguments it takes after [self]. *)
Definition registered_tasks : list (string * nat) :=
  [("tasks.component_tasks.transcribe_audio_task", 6%nat);
   ("tasks.component_tasks.audio_features_task", 2%nat);
   ("tasks.component_tasks.emotion_text_task", 2%nat);
   ("tasks.component_tasks.sentiment_text_task", 2%nat);
   ("tasks.component_tasks.linguistic_text_task", 2%nat);
   ("tasks.component_tasks.grammar_task", 4%nat);
   ("tasks.component_tasks.content_comparison_task", 5%nat);
   ("tasks.component_tasks.pronunciation_task", 5%nat);
   ("tasks.component_tasks.create_final_summary_task", 1%nat)].

(** Every stored result is a dictionary: the updater writes [json.dumps] of
    a [dict] and nothing else writes the column. *)
Definition results_are_dicts (st : State) : Prop :=
  ∀ c, c ∈ component_results st →
       c_result c = None ∨ ∃ fields, c_result c = Some (JObj fields).

(** The rows the summariser reads: the COMPLETED components of a parent. *)
Definition completed_components_of (st : State) (parent_task_id : string)
    : list EvaluationComponentResult :=
  filter (λ c, c_status c = COMPLETED)
    (filter (λ c, c_parent_task_id c = parent_task_id) (component_results st)).

(** The state after the summary of ["task-1"] has run on [aggregating]. *)
Definition summarised : State := exec (Summarize 40 "task-1") aggregating.

(** ** The language model client ([llm_engine.py]) and the question
    generator ([grammar_corrector.py], [main.py]) *)

(** [needle in hay] for two strings. *)
Fixpoint is_prefix (needle hay : string) : bool :=
  match needle, hay with
  | EmptyString, _ => true
  | String a n, String b h => bool_decide (a = b) && is_prefix n h
  | String _ _, EmptyString => false
  end.

Fixpoint is_substring (needle hay : string) : bool :=
  is_prefix needle hay
  || match hay with
     | EmptyString => false
     | String _ h => is_substring needle h
     end.

(** [key in v] for a string [key]; [None] when [v] is not a container and
    the test raises [TypeError]. *)
Definition py_in (key : string) (v : json) : option bool :=
  match v with
  | JObj fields => Some (bool_decide (is_Some (dict_lookup key fields)))
  | JArr items =>
      Some (existsb (λ item, match item with
                             | JStr s => bool_decide (s = key)
                             | _ => false
                             end) items)
  | JStr s => Some (is_substring key s)
  | _ => None
  end.

(** What [call_ollama] returns once the request has been answered: the
    value under ["response"], or one of its two messages; [CallFailed]
    stands for the text that starts with "Ollama call failed:" and goes on
    with the text of the exception. *)
Inductive ollama_reply :=
  | Reply (value : json)
  | CouldNotParse
  | CallFailed.

(** The loop of [call_ollama] over the lines of the answer, each given by
    what [json.loads] makes of it ([None]: [JSONDecodeError]). *)
Fixpoint scan_lines (raw_lines : list (option json)) : ollama_reply :=
  match raw_lines with
  | [] => CouldNotParse
  | None :: rest => scan_lines rest
  | Some data :: rest =>
      match py_in "response" data with
      | Some true =>
          match data with
          | JObj fields =>
              match dict_lookup "response" fields with
              | Some value => Reply value
              | None => CallFailed
              end
          | _ => CallFailed
          end
      | Some false => scan_lines rest
      | None => CallFailed
      end
  end.

(** [call_ollama]; [post] is the request: the lines of the answer, or the
    exception of [requests.post], which is outside the [try]. *)
Definition call_ollama (post : outcome (list (option json))) : outcome ollama_reply :=
  match post with
  | Returns raw_lines => Returns (scan_lines raw_lines)
  | Raises e => Raises e
  end.

(** [generate_question_and_answer] from the point where [call_ollama] has
    returned a text: [loaded] is what [json.loads] makes of it ([None]:
    [JSONDecodeError]).  [data.get] on a value that is not a dictionary
    raises, and that exception is not caught. *)
Definition generate_question_and_answer (loaded : option json)
    : outcome (json * json) :=
  match loaded with
  | Some (JObj fields) =>
      Returns (default (JStr "Error: Could not parse question.")
                 (dict_lookup "question" fields),
               default (JStr "Error: Could not parse ideal answer.")
                 (dict_lookup "ideal_answer" fields))
  | Some _ => Raises "AttributeError"
  | None =>
      Returns (JStr "Error: Invalid response format from model.",
               JStr "Could not generate an ideal answer.")
  end.

Inductive QuestionReply :=
  | QuestionResponse (question ideal_answer : string)
  | Question_500.

(** [generate_question]: the test for "Error:" in either text, then the
    validation of the two [str] fields of the response; every exception
    and the [HTTPException] end in the status 500. *)
Definition generate_question (loaded : option json) : QuestionReply :=
  match generate_question_and_answer loaded with
  | Returns (question, ideal_answer) =>
      match py_in "Error:" question with
      | Some true => Question_500
      | Some false =>
          match py_in "Error:" ideal_answer with
          | Some false =>
              match validate_str question, validate_str ideal_answer with
              | Some q, Some a => QuestionResponse q a
              | _, _ => Question_500
              end
          | _ => Question_500
          end
      | None => Question_500
      end
  | Raises _ => Question_500
  end.

(** A line the loop of [call_ollama] passes over: one that does not parse,
    or a container without "response". *)
Definition passed_over (line : option json) : Prop :=
  line = None ∨ ∃ data, line = Some data ∧ py_in "response" data = Some false.

(** ** Accounts and tokens ([security.py], [main.py])

    A token is represented by the claims it carries: [jwt.encode] signs
    them, and [decode_access_token] gives them back, or [None] for a token
    that is malformed, wrongly signed or expired.  The payload handed to an
    endpoint below is what [decode_access_token] returned. *)

Record User := mkUser {
  u_id : nat;
  u_email : string;
  u_full_name : option string;
  u_bio : option string;
  u_avatar_url : option string;
  u_hashed_password : string;
  u_created_at : datetime;
  u_last_login : option datetime;
  u_is_active : bool
}.

(** [d[key] = v] on the items of a dictionary. *)
Fixpoint dict_set (key : string) (v : json) (d : list (string * json))
    : list (string * json) :=
  match d with
  | [] => [(key, v)]
  | (k, w) :: rest =>
      if decide (k = key) then (k, v) :: rest else (k, w) :: dict_set key v rest
  end.

(** [d.update(upd)] *)
Definition dict_update (d upd : list (string * json)) : list (string * json) :=
  foldl (λ acc kv, dict_set kv.1 kv.2 acc) d upd.

(** The lifetime a token gets: [expires_delta] when it is given and not
    zero, else the configured one. *)
Definition token_lifetime (expires_delta : option Z) (configured : Z) : Z :=
  match expires_delta with
  | Some delta => if delta =? 0 then configured else delta
  | None => configured
  end.

(** The claims [create_access_token] encodes; [access_expire] is the
    configured lifetime ([ACCESS_TOKEN_EXPIRE_MINUTES]) and [jti] the fresh
    [uuid4]. *)
Definition create_access_token (data : list (string * json))
    (expires_delta : option Z) (access_expire : Z) (now : datetime) (jti : string)
    : list (string * json) :=
  dict_update data
    [("exp", JInt (now + token_lifetime expires_delta access_expire));
     ("iat", JInt now);
     ("jti", JStr jti)].

(** The claims [create_refresh_token] encodes. *)
Definition create_refresh_token (data : list (string * json))
    (expires_delta : option Z) (refresh_expire : Z) (now : datetime) (jti : string)
    : list (string * json) :=
  dict_update data
    [("exp", JInt (now + token_lifetime expires_delta refresh_expire));
     ("iat", JInt now);
     ("jti", JStr jti);
     ("token_type", JStr "refresh")].

(** [payload.get(key) is None] *)
Definition claim_is_none (payload : list (string * json)) (key : string) : bool :=
  match dict_lookup key payload with
  | None | Some JNull => true
  | Some _ => false
  end.

(** [select(User).where(User.email == email)).first()] *)
Definition find_user (users : list User) (email : string) : option User :=
  find (λ u, bool_decide (u_email u = email)) users.

Inductive AuthReply :=
  | Authenticated (user : User)
  | Tokens (access_token refresh_token : list (string * json))
  | UserRead (user : User)
  | HTTP_400 (detail : string)
  | HTTP_401 (detail : string)
  | Auth_500.

(** The user a ["sub"] claim names.  The database driver refuses a
    parameter that is not a text for the e-mail column: the query raises and
    the request is answered 500. *)
Definition user_of_sub (users : list User) (payload : list (string * json))
    (not_found : string) : AuthReply :=
  match dict_lookup "sub" payload with
  | Some (JStr email) =>
      match find_user users email with
      | Some user => Authenticated user
      | None => HTTP_401 not_found
      end
  | _ => Auth_500
  end.

(** [get_current_user] *)
Definition get_current_user (payload : option (list (string * json)))
    (users : list User) : AuthReply :=
  match payload with
  | None => HTTP_401 "Could not validate credentials"
  | Some claims =>
      if claim_is_none claims "sub" then HTTP_401 "Could not validate credentials"
      else user_of_sub users claims "Could not validate credentials"
  end.

(** The tokens both token endpoints answer with. *)
Definition issue_tokens (access_expire refresh_expire : Z) (now : datetime)
    (jti_access jti_refresh : string) (user : User) : AuthReply :=
  Tokens
    (create_access_token [("sub", JStr (u_email user))] None access_expire now
       jti_access)
    (create_refresh_token [("sub", JStr (u_email user))] None refresh_expire now
       jti_refresh).

(** [refresh_access_token] *)
Definition refresh_access_token (payload : option (list (string * json)))
    (users : list User) (access_expire refresh_expire : Z) (now : datetime)
    (jti_access jti_refresh : string) : AuthReply :=
  match payload with
  | None => HTTP_401 "Invalid refresh token"
  | Some claims =>
      if negb (match dict_lookup "type" claims with
               | Some (JStr t) => bool_decide (t = "refresh")
               | _ => false
               end)
         || claim_is_none claims "sub"
      then HTTP_401 "Invalid refresh token"
      else
        match user_of_sub users claims "User not found" with
        | Authenticated user =>
            issue_tokens access_expire refresh_expire now jti_access jti_refresh
              user
        | reply => reply
        end
  end.

(** [login_for_access_token]; [verify_password] is the check of the
    password library. *)
Definition login_for_access_token (verify_password : string → string → bool)
    (username password : string) (users : list User)
    (access_expire refresh_expire : Z) (now : datetime)
    (jti_access jti_refresh : string) : AuthReply :=
  match find_user users username with
  | None => HTTP_401 "Incorrect username or password"
  | Some user =>
      if verify_password password (u_hashed_password user) then
        issue_tokens access_expire refresh_expire now jti_access jti_refresh user
      else HTTP_401 "Incorrect username or password"
  end.

(** [register_user]; [hashed_password] is [get_password_hash(password)],
    and the database numbers the rows in the order they are added. *)
Definition register_user (now : datetime) (email : string)
    (full_name : option string) (hashed_password : string) (users : list User)
    : AuthReply * list User :=
  match find_user users email with
  | Some _ => (HTTP_400 "Email already registered", users)
  | None =>
      let db_user :=
        {| u_id := S (length users);
           u_email := email;
           u_full_name := full_name;
           u_bio := None;
           u_avatar_url := None;
           u_hashed_password := hashed_password;
           u_created_at := now;
           u_last_login := None;
           u_is_active := true |} in
      (UserRead db_user, users ++ [db_user])
  end.

(** A table with one account, and the password check that accepts its
    password. *)
Definition one_user : list User :=
  (register_user 5 "asha@example.org" (Some "Asha") "$2b$12$hash" []).2.

Definition sample_verify (plain hashed : string) : bool :=
  bool_decide (plain = "secret") && bool_decide (hashed = "$2b$12$hash").

(** ** Reading practice sessions ([main.py]) *)

Inductive SessionResponse :=
  | PracticeSessionRead (session_record : PracticeSession)
  | Session_404.

(** [get_session_details]: the rows with this key that belong to the
    caller, [.first()] of them. *)
Definition get_session_details (session_id user_id : nat) (st : State)
    : SessionResponse :=
  match find (λ s, bool_decide (ps_id s = session_id)
                   && bool_decide (ps_user_id s = Some user_id))
          (practice_sessions st) with
  | Some session_record => PracticeSessionRead session_record
  | None => Session_404
  end.

(** [order_by(PracticeSession.created_at.desc())] *)
Definition newer_first (s1 s2 : PracticeSession) : Prop :=
  ps_created_at s2 ≤ ps_created_at s1.

#[global] Instance newer_first_dec : RelDecision newer_first :=
  λ s1 s2, decide (ps_created_at s2 ≤ ps_created_at s1).

(** [read_user_history]: the caller's sessions, newest first; the order of
    sessions created at the same time is the database's, here the one of a
    merge sort. *)
Definition read_user_history (user_id : nat) (st : State) : list PracticeSession :=
  merge_sort newer_first
    (filter (λ s, ps_user_id s = Some user_id) (practice_sessions st)).

(** The [task_id] of a parent row and the user it belongs to. *)
Definition owner_of (t : BackgroundTask) : string * nat :=
  (bt_task_id t, bt_user_id t).

Definition owners (st : State) : list (string * nat) :=
  owner_of <$> background_tasks st.

(** The practice sessions are numbered in the order they were added, and
    each belongs to the user of its parent row. *)
Definition sessions_owned (st : State) : Prop :=
  ps_id <$> practice_sessions st = seq 1 (length (practice_sessions st))
  ∧ ∀ s, s ∈ practice_sessions st →
      ∃ user_id, ps_user_id s = Some user_id
                 ∧ (ps_parent_task_id s, user_id) ∈ owners st.

(** Among [ops] there is a submission of [task_id] by [user_id]. *)
Definition submitted_by (ops : list op) (task_id : string) (user_id : nat) : Prop :=
  ∃ now temp_audio_path topic difficulty question ideal_answer model,
    Submit now user_id task_id temp_audio_path topic difficulty question
      ideal_answer model ∈ ops.

(** The whole run of ["task-1"], its summary included. *)
Definition ops_until_summarised : list op :=
  ops_until_aggregating ++ [Summarize 40 "task-1"].

(** ** Bookings ([database.py], [tasks/notification.py]) *)

Module booking.

Inductive BookingStatus := SCHEDULED | COMPLETED | CANCELLED | NO_SHOW.

Inductive SessionType := PRACTICE | INTERVIEW | EVALUATION | CONSULTATION.

#[global] Instance BookingStatus_eq_dec : EqDecision BookingStatus.
Proof. solve_decision. Defined.

Record BookingSlot := mkBooking {
  b_id : nat;
  b_user_id : nat;
  b_scheduled_time : datetime;
  b_duration_minutes : Z;
  b_session_type : SessionType;
  b_status : BookingStatus;
  b_topic : option string;
  b_notes : option string;
  b_created_at : datetime;
  b_updated_at : datetime
}.

(** The [where] clause of [cleanup_expired_bookings]. *)
Definition expired (now : datetime) (b : BookingSlot) : bool :=
  bool_decide (b_scheduled_time b < now) && bool_decide (b_status b = SCHEDULED).

(** The body of its loop. *)
Definition mark_no_show (now : datetime) (b : BookingSlot) : BookingSlot :=
  {| b_id := b_id b; b_user_id := b_user_id b;
     b_scheduled_time := b_scheduled_time b;
     b_duration_minutes := b_duration_minutes b;
     b_session_type := b_session_type b;
     b_status := NO_SHOW;
     b_topic := b_topic b; b_notes := b_notes b;
     b_created_at := b_created_at b;
     b_updated_at := now |}.

(** [cleanup_expired_bookings], on the table of bookings; [now] is
    [datetime.utcnow()]. *)
Definition cleanup_expired_bookings (now : datetime) (bookings : list BookingSlot)
    : list BookingSlot :=
  (λ b, if expired now b then mark_no_show now b else b) <$> bookings.

(** The number it logs, [len(expired_bookings)]. *)
Definition count_expired (now : datetime) (bookings : list BookingSlot) : nat :=
  length (filter (λ b, expired now b = true) bookings).

(** [send_booking_reminder]: what each line it logs is formatted from, the
    e-mail address, the kind of session and its time, for the SCHEDULED
    bookings of the next [day] (24 hours), joined with their users. *)
Definition send_booking_reminder (day : Z) (now : datetime)
    (bookings : list BookingSlot) (users : list User)
    : list (string * SessionType * datetime) :=
  b ← bookings;
  user ← users;
  if bool_decide (b_user_id b = u_id user)
     && bool_decide (now ≤ b_scheduled_time b ≤ now + day)
     && bool_decide (b_status b = SCHEDULED)
  then [(u_email user, b_session_type b, b_scheduled_time b)]
  else [].

End booking.

(** ** The single-task evaluation ([tasks/speech_evaluation.py]) *)

(** [update_task_status]: the row found under the [task_id], if there is
    one, gets the status and the progress; a message, a result and an error
    are written when they are given and not empty, the result and the error
    each with a message of its own that replaces the one given. *)
Definition update_task_status (now : datetime) (task_id : string)
    (status : TaskStatus) (progress : Z) (status_message : option string)
    (result : option (list (string * json))) (error : option string)
    (st : State) : State :=
  match find_task st task_id with
  | Some task =>
      let message :=
        if truthy_str status_message then status_message
        else bt_status_message task in
      let message :=
        if truthy_dict result then Some "Evaluation complete. Results ready."
        else message in
      let message :=
        if truthy_str error then Some ("Task failed: " +:+ default "" error)
        else message in
      commit_task
        {| bt_id := bt_id task; bt_user_id := bt_user_id task;
           bt_task_id := bt_task_id task; bt_task_type := bt_task_type task;
           bt_topic := bt_topic task; bt_difficulty := bt_difficulty task;
           bt_question := bt_question task;
           bt_ideal_answer := bt_ideal_answer task; bt_model := bt_model task;
           bt_status := status;
           bt_progress := progress;
           bt_status_message := message;
           bt_result := if truthy_dict result then JObj <$> result
                        else bt_result task;
           bt_error_message := if truthy_str error then error
                               else bt_error_message task;
           bt_created_at := bt_created_at task;
           bt_updated_at := now;
           bt_completed_at :=
             if bool_decide (status ∈ [COMPLETED; FAILED]) then Some now
             else bt_completed_at task |} st
  | None => st
  end.

(** The [except] branch of [evaluate_speech_background]; [e] is [str(e)]. *)
Definition evaluation_failed (now : datetime) (task_id e : string) (st : State)
    : list (string * json) * State :=
  let error_msg := "Error in speech evaluation: " +:+ e in
  ([("error", JStr error_msg)],
   update_task_status now task_id FAILED 0
     (Some ("Evaluation failed: " +:+ error_msg)) None (Some error_msg) st).

(** [compare_answers(transcript, ideal_answer, model=model)]: the function
    has the three required parameters [user_answer], [ideal_answer] and
    [question], the call binds the first two, and Python raises this
    [TypeError] before the body runs. *)
Definition compare_answers_call : outcome string :=
  Raises "compare_answers() missing 1 required positional argument: 'question'".

(** [evaluate_speech_background]: [task_id] is [self.request.id], [clock k]
    the time of the status update number [k], [recognition], [grammar_llm]
    and [feedback_llm] what the speech recogniser and the two calls of the
    language model do.  The steps after the comparison are given by
    [continue]; the call of [compare_answers] never returns to them. *)
Definition evaluate_speech_background (clock : nat → datetime) (task_id : string)
    (recognition grammar_llm feedback_llm : outcome string)
    (continue : string → State → list (string * json) * State) (st : State)
    : list (string * json) * State :=
  let st := update_task_status (clock 0%nat) task_id PROCESSING 10
              (Some "Initializing evaluation...") None None st in
  let st := update_task_status (clock 1%nat) task_id PROCESSING 20
              (Some "Transcribing audio...") None None st in
  match transcribe recognition with
  | Raises e => evaluation_failed (clock 2%nat) task_id e st
  | Returns (transcript, flagged_words) =>
      if negb (truthy_str (Some transcript)) then
        ([("error", JStr "No speech detected in audio")],
         update_task_status (clock 2%nat) task_id FAILED 0
           (Some "Transcription failed: No speech detected.") None
           (Some "No speech detected in audio") st)
      else
        let st := update_task_status (clock 2%nat) task_id PROCESSING 30
                    (Some "Audio transcribed. Analyzing grammar...") None None
                    st in
        match get_corrected_grammar (JStr transcript) grammar_llm with
        | Raises e => evaluation_failed (clock 3%nat) task_id e st
        | Returns grammar_output =>
            let st := update_task_status (clock 3%nat) task_id PROCESSING 50
                        (Some "Grammar analyzed. Assessing pronunciation...")
                        None None st in
            match get_speech_feedback (json_of_flagged_words flagged_words)
                    feedback_llm with
            | Raises e => evaluation_failed (clock 4%nat) task_id e st
            | Returns feedback_output =>
                let st := update_task_status (clock 4%nat) task_id PROCESSING 60
                            (Some "Pronunciation assessed. Evaluating content...")
                            None None st in
                match compare_answers_call with
                | Raises e => evaluation_failed (clock 5%nat) task_id e st
                | Returns comparison_output => continue comparison_output st
                end
            end
        end
  end.

(** What a failure report under [task_id] with the text [msg] leaves of a
    state [st]. *)
Definition failure_recorded (task_id msg : string) (st st' : State) : Prop :=
  practice_sessions st' = practice_sessions st
  ∧ component_results st' = component_results st
  ∧ broker st' = broker st
  ∧ (find_task st task_id = None → st' = st)
  ∧ ∀ p, find_task st task_id = Some p →
      ∃ p' now,
        find_task st' task_id = Some p'
        ∧ bt_user_id p' = bt_user_id p
        ∧ bt_status p' = FAILED
        ∧ bt_progress p' = 0
        ∧ bt_error_message p' = Some msg
        ∧ bt_status_message p' = Some ("Task failed: " +:+ msg)
        ∧ bt_completed_at p' = Some now
        ∧ bt_result p' = bt_result p.

(** ** Submissions that raise ([main.py], [evaluate_speech_async])

    The handler commits three times: the parent row as PENDING, the eight
    component rows, and the parent as PROCESSING after the two messages of
    the first wave went out.  When a statement raises, the [except] branch
    answers 500 and what was committed stays. *)
Inductive submit_failure :=
  | NothingStored
  | ParentStored
  | RowsStored (sent : nat)
  | AllStored.

(** The parent row as [BackgroundTask.from_orm] builds it and the first
    commit stores it. *)
Definition pending_parent (now : datetime) (user_id : nat)
    (parent_task_id topic difficulty question ideal_answer model : string)
    (st : State) : BackgroundTask :=
  {| bt_id := S (length (background_tasks st));
     bt_user_id := user_id;
     bt_task_id := parent_task_id;
     bt_task_type := "master_speech_evaluation";
     bt_topic := Some topic;
     bt_difficulty := Some difficulty;
     bt_question := Some question;
     bt_ideal_answer := Some ideal_answer;
     bt_model := Some model;
     bt_status := PENDING;
     bt_progress := 0;
     bt_status_message := Some "Task submitted...";
     bt_result := None;
     bt_error_message := None;
     bt_created_at := now;
     bt_updated_at := now;
     bt_completed_at := None |}.

(** The state a submission leaves that raises: before the first commit
    went through ([NothingStored], also when the [task_id] is taken), before
    the second ([ParentStored]), in the loop over the rows or at the third
    commit, after [sent] messages ([RowsStored], at most the two of the
    wave), or at the last refresh ([AllStored]). *)
Definition evaluate_speech_async_raises (failure : submit_failure) (now : datetime)
    (user_id : nat)
    (parent_task_id temp_audio_path topic difficulty question ideal_answer model : string)
    (st : State) : State :=
  if bool_decide (parent_task_id ∈ bt_task_id <$> background_tasks st) then st
  else
    let parent_task :=
      pending_parent now user_id parent_task_id topic difficulty question
        ideal_answer model st in
    let component_entries :=
      imap (λ i comp_type,
              new_component now parent_task_id
                (S (length (component_results st) + i)) comp_type)
        all_component_types in
    match failure with
    | NothingStored => st
    | ParentStored =>
        {| background_tasks := background_tasks st ++ [parent_task];
           component_results := component_results st;
           practice_sessions := practice_sessions st;
           broker := broker st |}
    | RowsStored sent =>
        {| background_tasks := background_tasks st ++ [parent_task];
           component_results := component_results st ++ component_entries;
           practice_sessions := practice_sessions st;
           broker := broker st
                     ++ take sent
                          (wave1_jobs temp_audio_path parent_task_id question
                             ideal_answer model component_entries) |}
    | AllStored =>
        (evaluate_speech_async now user_id parent_task_id temp_audio_path topic
           difficulty question ideal_answer model st).2
    end.

(** The operations, with the submissions that raise. *)
Inductive step :=
  | Whole (o : op)
  | Raising (failure : submit_failure) (now : datetime) (user_id : nat)
      (parent_task_id temp_audio_path topic difficulty question ideal_answer
         model : string).

Definition exec_step (s : step) (st : State) : State :=
  match s with
  | Whole o => exec o st
  | Raising failure now user_id parent_task_id temp_audio_path topic difficulty
      question ideal_answer model =>
      evaluate_speech_async_raises failure now user_id parent_task_id
        temp_audio_path topic difficulty question ideal_answer model st
  end.

Definition run_steps (steps : list step) (st : State) : State :=
  foldl (λ st s, exec_step s st) st steps.

(** The kinds of the component rows of a task, in the order of the table. *)
Definition kinds_of (st : State) (task_id : string)
    : list EvaluationComponentType :=
  c_component_type
    <$> filter (λ c, c_parent_task_id c = task_id) (component_results st).

(** What holds of the tables whether or not submissions raise: the keys
    count the rows, no two parents share a [task_id], every component row
    belongs to a parent, a parent that is no longer PENDING has one component
    row of each kind, and a final-summary message names a parent that is no
    longer PENDING. *)
Definition rows_inv (st : State) : Prop :=
  bt_id <$> background_tasks st = seq 1 (length (background_tasks st))
  ∧ c_id <$> component_results st = seq 1 (length (component_results st))
  ∧ NoDup (bt_task_id <$> background_tasks st)
  ∧ (∀ c, c ∈ component_results st →
       c_parent_task_id c ∈ bt_task_id <$> background_tasks st)
  ∧ (∀ t, t ∈ background_tasks st → bt_status t ≠ PENDING →
       kinds_of st (bt_task_id t) = all_component_types)
  ∧ (∀ j task_id, j ∈ broker st → is_final_summary_job task_id j = true →
       ∃ t, t ∈ background_tasks st ∧ bt_task_id t = task_id
            ∧ bt_status t ≠ PENDING).

(** A submission that stored only its parent, one that raised after the
    first message, and a submission that went through. *)
Definition steps_with_failures : list step :=
  [Raising ParentStored 8 2%nat "task-8" "/tmp/audio_task-8_b.wav" "food" "easy"
     "What do you cook?" "I cook rice." "mistral:latest";
   Raising (RowsStored 1) 9 2%nat "task-9" "/tmp/audio_task-9_b.wav" "food" "easy"
     "What do you cook?" "I cook rice." "mistral:latest";
   Whole (Submit 10 1%nat "task-1" "/tmp/audio_task-1_a.wav" "travel" "easy"
            "Describe your last trip." "I went to the sea." "mistral:latest");
   Whole (GetStatus "task-9" 2%nat);
   Whole (GetStatus "task-1" 1%nat)].

(** * Properties *)

(** ** The status updater *)

Section updater.
Implicit Types (st : State) (c row : EvaluationComponentResult).

Lemma update_component_entry_id now status msg result error c :
  c_id (update_component_entry now status msg result error c) = c_id c.
Proof. done. Qed.

Lemma find_component_id (l : list EvaluationComponentResult) cid c :
  find (λ c, bool_decide (c_id c = cid)) l = Some c → c_id c = cid.
Proof.
  induction l as [|x l IH]; simpl; [done|].
  case_bool_decide; [intros [= <-]; done | done].
Qed.

Lemma get_component_id st cid c : get_component st cid = Some c → c_id c = cid.
Proof. apply find_component_id. Qed.

(** After the commit of a row, [session.get] of its key returns it, when
    the key is in the table. *)
Lemma get_component_commit st row c :
  get_component st (c_id row) = Some c →
  get_component (commit_component row st) (c_id row) = Some row.
Proof.
  unfold get_component, commit_component; simpl.
  induction (component_results st) as [|x l IH]; simpl; [done|].
  destruct (decide (c_id x = c_id row)) as [Heq|Hne].
  - rewrite (bool_decide_eq_true_2 (c_id x = c_id row)) by done. simpl.
    by rewrite bool_decide_eq_true_2.
  - rewrite (bool_decide_eq_false_2 (c_id x = c_id row)) by done. simpl.
    by rewrite (bool_decide_eq_false_2 (c_id x = c_id row)).
Qed.

(** A commit of a key that is not in the table changes nothing. *)
Lemma commit_component_absent st row :
  get_component st (c_id row) = None → commit_component row st = st.
Proof.
  unfold get_component, commit_component. destruct st as [ts cs ps b]; simpl.
  intros Hnone. f_equal.
  induction cs as [|x l IH]; simpl in *; [done|].
  case_bool_decide; [done|]. f_equal. by apply IH.
Qed.

(** Two commits of rows with the same key: the second one stays. *)
Lemma commit_component_twice st row1 row2 :
  c_id row1 = c_id row2 →
  commit_component row2 (commit_component row1 st) = commit_component row2 st.
Proof.
  intros Hid. unfold commit_component; simpl. f_equal.
  rewrite <- list_fmap_compose. apply list_fmap_ext. intros i x _. simpl.
  destruct (decide (c_id x = c_id row1)) as [Heq|Hne].
  - rewrite (bool_decide_eq_true_2 (c_id x = c_id row1)) by done.
    rewrite !bool_decide_eq_true_2; congruence.
  - rewrite (bool_decide_eq_false_2 (c_id x = c_id row1)) by done. done.
Qed.

(** A second report with the same arguments overwrites what the first
    one wrote. *)
Lemma update_component_entry_twice now1 now2 status msg result error c :
  update_component_entry now2 status msg result error
    (update_component_entry now1 status msg result error c)
  = update_component_entry now2 status msg result error c.
Proof.
  unfold update_component_entry; simpl. f_equal.
  - by destruct (truthy_str msg).
  - by destruct (truthy_dict result).
  - by destruct (truthy_str error).
  - by case_bool_decide.
Qed.

(** What a report does to the row it names. *)
Lemma update_component_task_status_sync_get now cid status msg result error st c :
  get_component st cid = Some c →
  get_component
    (update_component_task_status_sync now cid status msg result error st) cid
  = Some (update_component_entry now status msg result error c).
Proof.
  intros Hget. unfold update_component_task_status_sync. rewrite Hget.
  pose proof (get_component_id _ _ _ Hget) as Hid. subst cid.
  exact (get_component_commit st
           (update_component_entry now status msg result error c) c Hget).
Qed.
End updater.

(** C4, as the specification states it, fails: a COMPLETED component that
    is reported PROCESSING is PROCESSING again, and a second terminal
    report moves its [completed_at]. *)
Lemma terminal_report_not_final :
  ¬ (∀ st cid c now status msg result error c',
       get_component st cid = Some c →
       c_status c ∈ [COMPLETED; FAILED] →
       get_component
         (update_component_task_status_sync now cid status msg result error st) cid
       = Some c' →
       c_status c' ≠ PROCESSING)
  ∧ ¬ (∀ st cid c now status msg result error c',
         get_component st cid = Some c →
         c_status c ∈ [COMPLETED; FAILED] →
         get_component
           (update_component_task_status_sync now cid status msg result error st) cid
         = Some c' →
         c_completed_at c' = c_completed_at c).
Proof.
  split; intros H.
  - apply (H finished_state 1%nat finished_component 9 PROCESSING
             (Some "Grammar evaluation...") None None
             (update_component_entry 9 PROCESSING (Some "Grammar evaluation...")
                None None finished_component));
      [reflexivity | by constructor | reflexivity | reflexivity].
  - discriminate
      (H finished_state 1%nat finished_component 9 COMPLETED
         (Some "Analysis complete.") None None
         (update_component_entry 9 COMPLETED (Some "Analysis complete.")
            None None finished_component)
         eq_refl ltac:(by constructor) eq_refl).
Qed.

(** C4, amended: a report stores the reported status whatever the row held
    before, so a terminal row that is reported PROCESSING is PROCESSING
    again; [completed_at] is set to the time of the report by every report
    of a terminal status, the first as well as any later one, and is kept
    by a report of a status that is not terminal. *)
Theorem report_overwrites_status now cid status msg result error st c :
  get_component st cid = Some c →
  ∃ c',
    get_component
      (update_component_task_status_sync now cid status msg result error st) cid
    = Some c'
    ∧ c_status c' = status
    ∧ c_completed_at c' =
        (if bool_decide (status ∈ [COMPLETED; FAILED]) then Some now
         else c_completed_at c).
Proof.
  intros Hget. eexists. split.
  - by apply update_component_task_status_sync_get.
  - done.
Qed.

Lemma report_overwrites_status_witness :
  ∃ c',
    get_component
      (update_component_task_status_sync 9 1%nat FAILED (Some "late") None
         (Some "late") finished_state) 1%nat
    = Some c'
    ∧ c_status c' = FAILED
    ∧ c_completed_at c' =
        (if bool_decide (FAILED ∈ [COMPLETED; FAILED]) then Some 9
         else c_completed_at finished_component).
Proof.
  apply (report_overwrites_status 9 1%nat FAILED (Some "late") None (Some "late")
           finished_state finished_component).
  reflexivity.
Defined.

(** C5, as the specification states it, fails: the second of two equal
    terminal reports is made at a later time, so the state after both is not
    the state after the first, and the row shows another [completed_at]. *)
Lemma repeated_report_differs :
  ¬ (∀ st now1 now2 cid status msg result error,
       status ∈ [COMPLETED; FAILED] →
       update_component_task_status_sync now2 cid status msg result error
         (update_component_task_status_sync now1 cid status msg result error st)
       = update_component_task_status_sync now1 cid status msg result error st)
  ∧ ¬ (∀ st now1 now2 cid status msg result error,
         status ∈ [COMPLETED; FAILED] →
         c_completed_at <$>
           get_component
             (update_component_task_status_sync now2 cid status msg result error
                (update_component_task_status_sync now1 cid status msg result
                   error st)) cid
         = c_completed_at <$>
             get_component
               (update_component_task_status_sync now1 cid status msg result
                  error st) cid).
Proof.
  split; intros H.
  - specialize (H finished_state 8 9 1%nat COMPLETED (Some "Analysis complete.")
                  None None ltac:(by constructor)).
    discriminate H.
  - specialize (H finished_state 8 9 1%nat COMPLETED (Some "Analysis complete.")
                  None None ltac:(by constructor)).
    discriminate H.
Qed.

(** C5, amended: two reports in a row with the same status, message,
    result and error leave the state that the second report alone would
    leave: every column of the row is as after one report, with
    [updated_at], and [completed_at] for a terminal status, showing the time
    of the second report. *)
Theorem repeated_report_absorbed now1 now2 cid status msg result error st :
  update_component_task_status_sync now2 cid status msg result error
    (update_component_task_status_sync now1 cid status msg result error st)
  = update_component_task_status_sync now2 cid status msg result error st.
Proof.
  destruct (get_component st cid) as [c|] eqn:Hget.
  - unfold update_component_task_status_sync at 1.
    rewrite (update_component_task_status_sync_get _ _ _ _ _ _ _ _ Hget).
    unfold update_component_task_status_sync. rewrite Hget.
    rewrite update_component_entry_twice.
    by apply commit_component_twice.
  - unfold update_component_task_status_sync. by rewrite Hget, Hget.
Qed.

(** ** The component statuses and their counts *)

Section statuses.
Implicit Types (m : gmap EvaluationComponentType TaskStatus)
  (components : list EvaluationComponentResult).

Lemma elem_of_all_component_types (k : EvaluationComponentType) :
  k ∈ all_component_types.
Proof. apply list_elem_of_lookup. exists (component_index k). by destruct k. Qed.

Lemma NoDup_all_component_types : NoDup all_component_types.
Proof. compute_done. Qed.

(** A dictionary keyed by component kinds has at most eight entries. *)
Lemma statuses_size_le {A} (d : gmap EvaluationComponentType A) :
  (size d ≤ len_EvaluationComponentType)%nat.
Proof.
  rewrite <- (size_dom (D:=gset EvaluationComponentType)).
  unfold len_EvaluationComponentType.
  rewrite <- (size_list_to_set (C:=gset EvaluationComponentType))
    by apply NoDup_all_component_types.
  apply subseteq_size. intros k _.
  apply elem_of_list_to_set, elem_of_all_component_types.
Qed.

Lemma statuses_size_lt {A} (d : gmap EvaluationComponentType A) k :
  d !! k = None → (size d < len_EvaluationComponentType)%nat.
Proof.
  intros Hk. pose proof (statuses_size_le (<[k:=()]> ((λ _, ()) <$> d))) as Hle.
  rewrite map_size_insert_None in Hle by (by rewrite lookup_fmap, Hk).
  rewrite map_size_fmap in Hle. lia.
Qed.

Lemma count_status_le s m : (count_status s m ≤ len_EvaluationComponentType)%nat.
Proof. apply statuses_size_le. Qed.

(** A kind that is not in status [s] keeps the count of [s] under eight. *)
Lemma count_status_lt s m k :
  m !! k ≠ Some s → (count_status s m < len_EvaluationComponentType)%nat.
Proof.
  intros Hk. apply statuses_size_lt with k.
  apply map_lookup_filter_None. destruct (m !! k) as [s'|] eqn:Hm; [right|by left].
  intros x [= ->]. simpl. congruence.
Qed.

Lemma count_status_pos s m k : m !! k = Some s → (0 < count_status s m)%nat.
Proof.
  intros Hk. unfold count_status.
  assert (size (filter (λ kv : EvaluationComponentType * TaskStatus, kv.2 = s) m) ≠ 0%nat)
    as Hne; [|lia].
  apply map_size_ne_0_lookup. exists k. exists s.
  by apply map_lookup_filter_Some.
Qed.

Lemma count_status_pos_inv s m :
  (0 < count_status s m)%nat → ∃ k, m !! k = Some s.
Proof.
  unfold count_status. intros Hpos.
  assert (size (filter (λ kv : EvaluationComponentType * TaskStatus, kv.2 = s) m) ≠ 0%nat)
    as Hne by lia.
  apply map_size_ne_0_lookup in Hne as [k [s' Hk]].
  apply map_lookup_filter_Some in Hk as [Hk Hs]. simpl in Hs. subst s'. eauto.
Qed.

Lemma component_statuses_snoc components c :
  component_statuses (components ++ [c])
  = <[c_component_type c := c_status c]> (component_statuses components).
Proof. unfold component_statuses. by rewrite foldl_snoc. Qed.

(** With one row per kind, the dictionary holds the status of each row. *)
Lemma component_statuses_lookup components c :
  NoDup (c_component_type <$> components) →
  c ∈ components →
  component_statuses components !! c_component_type c = Some (c_status c).
Proof.
  induction components as [|x l IH] using rev_ind; [by intros _ ?%elem_of_nil|].
  rewrite fmap_app, NoDup_app, component_statuses_snoc. simpl.
  intros (Hl & Hdisj & _) [Hin | ->%list_elem_of_singleton]%elem_of_app.
  - rewrite lookup_insert_ne; [by apply IH|].
    intros Heq. apply (Hdisj (c_component_type c)).
    + apply list_elem_of_fmap. eauto.
    + rewrite Heq. by constructor.
  - by rewrite lookup_insert_eq.
Qed.

(** The dictionary holds a kind only with the status of one of the rows. *)
Lemma component_statuses_elem components k s :
  component_statuses components !! k = Some s →
  ∃ c, c ∈ components ∧ c_component_type c = k ∧ c_status c = s.
Proof.
  induction components as [|x l IH] using rev_ind; [done|].
  rewrite component_statuses_snoc.
  destruct (decide (c_component_type x = k)) as [<-|Hne].
  - rewrite lookup_insert_eq. intros [= <-]. exists x. set_solver.
  - rewrite lookup_insert_ne by done. intros (c & ? & ? & ?)%IH.
    exists c. set_solver.
Qed.
End statuses.

(** ** The order of the branches of the evaluator *)

Section evaluator.
Implicit Types (parent_task : BackgroundTask)
  (components : list EvaluationComponentResult).

Lemma stage2_due_test parent_task components :
  bool_decide (component_statuses components !! TRANSCRIPTION = Some COMPLETED)
  && bool_decide (component_statuses components !! AUDIO_FEATURES = Some COMPLETED)
  && negb (truthy_col (bt_result parent_task)) = true
  ↔ stage2_due parent_task components.
Proof.
  unfold stage2_due. rewrite !andb_true_iff, !bool_decide_eq_true.
  destruct (bt_result parent_task); simpl; intuition congruence.
Qed.

Lemma evaluate_failed parent_task components :
  any_failed components →
  evaluate_components parent_task components
  = Some (set_failed "One or more evaluation components failed." parent_task, []).
Proof.
  intros Hf. unfold evaluate_components. by rewrite bool_decide_eq_true_2.
Qed.

Lemma evaluate_stage2 parent_task components :
  ¬ any_failed components → stage2_due parent_task components →
  evaluate_components parent_task components
  = dispatch_text_tasks parent_task components.
Proof.
  intros Hf Hs. unfold evaluate_components.
  rewrite bool_decide_eq_false_2 by done.
  apply stage2_due_test in Hs. by rewrite Hs.
Qed.

Lemma evaluate_all_complete parent_task components :
  ¬ any_failed components → ¬ stage2_due parent_task components →
  all_complete components →
  evaluate_components parent_task components
  = Some (set_progress 95 "All components complete. Aggregating final results..."
            parent_task,
          [final_summary_job (bt_task_id parent_task)]).
Proof.
  intros Hf Hs Ha. unfold evaluate_components.
  rewrite bool_decide_eq_false_2 by done.
  rewrite <- stage2_due_test in Hs. apply not_true_is_false in Hs. rewrite Hs.
  by rewrite bool_decide_eq_true_2.
Qed.

Lemma evaluate_partial parent_task components :
  ¬ any_failed components → ¬ stage2_due parent_task components →
  ¬ all_complete components →
  evaluate_components parent_task components
  = Some (set_progress
            (partial_progress (count_status COMPLETED (component_statuses components)))
            (partial_message (count_status COMPLETED (component_statuses components)))
            parent_task, []).
Proof.
  intros Hf Hs Ha. unfold evaluate_components.
  rewrite bool_decide_eq_false_2 by done.
  rewrite <- stage2_due_test in Hs. apply not_true_is_false in Hs. rewrite Hs.
  by rewrite bool_decide_eq_false_2.
Qed.

Lemma any_failed_of_row components c :
  NoDup (c_component_type <$> components) →
  c ∈ components → c_status c = FAILED → any_failed components.
Proof.
  intros Hnd Hin Hst. apply count_status_pos with (c_component_type c).
  rewrite <- Hst. by apply component_statuses_lookup.
Qed.
End evaluator.

(** C2: on the rows it holds for a PROCESSING parent the evaluator takes one
    branch, and it tries them in this order: a failed component first, then
    the dispatch of the second wave, then the completion of all components,
    then the partial progress.  In particular rows with a FAILED component,
    both wave-1 kinds COMPLETED and the second wave not yet dispatched make
    the parent FAILED, and no message is sent. *)
Theorem evaluation_branch_order parent_task components :
  (any_failed components →
     evaluate_components parent_task components
     = Some (set_failed "One or more evaluation components failed." parent_task, []))
  ∧ (¬ any_failed components → stage2_due parent_task components →
       evaluate_components parent_task components
       = dispatch_text_tasks parent_task components)
  ∧ (¬ any_failed components → ¬ stage2_due parent_task components →
       all_complete components →
       evaluate_components parent_task components
       = Some (set_progress 95
                 "All components complete. Aggregating final results..." parent_task,
               [final_summary_job (bt_task_id parent_task)]))
  ∧ (¬ any_failed components → ¬ stage2_due parent_task components →
       ¬ all_complete components →
       evaluate_components parent_task components
       = Some (set_progress
                 (partial_progress
                    (count_status COMPLETED (component_statuses components)))
                 (partial_message
                    (count_status COMPLETED (component_statuses components)))
                 parent_task, []))
  ∧ (∀ c, NoDup (c_component_type <$> components) →
       c ∈ components → c_status c = FAILED →
       stage2_due parent_task components →
       ∃ parent_task',
         evaluate_components parent_task components = Some (parent_task', [])
         ∧ bt_status parent_task' = FAILED
         ∧ bt_error_message parent_task'
           = Some "One or more evaluation components failed."
         ∧ bt_result parent_task' = None).
Proof.
  split_and!.
  - apply evaluate_failed.
  - apply evaluate_stage2.
  - apply evaluate_all_complete.
  - apply evaluate_partial.
  - intros c Hnd Hin Hst (_ & _ & Hres). eexists. split.
    + apply evaluate_failed. by apply any_failed_of_row with c.
    + by simpl.
Qed.

Lemma evaluation_branch_order_witness :
  ∃ parent_task',
    evaluate_components (parent_of wave1_done_grammar_failed)
      (components_of wave1_done_grammar_failed) = Some (parent_task', [])
    ∧ bt_status parent_task' = FAILED
    ∧ bt_error_message parent_task'
      = Some "One or more evaluation components failed."
    ∧ bt_result parent_task' = None.
Proof.
  destruct (evaluation_branch_order (parent_of wave1_done_grammar_failed)
              (components_of wave1_done_grammar_failed))
    as (_ & _ & _ & _ & H).
  apply (H (mkComponent 6 "task-1" GRAMMAR FAILED
              (Some "Grammar evaluation error: timeout") None
              (Some "Grammar evaluation error: timeout") 10 15 (Some 15))).
  - compute_done.
  - apply list_elem_of_lookup. exists 5%nat. reflexivity.
  - reflexivity.
  - repeat split; reflexivity.
Defined.

(** C8: when both wave-1 kinds are COMPLETED and the second wave is not yet
    dispatched, the evaluator reads the transcript and the flagged words
    from the result of the transcription row and sends the second wave
    with them; when that result is absent it sends nothing and makes the
    parent FAILED with the message "Transcription result not found.". *)
Theorem stage2_needs_transcription_result parent_task components :
  ¬ any_failed components →
  stage2_due parent_task components →
  (∀ transcription_comp fields,
     transcription_comp_of components = Some transcription_comp →
     c_result transcription_comp = Some (JObj fields) →
     evaluate_components parent_task components
     = Some (set_dispatched parent_task,
             text_job parent_task
               (default JNull (dict_lookup "transcript" fields))
               (default JNull (dict_lookup "flagged_words" fields))
               <$> text_components components))
  ∧ (transcription_comp_of components ≫= c_result = None →
     ∃ parent_task',
       evaluate_components parent_task components = Some (parent_task', [])
       ∧ bt_status parent_task' = FAILED
       ∧ bt_error_message parent_task' = Some "Transcription result not found."
       ∧ bt_result parent_task' = None).
Proof.
  intros Hf Hs. rewrite (evaluate_stage2 _ _ Hf Hs).
  unfold dispatch_text_tasks, transcription_comp_of. split.
  - intros tc fields -> Hres. simpl. by rewrite Hres.
  - intros ->. destruct Hs as (_ & _ & Hres). eexists. split; [done|].
    by simpl.
Qed.

Lemma stage2_needs_transcription_result_witness :
  evaluate_components (parent_of wave1_done) (components_of wave1_done)
  = Some (set_dispatched (parent_of wave1_done),
          text_job (parent_of wave1_done) (JStr "the quick brown fox") (JArr [])
            <$> text_components (components_of wave1_done)).
Proof.
  refine (proj1 (stage2_needs_transcription_result (parent_of wave1_done)
                   (components_of wave1_done) _ _)
            (mkComponent 1 "task-1" TRANSCRIPTION COMPLETED
               (Some "Transcription complete.")
               (Some (JObj [("transcript", JStr "the quick brown fox");
                            ("flagged_words", JArr [])]))
               None 10 13 (Some 13))
            [("transcript", JStr "the quick brown fox"); ("flagged_words", JArr [])]
            _ _).
  - unfold any_failed. vm_compute. lia.
  - repeat split; reflexivity.
  - reflexivity.
  - reflexivity.
Defined.

(** ** Component tasks whose analysis raises *)

Lemma text_job_name parent_task transcript flagged_words comp_entry :
  job_name (text_job parent_task transcript flagged_words comp_entry)
  = component_task_name (c_component_type comp_entry).
Proof. done. Qed.

(** The evaluator sends the final-summary message only from its
    all-complete branch. *)
Lemma final_summary_job_sent parent_task components parent_task' jobs :
  evaluate_components parent_task components = Some (parent_task', jobs) →
  final_summary_job (bt_task_id parent_task) ∈ jobs →
  all_complete components.
Proof.
  unfold evaluate_components, all_complete.
  case_bool_decide as Hf; [by intros [= <- <-] ?%elem_of_nil|].
  destruct (_ && _) eqn:Hs.
  - unfold dispatch_text_tasks.
    destruct (_ ≫= c_result) as [data|]; [|by intros [= <- <-] ?%elem_of_nil].
    destruct (json_get data "transcript" JNull) as [t|]; [|done]. simpl.
    destruct (json_get data "flagged_words" JNull) as [w|]; [|done]. simpl.
    intros [= <- <-] (c & Hj & _)%list_elem_of_fmap.
    apply (f_equal job_name) in Hj. rewrite text_job_name in Hj.
    by destruct (c_component_type c).
  - clear Hs. case_bool_decide as Ha; [done|]. by intros [= <- <-] ?%elem_of_nil.
Qed.

(** C10: in the grammar, content and pronunciation tasks the analysis runs
    before the row is marked PROCESSING and outside the [try] that records a
    failure.  When it raises, the task fails and the state is as before: a
    PENDING row stays PENDING with no error message, where a task whose
    analysis runs inside [_run_component_task] leaves its row FAILED with
    the error recorded.  While the row of such a kind is PENDING the
    evaluator does not see all components complete and sends no
    final-summary message, and when it sees a failure, another kind is
    FAILED. *)
Theorem raising_analysis_leaves_row_pending now1 now2 component_id e st c :
  get_component st component_id = Some c →
  c_status c = PENDING →
  c_error_message c = None →
  (evaluate_grammar_task now1 now2 component_id (Raises e) st = (FAILURE, st)
   ∧ evaluate_content_task now1 now2 component_id (Raises e) st = (FAILURE, st)
   ∧ evaluate_pronunciation_task now1 now2 component_id (Raises e) st
     = (FAILURE, st))
  ∧ (∀ task,
       task ∈ [evaluate_grammar_task; evaluate_content_task;
               evaluate_pronunciation_task] →
       ∃ c', get_component (task now1 now2 component_id (Raises e) st).2
               component_id = Some c'
             ∧ c_status c' = PENDING ∧ c_error_message c' = None)
  ∧ (∃ c', get_component
             (analyze_text_sentiment_task now1 now2 component_id (Raises e) st).2
             component_id = Some c'
           ∧ c_status c' = FAILED
           ∧ c_error_message c' = Some ("Text sentiment analysis error: " +:+ e))
  ∧ (∀ parent_task components,
       component_statuses components !! c_component_type c = Some PENDING →
       ¬ all_complete components
       ∧ (∀ parent_task' jobs,
            evaluate_components parent_task components = Some (parent_task', jobs) →
            final_summary_job (bt_task_id parent_task) ∉ jobs)
       ∧ (any_failed components →
          ∃ k, k ≠ c_component_type c
               ∧ component_statuses components !! k = Some FAILED)).
Proof.
  intros Hget Hst Herr. split_and!; try done.
  - intros task Htask. exists c.
    repeat (apply elem_of_cons in Htask as [->|Htask]; [by simpl|]).
    by apply elem_of_nil in Htask.
  - unfold analyze_text_sentiment_task, _run_component_task. simpl.
    eexists. split.
    + apply update_component_task_status_sync_get.
      by apply update_component_task_status_sync_get.
    + done.
  - intros parent_task components Hk.
    assert (¬ all_complete components) as Hnot.
    { unfold all_complete.
      pose proof (count_status_lt COMPLETED (component_statuses components)
                    (c_component_type c)) as Hlt.
      rewrite Hk in Hlt. specialize (Hlt ltac:(done)). lia. }
    split_and!; [done| |].
    + intros parent_task' jobs Hev Hin.
      by apply Hnot, (final_summary_job_sent _ _ _ _ Hev).
    + intros [k Hfailed]%count_status_pos_inv. exists k. split; [|done].
      intros ->. congruence.
Qed.

Lemma raising_analysis_leaves_row_pending_witness :
  evaluate_grammar_task 20 21 6%nat (Raises "ConnectionError") wave2_dispatched
  = (FAILURE, wave2_dispatched).
Proof.
  refine (proj1 (proj1 (raising_analysis_leaves_row_pending 20 21 6%nat
                          "ConnectionError" wave2_dispatched
                          (new_component 10 "task-1" 6 GRAMMAR) _ _ _))).
  - reflexivity.
  - reflexivity.
  - reflexivity.
Defined.

(** ** Progress and the persisted outcome *)

Section progress.
Implicit Types (st : State) (t row : BackgroundTask).

Lemma find_elem_of {A} (f : A → bool) (l : list A) x :
  find f l = Some x → x ∈ l ∧ f x = true.
Proof. intros [? ?]%find_some. by rewrite list_elem_of_In. Qed.

Lemma find_task_elem st parent_task_id t :
  find_task st parent_task_id = Some t →
  t ∈ background_tasks st ∧ bt_task_id t = parent_task_id.
Proof.
  intros [? Hid]%find_elem_of. by apply bool_decide_eq_true in Hid.
Qed.

Lemma load_task_elem st task_id user_id parent_task components :
  load_task st task_id user_id = Some (parent_task, components) →
  parent_task ∈ background_tasks st
  ∧ bt_task_id parent_task = task_id
  ∧ components
    = filter (λ c, c_parent_task_id c = task_id) (component_results st).
Proof.
  unfold load_task. destruct (find _ _) as [t|] eqn:Hfind; [|done]. simpl.
  intros [= <- <-]. apply find_elem_of in Hfind as [? Hid].
  apply andb_true_iff in Hid as [Hid _]. by apply bool_decide_eq_true in Hid.
Qed.

(** The row a handler reads back after its commit is the row it wrote. *)
Lemma refresh_task_commit st row : refresh_task (commit_task row st) row = row.
Proof.
  unfold refresh_task, commit_task; simpl.
  induction (background_tasks st) as [|x l IH]; simpl; [done|].
  destruct (decide (bt_id x = bt_id row)) as [Heq|Hne].
  - rewrite (bool_decide_eq_true_2 (bt_id x = bt_id row)) by done.
    by rewrite bool_decide_eq_true_2.
  - rewrite (bool_decide_eq_false_2 (bt_id x = bt_id row)) by done.
    by rewrite (bool_decide_eq_false_2 (bt_id x = bt_id row)).
Qed.

Lemma send_jobs_nil st : send_jobs [] st = st.
Proof. destruct st. unfold send_jobs. simpl. by rewrite app_nil_r. Qed.

Lemma partial_progress_bounds (n : nat) :
  (n ≤ len_EvaluationComponentType)%nat → 0 ≤ partial_progress n ≤ 90.
Proof.
  unfold partial_progress, len_EvaluationComponentType. simpl length.
  intros Hn. split.
  - apply Z.div_pos; lia.
  - apply Z.div_le_upper_bound; lia.
Qed.

(** The evaluator keeps the identity of the parent and leaves its
    progress alone or sets it within 0..95. *)
Lemma evaluate_components_progress parent_task components parent_task' jobs :
  evaluate_components parent_task components = Some (parent_task', jobs) →
  bt_id parent_task' = bt_id parent_task
  ∧ bt_task_id parent_task' = bt_task_id parent_task
  ∧ (bt_progress parent_task' = bt_progress parent_task
     ∨ 0 ≤ bt_progress parent_task' ≤ 95).
Proof.
  unfold evaluate_components.
  case_bool_decide as Hf; [by intros [= <- <-]; auto|].
  destruct (_ && _).
  - unfold dispatch_text_tasks.
    destruct (_ ≫= c_result) as [data|]; [|by intros [= <- <-]; auto].
    destruct (json_get data "transcript" JNull) as [tr|]; [|done]. simpl.
    destruct (json_get data "flagged_words" JNull) as [w|]; [|done]. simpl.
    intros [= <- <-]. auto.
  - case_bool_decide as Ha; intros [= <- <-]; simpl; split_and!; try done.
    + right. lia.
    + right.
      pose proof (partial_progress_bounds _
                    (count_status_le COMPLETED (component_statuses components))).
      lia.
Qed.

Lemma progress_ok_mono sessions sessions' t :
  sessions ⊆ sessions' → progress_ok sessions t → progress_ok sessions' t.
Proof. intros Hsub [?|[? (s & ? & ?)]]; [by left|right]. eauto. Qed.

Lemma progress_inv_commit st row :
  progress_inv st → progress_ok (practice_sessions st) row →
  progress_inv (commit_task row st).
Proof.
  intros Hinv Hrow t (x & -> & Hx)%list_elem_of_fmap. simpl.
  case_bool_decide; [done|by apply Hinv].
Qed.

Lemma progress_inv_submit now user_id parent_task_id temp_audio_path topic
    difficulty question ideal_answer model st :
  progress_inv st →
  progress_inv
    (evaluate_speech_async now user_id parent_task_id temp_audio_path topic
       difficulty question ideal_answer model st).2.
Proof.
  intros Hinv. unfold evaluate_speech_async. case_bool_decide; [done|]. simpl.
  intros t [Hin | ->%list_elem_of_singleton]%elem_of_app; [by apply Hinv|].
  left. simpl. lia.
Qed.

Lemma progress_inv_get_task_status task_id user_id st :
  progress_inv st → progress_inv (get_task_status task_id user_id st).2.
Proof.
  intros Hinv. unfold get_task_status.
  destruct (load_task st task_id user_id) as [[parent_task components]|] eqn:Hload;
    [|done].
  apply load_task_elem in Hload as (Hin & _ & _).
  unfold finish_task_status. case_bool_decide; [|done].
  destruct (evaluate_components parent_task components) as [[parent_task' jobs]|]
    eqn:Hev; [|done].
  apply evaluate_components_progress in Hev as (_ & Htid & Hprog). simpl.
  apply progress_inv_commit; [done|]. simpl.
  destruct Hprog as [Hsame|Hrange]; [|by left].
  destruct (Hinv _ Hin) as [?|[? ?]]; [left|right]; rewrite ?Hsame, ?Htid; done.
Qed.

Lemma progress_inv_report now component_id status msg result error st :
  progress_inv st →
  progress_inv
    (update_component_task_status_sync now component_id status msg result error st).
Proof.
  unfold update_component_task_status_sync.
  by destruct (get_component st component_id).
Qed.

Lemma final_session_data_parent now parent_task_id parent_task completed id s :
  final_session_data now parent_task_id parent_task completed id = Some s →
  ps_parent_task_id s = parent_task_id ∧ ps_id s = id.
Proof.
  unfold final_session_data. intros H.
  repeat (apply bind_Some in H as (? & _ & H)).
  by injection H as <-.
Qed.

Lemma progress_inv_final_summary now parent_task_id st :
  progress_inv st → progress_inv (create_final_summary_task now parent_task_id st).
Proof.
  intros Hinv. unfold create_final_summary_task.
  destruct (try_final_summary now parent_task_id st) as [st'|] eqn:Htry.
  - unfold try_final_summary in Htry.
    apply bind_Some in Htry as (parent_task & Hfind & Htry).
    apply bind_Some in Htry as (s & Hdata & Htry).
    case_bool_decide; [done|]. injection Htry as <-.
    apply find_task_elem in Hfind as [Hin Htid].
    apply final_session_data_parent in Hdata as [Hps _].
    apply progress_inv_commit.
    + intros t Ht. simpl in *.
      apply progress_ok_mono with (practice_sessions st);
        [set_solver | by apply Hinv].
    + right. simpl. split; [done|]. exists s. split; [set_solver|congruence].
  - destruct (find_task st parent_task_id) as [parent_task|] eqn:Hfind; [|done].
    apply find_task_elem in Hfind as [Hin _].
    apply progress_inv_commit; [done|]. apply (Hinv _ Hin).
Qed.

Lemma progress_inv_exec o st : progress_inv st → progress_inv (exec o st).
Proof.
  destruct o; simpl.
  - apply progress_inv_submit.
  - apply progress_inv_get_task_status.
  - apply progress_inv_report.
  - destruct (take_job _ _); [|done].
    intros Hinv. by apply progress_inv_final_summary.
Qed.

Lemma progress_inv_reachable st : reachable st → progress_inv st.
Proof.
  intros [ops ->]. induction ops as [|o ops IH] using rev_ind.
  - by intros t ?%elem_of_nil.
  - unfold run. rewrite foldl_snoc. by apply progress_inv_exec.
Qed.

Lemma reachable_exec o st : reachable st → reachable (exec o st).
Proof.
  intros [ops ->]. exists (ops ++ [o]). unfold run. by rewrite foldl_snoc.
Qed.
End progress.

Section polling.
Implicit Types (st : State) (t row : BackgroundTask).

Lemma refresh_task_elem st t x :
  x ∈ background_tasks st → bt_id x = bt_id t →
  refresh_task st t ∈ background_tasks st.
Proof.
  intros Hin Hid. unfold refresh_task.
  destruct (find _ _) as [y|] eqn:Hfind; simpl.
  - by apply find_elem_of in Hfind as [? _].
  - apply list_elem_of_In in Hin.
    pose proof (find_none _ _ Hfind x Hin) as Hx. simpl in Hx.
    by rewrite bool_decide_eq_true_2 in Hx.
Qed.

Lemma commit_task_elem st row x :
  x ∈ background_tasks st → bt_id x = bt_id row →
  row ∈ background_tasks (commit_task row st).
Proof.
  intros Hin Hid. apply list_elem_of_fmap. exists x.
  by rewrite bool_decide_eq_true_2.
Qed.

(** The parent row of a response is a row of the table after the query. *)
Lemma get_task_status_response task_id user_id st parent_task components st' :
  get_task_status task_id user_id st
  = (TaskStatusResponse parent_task components, st') →
  parent_task ∈ background_tasks st'.
Proof.
  unfold get_task_status.
  destruct (load_task st task_id user_id) as [[p cs]|] eqn:Hload; [|done].
  apply load_task_elem in Hload as (Hin & _ & _).
  unfold finish_task_status. case_bool_decide.
  - destruct (evaluate_components p cs) as [[p' jobs]|] eqn:Hev; [|done].
    apply evaluate_components_progress in Hev as (Hid & _ & _).
    intros [= <- _ <-]. rewrite refresh_task_commit.
    by apply commit_task_elem with p.
  - intros [= <- _ <-]. by apply refresh_task_elem with p.
Qed.

Lemma partial_message_eq (n : nat) :
  partial_message n = pretty n +:+ "/8 components processed.".
Proof. reflexivity. Qed.
End polling.

(** C7, as the specification states it, fails in its second part: the
    status query that sees all eight components COMPLETED sets progress to
    95, and no final-summary worker has run by then. *)
Lemma progress_above_90_before_summary :
  ¬ (∀ ops t,
       (∀ o, o ∈ ops → is_summarize o = false) →
       t ∈ background_tasks (run ops empty_state) →
       bt_progress t ≤ 90).
Proof.
  intros H.
  specialize (H ops_until_aggregating (parent_of aggregating)).
  assert (bt_progress (parent_of aggregating) ≤ 90) as Hle.
  { apply H.
    - intros o Ho. unfold ops_until_aggregating, text_reports in Ho. simpl in Ho.
      repeat (apply elem_of_cons in Ho as [->|Ho]; [done|]).
      by apply elem_of_nil in Ho.
    - apply list_elem_of_lookup. exists 0%nat. reflexivity. }
  vm_compute in Hle. by apply Hle.
Qed.

(** C7, amended: while the parent is PROCESSING with no failed component and
    the second wave dispatched, a status query that counts fewer than eight
    COMPLETED components sets progress to the integer part of
    [completed_count * 90 / 8], which is at most 90, and the message to
    "[completed_count]/8 components processed."; the query that counts all
    eight sets progress to 95 and sends the final-summary message, before
    any summary has run.  In every reachable state a response that shows
    progress 100 comes with the outcome record of the task in the table of
    practice sessions. *)
Theorem polled_progress st task_id user_id :
  reachable st →
  (∀ parent_task components st',
     get_task_status task_id user_id st
     = (TaskStatusResponse parent_task components, st') →
     bt_progress parent_task = 100 →
     ∃ s, s ∈ practice_sessions st'
          ∧ ps_parent_task_id s = bt_task_id parent_task)
  ∧ (∀ parent_task components,
       load_task st task_id user_id = Some (parent_task, components) →
       bt_status parent_task = PROCESSING →
       ¬ any_failed components →
       bt_result parent_task ≠ None →
       let completed_count :=
         count_status COMPLETED (component_statuses components) in
       ((completed_count < 8)%nat →
        let parent_task' :=
          set_progress ((Z.of_nat completed_count * 90) `div` 8)
            (pretty completed_count +:+ "/8 components processed.") parent_task in
        get_task_status task_id user_id st
        = (TaskStatusResponse parent_task' components, commit_task parent_task' st)
        ∧ bt_progress parent_task' ≤ 90)
       ∧ (completed_count = 8%nat →
          let parent_task' :=
            set_progress 95
              "All components complete. Aggregating final results..."
              parent_task in
          get_task_status task_id user_id st
          = (TaskStatusResponse parent_task' components,
             commit_task parent_task'
               (send_jobs [final_summary_job task_id] st)))).
Proof.
  intros Hreach. split.
  - intros parent_task components st' Hresp Hprog.
    pose proof (get_task_status_response _ _ _ _ _ _ Hresp) as Hin.
    assert (progress_inv st') as Hinv.
    { apply progress_inv_reachable.
      replace st' with (exec (GetStatus task_id user_id) st)
        by (simpl; by rewrite Hresp).
      by apply reachable_exec. }
    destruct (Hinv _ Hin) as [?|[_ ?]]; [lia|done].
  - intros parent_task components Hload Hstatus Hf Hres completed_count.
    assert (¬ stage2_due parent_task components) as Hs
      by (by intros (_ & _ & ?)).
    pose proof (load_task_elem _ _ _ _ _ Hload) as (_ & Htid & _).
    assert (∀ r, evaluate_components parent_task components = Some r →
                 get_task_status task_id user_id st
                 = (TaskStatusResponse r.1 components,
                    commit_task r.1 (send_jobs r.2 st))) as Hquery.
    { intros [p' jobs] Hev. unfold get_task_status. rewrite Hload.
      unfold finish_task_status. rewrite bool_decide_eq_true_2 by done.
      rewrite Hev. by rewrite refresh_task_commit. }
    split.
    + intros Hlt parent_task'.
      rewrite (Hquery (parent_task', [])).
      * simpl. rewrite send_jobs_nil. split; [done|].
        pose proof (partial_progress_bounds completed_count) as Hb.
        unfold partial_progress, len_EvaluationComponentType in Hb.
        simpl in Hb. apply Hb. lia.
      * rewrite evaluate_partial; [done|done|done|].
        unfold all_complete, len_EvaluationComponentType. simpl.
        fold completed_count. lia.
    + intros Hall parent_task'.
      rewrite (Hquery (parent_task', [final_summary_job task_id])); [done|].
      rewrite evaluate_all_complete; [|done|done|done]. by rewrite Htid.
Qed.

Lemma polled_progress_witness :
  get_task_status "task-1" 1%nat wave2_dispatched
  = (TaskStatusResponse
       (set_progress 22 "2/8 components processed." (parent_of wave2_dispatched))
       (components_of wave2_dispatched),
     commit_task
       (set_progress 22 "2/8 components processed." (parent_of wave2_dispatched))
       wave2_dispatched)
  ∧ 22 ≤ 90.
Proof.
  refine (proj1 (proj2 (polled_progress wave2_dispatched "task-1" 1%nat _)
                   (parent_of wave2_dispatched) (components_of wave2_dispatched)
                   _ _ _ _) _).
  - exists (take 6 ops_until_aggregating). reflexivity.
  - reflexivity.
  - reflexivity.
  - unfold any_failed. vm_compute. lia.
  - discriminate.
  - vm_compute. lia.
Defined.

(** ** Messages sent more than once *)

(** C3, evaluated on the code: with all eight components COMPLETED and the
    parent PROCESSING, each status query sends the final-summary message
    again; after two queries in a row the broker holds it twice, and no
    summary has run. *)
Theorem final_summary_sent_twice :
  let st := run [GetStatus "task-1" 1%nat; GetStatus "task-1" 1%nat] all_done in
  all_complete (components_of all_done)
  ∧ bt_status (parent_of all_done) = PROCESSING
  ∧ bt_status (parent_of (run [GetStatus "task-1" 1%nat] all_done)) = PROCESSING
  ∧ filter (λ j, is_final_summary_job "task-1" j) (broker all_done) = []
  ∧ filter (λ j, is_final_summary_job "task-1" j) (broker st)
    = [final_summary_job "task-1"; final_summary_job "task-1"]
  ∧ practice_sessions st = [].
Proof. vm_compute. repeat split; reflexivity. Qed.

(** C1, evaluated on the code: two handlers of the same status query that
    both load the rows before either one commits both find the parent
    without its dispatch marker, and each sends the six messages of the
    second wave; when one handler finishes before the other loads, they are
    sent once. *)
Theorem overlapping_queries_dispatch_twice :
  let overlapped :=
    schedule [Load 1 "task-1" 1%nat; Load 2 "task-1" 1%nat; Finish 1; Finish 2]
      wave1_done in
  let in_turn :=
    schedule [Load 1 "task-1" 1%nat; Finish 1; Load 2 "task-1" 1%nat; Finish 2]
      wave1_done in
  filter (λ j, is_text_job j) (broker wave1_done) = []
  ∧ in_turn = run [GetStatus "task-1" 1%nat; GetStatus "task-1" 1%nat] wave1_done
  ∧ filter (λ j, is_text_job j) (broker in_turn)
    = text_job (parent_of wave1_done) (JStr "the quick brown fox") (JArr [])
        <$> text_components (components_of wave1_done)
  ∧ filter (λ j, is_text_job j) (broker overlapped)
    = (text_job (parent_of wave1_done) (JStr "the quick brown fox") (JArr [])
         <$> text_components (components_of wave1_done))
      ++ (text_job (parent_of wave1_done) (JStr "the quick brown fox") (JArr [])
            <$> text_components (components_of wave1_done))
  ∧ length (filter (λ j, is_text_job j) (broker overlapped)) = 12%nat.
Proof. vm_compute. repeat split; reflexivity. Qed.

(** ** A failed parent that completes *)

(** C9, evaluated on the code: the transcription task, run a second time
    when its file is gone, reports its component FAILED; the status query
    that sees it sets the parent FAILED; the final-summary message sent by
    an earlier query is still on the broker, and the worker that runs it
    sets the FAILED parent to COMPLETED. *)
Theorem failed_parent_completed_by_summary :
  reachable failed_after_aggregating
  ∧ c_status
      <$> get_component
            (transcribe_audio_task 30 31 1%nat "/tmp/audio_task-1_a.wav" false
               (Returns "") aggregating).2 1%nat = Some FAILED
  ∧ filter (λ j, is_final_summary_job "task-1" j) (broker failed_after_aggregating)
    = [final_summary_job "task-1"]
  ∧ bt_status (parent_of failed_after_aggregating) = FAILED
  ∧ bt_error_message (parent_of failed_after_aggregating)
    = Some "One or more evaluation components failed."
  ∧ bt_status (parent_of (exec (Summarize 40 "task-1") failed_after_aggregating))
    = COMPLETED
  ∧ bt_progress (parent_of (exec (Summarize 40 "task-1") failed_after_aggregating))
    = 100.
Proof.
  split.
  - exists (ops_until_aggregating
            ++ [Report 30 1%nat PROCESSING (Some "Transcription in progress...")
                  None None;
                Report 31 1%nat FAILED
                  (Some "Transcription error: Audio file not found: /tmp/audio_task-1_a.wav")
                  None
                  (Some "Transcription error: Audio file not found: /tmp/audio_task-1_a.wav");
                GetStatus "task-1" 1%nat]).
    vm_compute. reflexivity.
  - vm_compute. repeat split; reflexivity.
Qed.

(** ** The rating *)

Section rating.
Implicit Types (components : list EvaluationComponentResult)
  (c : EvaluationComponentResult).

(** With one row per kind, [next(...)] finds the row of the kind that
    has a result. *)
Lemma find_component_with_result components kind c v :
  NoDup (c_component_type <$> components) →
  c ∈ components → c_component_type c = kind → c_result c = Some v →
  find (λ c, bool_decide (c_component_type c = kind) && truthy_col (c_result c))
    components = Some c.
Proof.
  intros Hnd Hin Hkind Hres.
  induction components as [|x l IH]; [by apply elem_of_nil in Hin|].
  simpl in Hnd. apply NoDup_cons in Hnd as [Hx Hl].
  apply elem_of_cons in Hin as [<-|Hin]; simpl.
  - by rewrite bool_decide_eq_true_2, Hres.
  - rewrite bool_decide_eq_false_2; [by apply IH|].
    intros Heq. apply Hx, list_elem_of_fmap. exists c. split; [congruence|done].
Qed.

Lemma find_component_without_result components kind :
  (∀ c, c ∈ components → c_component_type c = kind → c_result c = None) →
  find (λ c, bool_decide (c_component_type c = kind) && truthy_col (c_result c))
    components = None.
Proof.
  induction components as [|x l IH]; [done|]. intros Hnone. simpl.
  case_bool_decide as Hk; simpl.
  - rewrite (Hnone x) by (done || by left). simpl. apply IH.
    intros c ?. apply Hnone. by right.
  - apply IH. intros c ?. apply Hnone. by right.
Qed.

Lemma rating_step_feedback components kind key limit len :
  NoDup (c_component_type <$> components) →
  feedback_length kind key components len →
  rating_step kind key limit components = Some (length_bonus len limit).
Proof.
  intros Hnd [Hnone | c fields text Hin Hkind Hres Hkey]; unfold rating_step.
  - by rewrite find_component_without_result.
  - rewrite (find_component_with_result _ _ c (JObj fields)) by done.
    rewrite Hres. simpl. by rewrite Hkey.
Qed.

Lemma rating_of_score_range score :
  (1 <= rating_of_score score <= 5)%Q.
Proof.
  unfold rating_of_score, py_max, py_min.
  destruct (Qle_bool 5 (round1 score)) eqn:H5.
  - by vm_compute.
  - destruct (Qle_bool (round1 score) 1) eqn:H1; [by vm_compute|].
    split.
    + apply Qnot_lt_le. intros Hlt. apply Qlt_le_weak in Hlt.
      apply Qle_bool_iff in Hlt. congruence.
    + apply Qnot_lt_le. intros Hlt. apply Qlt_le_weak in Hlt.
      apply Qle_bool_iff in Hlt. congruence.
Qed.
End rating.

(** C6, as the specification states it, fails: the two steps share one
    [try], so a grammar feedback that is no text (here the number 7) ends the
    scoring before the content step, and the content feedback of 5
    characters does not earn its point.  The rating of the specification is
    4.0 (5.0 if the number counted as a short feedback), the code returns
    3.0. *)
Lemma rating_skips_content_step :
  feedback_text_length GRAMMAR "grammar_feedback" numeric_grammar_components = None
  ∧ feedback_text_length CONTENT_COMPARISON "content_evaluation"
      numeric_grammar_components = Some 5%nat
  ∧ rating_of_lengths None (Some 5%nat) = 4%Q
  ∧ rating_of_lengths (Some 0%nat) (Some 5%nat) = 5%Q
  ∧ _calculate_rating numeric_grammar_components = 3%Q
  ∧ ¬ (∀ components,
         _calculate_rating components
         = rating_of_lengths
             (feedback_text_length GRAMMAR "grammar_feedback" components)
             (feedback_text_length CONTENT_COMPARISON "content_evaluation"
                components)).
Proof.
  split_and!; [reflexivity..|].
  intros H. specialize (H numeric_grammar_components). vm_compute in H.
  discriminate.
Qed.

(** C6, amended: the rating is a function of the completed components
    alone.  It lies in [1.0, 5.0]; with one row per kind, and the grammar and
    content feedback texts, it is the rating of the specification: 3.0, plus
    1.0 for a grammar feedback of under 300 characters, plus 1.0 for a
    content feedback of under 500 characters, clamped and rounded to one
    decimal.  Lengths count characters, not bytes: a grammar feedback of 299
    characters in 300 bytes earns its point.  Grammar feedback of 250
    characters with content feedback of 600 characters gives exactly 4.0, a
    score of 6.2 is returned as 5.0 and a score of 0.3 as 1.0. *)
Theorem rating_is_specified components :
  (1 <= _calculate_rating components <= 5)%Q
  ∧ (∀ grammar_length content_length,
       NoDup (c_component_type <$> components) →
       feedback_length GRAMMAR "grammar_feedback" components grammar_length →
       feedback_length CONTENT_COMPARISON "content_evaluation" components
         content_length →
       _calculate_rating components
       = rating_of_lengths grammar_length content_length
       ∧ (grammar_length = Some 250%nat → content_length = Some 600%nat →
          _calculate_rating components = 4%Q))
  ∧ (str_len accented_feedback = 299%nat
     ∧ String.length accented_feedback = 300%nat
     ∧ _calculate_rating accented_components = 4%Q)
  ∧ rating_of_score (62 # 10) = 5%Q
  ∧ rating_of_score (3 # 10) = 1%Q.
Proof.
  split; [|split; [|split; [|split]]].
  - apply rating_of_score_range.
  - intros grammar_length content_length Hnd Hg Hc.
    assert (_calculate_rating components
            = rating_of_lengths grammar_length content_length) as Heq.
    { unfold _calculate_rating.
      rewrite (rating_step_feedback _ _ _ _ _ Hnd Hg).
      rewrite (rating_step_feedback _ _ _ _ _ Hnd Hc).
      unfold rating_of_lengths, length_bonus.
      destruct grammar_length, content_length;
        repeat case_bool_decide; reflexivity. }
    split; [done|]. intros -> ->. rewrite Heq. reflexivity.
  - vm_compute. repeat split; reflexivity.
  - reflexivity.
  - reflexivity.
Qed.

Lemma rating_is_specified_witness :
  _calculate_rating rated_components = rating_of_lengths (Some 250%nat) (Some 600%nat)
  ∧ _calculate_rating rated_components = 4%Q.
Proof.
  destruct (proj1 (proj2 (rating_is_specified rated_components))
              (Some (str_len (text_of_length 250)))
              (Some (str_len (text_of_length 600)))) as [Heq Hfour].
  - compute_done.
  - apply text_feedback
      with (c := mkComponent 6 "task-1" GRAMMAR COMPLETED (Some "Analysis complete.")
                   (Some (JObj [("grammar_feedback", JStr (text_of_length 250))]))
                   None 10 24 (Some 24))
           (fields := [("grammar_feedback", JStr (text_of_length 250))]);
      [by left | reflexivity | reflexivity | reflexivity].
  - apply text_feedback
      with (c := mkComponent 7 "task-1" CONTENT_COMPARISON COMPLETED
                   (Some "Analysis complete.")
                   (Some (JObj [("content_evaluation", JStr (text_of_length 600))]))
                   None 10 25 (Some 25))
           (fields := [("content_evaluation", JStr (text_of_length 600))]);
      [right; by left | reflexivity | reflexivity | reflexivity].
  - split; [exact Heq | exact (Hfour eq_refl eq_refl)].
Defined.

(** ** The layout of the tables in reachable states *)

Section layout.
Implicit Types (st : State) (t row : BackgroundTask)
  (c : EvaluationComponentResult).

Lemma NoDup_fmap_elem_inj {A B} (f : A → B) (l : list A) x y :
  NoDup (f <$> l) → x ∈ l → y ∈ l → f x = f y → x = y.
Proof.
  induction l as [|z l IH]; [by intros _ ?%elem_of_nil|].
  simpl. intros [Hz Hl]%NoDup_cons [->|Hx]%elem_of_cons [->|Hy]%elem_of_cons Hf;
    [done| | |by apply IH].
  - destruct Hz. rewrite Hf. by apply list_elem_of_fmap_2.
  - destruct Hz. rewrite <- Hf. by apply list_elem_of_fmap_2.
Qed.

Lemma filter_none {A} (P : A → Prop) `{!∀ x, Decision (P x)} (l : list A) :
  (∀ x, x ∈ l → ¬ P x) → filter P l = [].
Proof.
  induction l as [|x l IH]; [done|]. intros Hall.
  rewrite filter_cons. destruct (decide (P x)) as [HP|_].
  - destruct (Hall x); [by left|done].
  - apply IH. intros y ?. apply Hall. by right.
Qed.

Lemma filter_all {A} (P : A → Prop) `{!∀ x, Decision (P x)} (l : list A) :
  (∀ x, x ∈ l → P x) → filter P l = l.
Proof.
  induction l as [|x l IH]; [done|]. intros Hall.
  rewrite filter_cons. destruct (decide (P x)) as [_|HP].
  - f_equal. apply IH. intros y ?. apply Hall. by right.
  - destruct HP. apply Hall. by left.
Qed.

(** A column that the committed row shares with the rows of its key is
    the same before and after the commit. *)
Lemma commit_task_fmap {B} (f : BackgroundTask → B) row st :
  (∀ t, t ∈ background_tasks st → bt_id t = bt_id row → f t = f row) →
  f <$> background_tasks (commit_task row st) = f <$> background_tasks st.
Proof.
  intros H. unfold commit_task; simpl. rewrite <- list_fmap_compose.
  apply list_fmap_ext. intros i t Hi. simpl.
  case_bool_decide; [|done]. symmetry. apply H; [|done].
  by apply list_elem_of_lookup_2 with i.
Qed.

Lemma commit_component_fmap {B} (f : EvaluationComponentResult → B)
    (row : EvaluationComponentResult) st :
  (∀ c, c ∈ component_results st → c_id c = c_id row → f c = f row) →
  f <$> component_results (commit_component row st) = f <$> component_results st.
Proof.
  intros H. unfold commit_component; simpl. rewrite <- list_fmap_compose.
  apply list_fmap_ext. intros i c Hi. simpl.
  case_bool_decide; [|done]. symmetry. apply H; [|done].
  by apply list_elem_of_lookup_2 with i.
Qed.

(** The kinds of the rows of a parent do not change when rows are replaced
    by rows of the same parent and kind. *)
Lemma kinds_of_parent_fmap (g : EvaluationComponentResult → EvaluationComponentResult)
    (l : list EvaluationComponentResult) task_id :
  (∀ c, c ∈ l → c_parent_task_id (g c) = c_parent_task_id c
                ∧ c_component_type (g c) = c_component_type c) →
  c_component_type <$> filter (λ c, c_parent_task_id c = task_id) (g <$> l)
  = c_component_type <$> filter (λ c, c_parent_task_id c = task_id) l.
Proof.
  induction l as [|x l IH]; [done|]. intros H.
  destruct (H x) as [Hp Hk]; [by left|].
  assert (c_component_type <$> filter (λ c, c_parent_task_id c = task_id) (g <$> l)
          = c_component_type <$> filter (λ c, c_parent_task_id c = task_id) l)
    as IH' by (apply IH; intros c ?; apply H; by right).
  rewrite fmap_cons, !filter_cons, Hp.
  destruct (decide (c_parent_task_id x = task_id)); [|done].
  by rewrite !fmap_cons, Hk, IH'.
Qed.

Lemma store_inv_task_key st t t' :
  store_inv st → t ∈ background_tasks st → t' ∈ background_tasks st →
  bt_id t = bt_id t' → t = t'.
Proof.
  intros (Hids & _) ? ? ?. apply (NoDup_fmap_elem_inj bt_id (background_tasks st));
    [|done..]. rewrite Hids. apply NoDup_seq.
Qed.

Lemma store_inv_component_key st c c' :
  store_inv st → c ∈ component_results st → c' ∈ component_results st →
  c_id c = c_id c' → c = c'.
Proof.
  intros (_ & Hids & _) ? ? ?.
  apply (NoDup_fmap_elem_inj c_id (component_results st)); [|done..].
  rewrite Hids. apply NoDup_seq.
Qed.

(** A commit of a row that keeps the key and the [task_id] of a row of the
    table keeps the layout. *)
Lemma store_inv_commit_task st row t :
  store_inv st → t ∈ background_tasks st →
  bt_id row = bt_id t → bt_task_id row = bt_task_id t →
  store_inv (commit_task row st).
Proof.
  intros Hinv Ht Hid Htid.
  assert (∀ x, x ∈ background_tasks st → bt_id x = bt_id row → x = t) as Hkey.
  { intros x Hx Hxid. apply (store_inv_task_key st); [done..|congruence]. }
  assert (bt_task_id <$> background_tasks (commit_task row st)
          = bt_task_id <$> background_tasks st) as Htids.
  { apply commit_task_fmap. intros x Hx Hxid. by rewrite (Hkey x Hx Hxid). }
  destruct Hinv as (I1 & I2 & I3 & I4 & I5 & I6).
  unfold store_inv. rewrite Htids. split_and!; try done.
  rewrite commit_task_fmap by done.
  replace (length (background_tasks (commit_task row st)))
    with (length (background_tasks st)); [done|].
  unfold commit_task; simpl. by rewrite length_fmap.
Qed.

Lemma store_inv_commit_component st (row : EvaluationComponentResult) c :
  store_inv st → c ∈ component_results st →
  c_id row = c_id c →
  c_parent_task_id row = c_parent_task_id c →
  c_component_type row = c_component_type c →
  store_inv (commit_component row st).
Proof.
  intros Hinv Hc Hid Hp Hk.
  assert (∀ x, x ∈ component_results st → c_id x = c_id row → x = c) as Hkey.
  { intros x Hx Hxid. apply (store_inv_component_key st); [done..|congruence]. }
  destruct Hinv as (I1 & I2 & I3 & I4 & I5 & I6).
  unfold store_inv. split_and!; try done.
  - rewrite commit_component_fmap by done.
    replace (length (component_results (commit_component row st)))
      with (length (component_results st)); [done|].
    unfold commit_component; simpl. by rewrite length_fmap.
  - intros x (y & -> & Hy)%list_elem_of_fmap. simpl.
    case_bool_decide as Hyid; [|by apply I4].
    rewrite Hp. by apply I4.
  - intros task_id Htid. simpl.
    rewrite kinds_of_parent_fmap; [by apply I5|].
    intros x Hx. case_bool_decide as Hxid; [|done].
    by rewrite (Hkey x Hx Hxid).
Qed.

Lemma store_inv_submit now user_id parent_task_id temp_audio_path topic difficulty
    question ideal_answer model st :
  store_inv st →
  store_inv
    (evaluate_speech_async now user_id parent_task_id temp_audio_path topic
       difficulty question ideal_answer model st).2.
Proof.
  intros Hinv. unfold evaluate_speech_async. case_bool_decide as Hfresh; [done|].
  destruct Hinv as (I1 & I2 & I3 & I4 & I5 & I6).
  unfold store_inv; simpl. rewrite !fmap_app, !length_app. simpl.
  split_and!; try done.
  - rewrite Nat.add_1_r, seq_S, I1. done.
  - rewrite seq_app, I2. f_equal. simpl.
    repeat (f_equal; try lia).
  - apply NoDup_app. split_and!; [done| |apply NoDup_singleton].
    intros x Hx ->%list_elem_of_singleton. done.
  - intros c [Hc|Hc]%elem_of_app.
    + apply elem_of_app. left. by apply I4.
    + apply elem_of_app. right. simpl.
      repeat (apply elem_of_cons in Hc as [->|Hc]; [by left|]).
      by apply elem_of_nil in Hc.
  - intros task_id [Hold| ->%list_elem_of_singleton]%elem_of_app.
    + rewrite filter_app, fmap_app, (I5 _ Hold).
      rewrite (filter_none _ [_; _; _; _; _; _; _; _]); [by rewrite app_nil_r|].
      intros c Hc Hp.
      repeat (apply elem_of_cons in Hc as [->|Hc]; [simpl in Hp; congruence|]).
      by apply elem_of_nil in Hc.
    + rewrite filter_app, fmap_app.
      rewrite (filter_none _ (component_results st)).
      * rewrite filter_all; [done|].
        intros c Hc.
        repeat (apply elem_of_cons in Hc as [->|Hc]; [done|]).
        by apply elem_of_nil in Hc.
      * intros c Hc Hp. apply Hfresh. rewrite <- Hp. by apply I4.
Qed.

Lemma store_inv_get_task_status task_id user_id st :
  store_inv st → store_inv (get_task_status task_id user_id st).2.
Proof.
  intros Hinv. unfold get_task_status.
  destruct (load_task st task_id user_id) as [[parent_task components]|] eqn:Hload;
    [|done].
  apply load_task_elem in Hload as (Hin & _ & _).
  unfold finish_task_status. case_bool_decide; [|done].
  destruct (evaluate_components parent_task components) as [[parent_task' jobs]|]
    eqn:Hev; [|done].
  apply evaluate_components_progress in Hev as (Hid & Htid & _). simpl.
  by apply store_inv_commit_task with parent_task.
Qed.

Lemma store_inv_report now component_id status msg result error st :
  store_inv st →
  store_inv
    (update_component_task_status_sync now component_id status msg result error st).
Proof.
  intros Hinv. unfold update_component_task_status_sync.
  destruct (get_component st component_id) as [c|] eqn:Hget; [|done].
  apply find_elem_of in Hget as [Hc _].
  by apply store_inv_commit_component with c.
Qed.

Lemma store_inv_final_summary now parent_task_id st :
  store_inv st → store_inv (create_final_summary_task now parent_task_id st).
Proof.
  intros Hinv. unfold create_final_summary_task.
  destruct (try_final_summary now parent_task_id st) as [st'|] eqn:Htry.
  - unfold try_final_summary in Htry.
    apply bind_Some in Htry as (parent_task & Hfind & Htry).
    apply bind_Some in Htry as (s & Hdata & Htry).
    case_bool_decide as Hnew; [done|]. injection Htry as <-.
    apply find_task_elem in Hfind as [Hin Htid].
    apply final_session_data_parent in Hdata as [Hps _].
    apply store_inv_commit_task with parent_task; [|done..].
    destruct Hinv as (I1 & I2 & I3 & I4 & I5 & I6).
    unfold store_inv; simpl. split_and!; try done.
    rewrite fmap_app. apply NoDup_app. split_and!; [done| |apply NoDup_singleton].
    intros x Hx ->%list_elem_of_singleton. simpl in Hnew. congruence.
  - destruct (find_task st parent_task_id) as [parent_task|] eqn:Hfind; [|done].
    apply find_task_elem in Hfind as [Hin _].
    by apply store_inv_commit_task with parent_task.
Qed.

Lemma store_inv_with_broker jobs st : store_inv st → store_inv (with_broker jobs st).
Proof. done. Qed.

Lemma store_inv_exec o st : store_inv st → store_inv (exec o st).
Proof.
  destruct o; simpl.
  - apply store_inv_submit.
  - apply store_inv_get_task_status.
  - apply store_inv_report.
  - destruct (take_job _ _); [|done].
    intros Hinv. by apply store_inv_final_summary, store_inv_with_broker.
Qed.

Lemma store_inv_reachable st : reachable st → store_inv st.
Proof.
  intros [ops ->]. induction ops as [|o ops IH] using rev_ind.
  - unfold store_inv; simpl. split_and!; try done; try constructor.
    + by intros c ?%elem_of_nil.
    + by intros t ?%elem_of_nil.
  - unfold run. rewrite foldl_snoc. by apply store_inv_exec.
Qed.
End layout.

(** ** What a status query sees and what it leaves alone *)

Section queries.
Implicit Types (st : State) (t : BackgroundTask).

(** The outcomes of the evaluator, branch by branch. *)
Lemma evaluate_components_cases parent_task components parent_task' jobs :
  evaluate_components parent_task components = Some (parent_task', jobs) →
  (∃ error, parent_task' = set_failed error parent_task ∧ jobs = [])
  ∨ (∃ transcript flagged_words,
       parent_task' = set_dispatched parent_task
       ∧ bt_result parent_task = None
       ∧ jobs = text_job parent_task transcript flagged_words
                  <$> text_components components)
  ∨ (∃ progress message,
       parent_task' = set_progress progress message parent_task
       ∧ 0 ≤ progress ≤ 95
       ∧ ¬ stage2_due parent_task components
       ∧ (jobs = [] ∨ jobs = [final_summary_job (bt_task_id parent_task)])).
Proof.
  destruct (decide (any_failed components)) as [Hf|Hf].
  { rewrite evaluate_failed by done. intros [= <- <-]. left. eauto. }
  destruct (decide (stage2_due parent_task components)) as [Hs|Hs].
  { rewrite evaluate_stage2 by done. unfold dispatch_text_tasks.
    destruct (_ ≫= c_result) as [data|]; [|intros [= <- <-]; left; eauto].
    destruct (json_get data "transcript" JNull) as [tr|]; [|done]. simpl.
    destruct (json_get data "flagged_words" JNull) as [w|]; [|done]. simpl.
    intros [= <- <-]. right; left. exists tr, w.
    by destruct Hs as (_ & _ & ?). }
  destruct (decide (all_complete components)) as [Ha|Ha].
  - rewrite evaluate_all_complete by done. intros [= <- <-].
    right; right. eexists _, _.
    split; [done|]. split; [lia|]. split; [done|by right].
  - rewrite evaluate_partial by done. intros [= <- <-].
    pose proof (partial_progress_bounds _
                  (count_status_le COMPLETED (component_statuses components))).
    right; right. eexists _, _.
    split; [done|]. split; [lia|]. split; [done|by left].
Qed.

Lemma load_task_user st task_id user_id parent_task components :
  load_task st task_id user_id = Some (parent_task, components) →
  bt_user_id parent_task = user_id.
Proof.
  unfold load_task. destruct (find _ _) as [t|] eqn:Hfind; [|done]. simpl.
  intros [= <- _]. apply find_elem_of in Hfind as [_ Hid].
  apply andb_true_iff in Hid as [_ Hid]. by apply bool_decide_eq_true in Hid.
Qed.

Lemma store_inv_task_id st t t' :
  store_inv st → t ∈ background_tasks st → t' ∈ background_tasks st →
  bt_task_id t = bt_task_id t' → t = t'.
Proof.
  intros (_ & _ & Htids & _) ? ? ?.
  by apply (NoDup_fmap_elem_inj bt_task_id (background_tasks st)).
Qed.

(** A status query changes neither the component rows nor the practice
    sessions, and it only adds to the broker. *)
Lemma get_task_status_frame task_id user_id st :
  component_results (get_task_status task_id user_id st).2 = component_results st
  ∧ practice_sessions (get_task_status task_id user_id st).2 = practice_sessions st
  ∧ ∃ jobs, broker (get_task_status task_id user_id st).2 = broker st ++ jobs.
Proof.
  unfold get_task_status.
  destruct (load_task st task_id user_id) as [[p cs]|];
    [|split_and!; [done..|exists []; by rewrite app_nil_r]].
  unfold finish_task_status. case_bool_decide;
    [|split_and!; [done..|exists []; by rewrite app_nil_r]].
  destruct (evaluate_components p cs) as [[p' jobs]|];
    [|split_and!; [done..|exists []; by rewrite app_nil_r]].
  simpl. split_and!; [done..|by exists jobs].
Qed.

(** A row that is not the one a commit replaces stays in the table. *)
Lemma commit_task_other st row t :
  t ∈ background_tasks st → bt_id t ≠ bt_id row →
  t ∈ background_tasks (commit_task row st).
Proof.
  intros Hin Hne. apply list_elem_of_fmap. exists t.
  by rewrite bool_decide_eq_false_2.
Qed.
End queries.

(** X2: in a reachable state a status query for a task of another user is
    answered 404 and changes nothing. *)
Theorem other_users_task_not_found st t user_id :
  reachable st →
  t ∈ background_tasks st →
  user_id ≠ bt_user_id t →
  get_task_status (bt_task_id t) user_id st = (HTTP_404, st).
Proof.
  intros Hreach Hin Hne. apply store_inv_reachable in Hreach.
  unfold get_task_status.
  destruct (load_task st (bt_task_id t) user_id) as [[p cs]|] eqn:Hload; [|done].
  pose proof (load_task_user _ _ _ _ _ Hload) as Huser.
  apply load_task_elem in Hload as (Hp & Htid & _).
  rewrite (store_inv_task_id st p t) in Huser by done. congruence.
Qed.

Lemma other_users_task_not_found_witness :
  get_task_status "task-1" 2%nat wave1_done = (HTTP_404, wave1_done).
Proof.
  apply (other_users_task_not_found wave1_done (parent_of wave1_done) 2%nat).
  - exists (take 5 ops_until_aggregating).
    vm_compute. reflexivity.
  - apply list_elem_of_lookup. exists 0%nat. reflexivity.
  - discriminate.
Defined.

(** ** The dispatch marker *)

Section marker.
Implicit Types (st : State) (t row : BackgroundTask).


Lemma report_background_tasks now component_id status msg result error st :
  background_tasks
    (update_component_task_status_sync now component_id status msg result error st)
  = background_tasks st.
Proof.
  unfold update_component_task_status_sync.
  by destruct (get_component st component_id).
Qed.







End marker.



(** ** Reports and the rows they leave alone *)

Section reports.
Implicit Types (st : State) (c : EvaluationComponentResult).

Lemma final_summary_component_results now parent_task_id st :
  component_results (create_final_summary_task now parent_task_id st)
  = component_results st.
Proof.
  unfold create_final_summary_task.
  destruct (try_final_summary now parent_task_id st) as [st'|] eqn:Htry.
  - unfold try_final_summary in Htry.
    apply bind_Some in Htry as (p & _ & Htry).
    apply bind_Some in Htry as (s & _ & Htry).
    case_bool_decide; [done|]. by injection Htry as <-.
  - by destruct (find_task st parent_task_id).
Qed.

Lemma submit_component_results now user_id parent_task_id temp_audio_path topic
    difficulty question ideal_answer model st c :
  c ∈ component_results st →
  c ∈ component_results
        (evaluate_speech_async now user_id parent_task_id temp_audio_path topic
           difficulty question ideal_answer model st).2.
Proof.
  intros Hc. unfold evaluate_speech_async. case_bool_decide; [done|]. simpl.
  apply elem_of_app. by left.
Qed.

(** What an operation leaves of a component row: a row with its key, with a
    result if it had one and an error message if it had one. *)
Lemma component_kept_exec o st c :
  store_inv st → c ∈ component_results st →
  ∃ c', c' ∈ component_results (exec o st)
        ∧ c_id c' = c_id c
        ∧ (c_result c ≠ None → c_result c' ≠ None)
        ∧ (c_error_message c ≠ None → c_error_message c' ≠ None).
Proof.
  intros Hinv Hc. destruct o; simpl.
  - exists c. split; [by apply submit_component_results|done].
  - exists c. destruct (get_task_status_frame task_id user_id st) as (-> & _).
    done.
  - unfold update_component_task_status_sync.
    destruct (get_component st component_id) as [c0|] eqn:Hget; [|by exists c].
    apply find_elem_of in Hget as [Hc0 _].
    destruct (decide (c_id c = c_id c0)) as [Heq|Hne].
    + assert (c = c0) as -> by (apply (store_inv_component_key st); done).
      exists (update_component_entry now status status_message result error c0).
      split; [|split; [done|]].
      * apply list_elem_of_fmap. exists c0. split; [|done].
        rewrite bool_decide_eq_true_2; done.
      * simpl. split.
        -- by destruct (truthy_dict result) eqn:Hr, result as [[|]|].
        -- by destruct (truthy_str status_message), (truthy_str error) eqn:He,
                 error as [[|]|].
    + exists c. split; [|done]. apply list_elem_of_fmap. exists c.
      split; [|done]. by rewrite bool_decide_eq_false_2.
  - destruct (take_job _ _) as [rest|]; [|by exists c].
    exists c. by rewrite final_summary_component_results.
Qed.
End reports.

(** X6: in a reachable state a report changes one row at most: the parent
    rows, the practice sessions and the broker are as before, every component
    row keeps its key, parent, kind and creation time, and every row with
    another key than the reported one is unchanged. *)
Theorem report_changes_one_row now component_id status msg result error st :
  reachable st →
  let st' :=
    update_component_task_status_sync now component_id status msg result error st in
  background_tasks st' = background_tasks st
  ∧ practice_sessions st' = practice_sessions st
  ∧ broker st' = broker st
  ∧ (λ c, (c_id c, c_parent_task_id c, c_component_type c, c_created_at c))
      <$> component_results st'
    = (λ c, (c_id c, c_parent_task_id c, c_component_type c, c_created_at c))
        <$> component_results st
  ∧ (∀ c, c ∈ component_results st → c_id c ≠ component_id →
          c ∈ component_results st').
Proof.
  intros Hreach st'. apply store_inv_reachable in Hreach. subst st'.
  unfold update_component_task_status_sync.
  destruct (get_component st component_id) as [c0|] eqn:Hget; [|done].
  pose proof (get_component_id _ _ _ Hget) as Hid.
  apply find_elem_of in Hget as [Hc0 _].
  split; [done|]. split; [done|]. split; [done|]. split.
  - apply commit_component_fmap. intros c Hc Hcid.
    assert (c = c0) as -> by (apply (store_inv_component_key st); done).
    done.
  - intros c Hc Hne. apply list_elem_of_fmap. exists c. split; [|done].
    rewrite bool_decide_eq_false_2; [done|]. simpl. congruence.
Qed.

Lemma report_changes_one_row_witness :
  background_tasks
    (update_component_task_status_sync 30 4%nat FAILED (Some "late") None
       (Some "late") all_done)
  = background_tasks all_done.
Proof.
  refine (proj1 (report_changes_one_row 30 4%nat FAILED (Some "late") None
                   (Some "late") all_done _)).
  exists (take 12 ops_until_aggregating). vm_compute. reflexivity.
Defined.

(** X7: a result and an error message are never cleared.  From a reachable
    state, whatever operations follow, the row of a component that held a
    result still holds one, and the row of a component that held an error
    message still holds one, also after a later report of COMPLETED. *)
Theorem result_and_error_are_kept st c ops :
  reachable st →
  c ∈ component_results st →
  ∃ c', c' ∈ component_results (run ops st)
        ∧ c_id c' = c_id c
        ∧ (c_result c ≠ None → c_result c' ≠ None)
        ∧ (c_error_message c ≠ None → c_error_message c' ≠ None).
Proof.
  intros Hreach Hc. apply store_inv_reachable in Hreach.
  assert (store_inv (run ops st)
          ∧ ∃ c', c' ∈ component_results (run ops st)
                  ∧ c_id c' = c_id c
                  ∧ (c_result c ≠ None → c_result c' ≠ None)
                  ∧ (c_error_message c ≠ None → c_error_message c' ≠ None))
    as [_ H]; [|done].
  induction ops as [|o ops [IHinv (c1 & Hc1 & Hid1 & Hr1 & He1)]] using rev_ind.
  - split; [done|]. by exists c.
  - unfold run. rewrite foldl_snoc. split; [by apply store_inv_exec|].
    destruct (component_kept_exec o _ c1 IHinv Hc1) as (c2 & Hc2 & Hid2 & Hr2 & He2).
    exists c2. split; [done|]. split; [congruence|]. split; auto.
Qed.

Lemma result_and_error_are_kept_witness :
  let c := mkComponent 1 "task-1" TRANSCRIPTION FAILED
             (Some "Transcription error: Audio file not found: /tmp/audio_task-1_a.wav")
             (Some (JObj [("transcript", JStr "the quick brown fox");
                          ("flagged_words", JArr [])]))
             (Some "Transcription error: Audio file not found: /tmp/audio_task-1_a.wav")
             10 31 (Some 31) in
  ∃ c', c' ∈ component_results
               (run [Report 40 1%nat COMPLETED (Some "Transcription complete.")
                       transcription_result None]
                  failed_after_aggregating)
        ∧ c_id c' = c_id c
        ∧ (c_result c ≠ None → c_result c' ≠ None)
        ∧ (c_error_message c ≠ None → c_error_message c' ≠ None).
Proof.
  apply (result_and_error_are_kept failed_after_aggregating).
  - exists (ops_until_aggregating
            ++ [Report 30 1%nat PROCESSING (Some "Transcription in progress...")
                  None None;
                Report 31 1%nat FAILED
                  (Some "Transcription error: Audio file not found: /tmp/audio_task-1_a.wav")
                  None
                  (Some "Transcription error: Audio file not found: /tmp/audio_task-1_a.wav");
                GetStatus "task-1" 1%nat]).
    vm_compute. reflexivity.
  - apply list_elem_of_lookup. exists 0%nat. vm_compute. reflexivity.
Defined.

(** ** The component tasks *)

Section tasks.
Implicit Types (st : State) (c : EvaluationComponentResult).

(** The row after [_run_component_task]: the terminal report on top of
    the PROCESSING report. *)
Lemma _run_component_task_get now1 now2 component_id label analysis st c :
  get_component st component_id = Some c →
  get_component (_run_component_task now1 now2 component_id label analysis st).2
    component_id
  = Some
      (match analysis with
       | Returns result =>
           update_component_entry now2 COMPLETED (Some "Analysis complete.")
             result None
       | Raises e =>
           update_component_entry now2 FAILED (Some (label +:+ " error: " +:+ e))
             None (Some (label +:+ " error: " +:+ e))
       end
         (update_component_entry now1 PROCESSING (Some (label +:+ "...")) None None c)).
Proof.
  intros Hget. unfold _run_component_task.
  destruct analysis; simpl;
    by apply update_component_task_status_sync_get,
             update_component_task_status_sync_get.
Qed.

Lemma update_component_absent now component_id status msg result error st :
  get_component st component_id = None →
  update_component_task_status_sync now component_id status msg result error st = st.
Proof. intros Hget. unfold update_component_task_status_sync. by rewrite Hget. Qed.

Lemma transcribe_audio_task_get now1 now2 component_id path path_exists
    recognition st c :
  get_component st component_id = Some c →
  ∃ status msg result error,
    get_component
      (transcribe_audio_task now1 now2 component_id path path_exists recognition st).2
      component_id
    = Some (update_component_entry now2 status msg result error
              (update_component_entry now1 PROCESSING
                 (Some "Transcription in progress...") None None c))
    ∧ ((status = COMPLETED ∧ error = None
        ∧ ∃ text, recognition = Returns text ∧ path_exists = true
                  ∧ truthy_str (Some text) = true
                  ∧ result = Some [("transcript", JStr text);
                                   ("flagged_words", JArr [])])
       ∨ (status = FAILED ∧ result = None ∧ truthy_str error = true
          ∧ (path_exists = false
             ∨ (∃ e, recognition = Raises e)
             ∨ recognition = Returns ""))).
Proof.
  intros Hget. unfold transcribe_audio_task.
  destruct path_exists; simpl.
  - destruct recognition as [text|e]; simpl.
    + destruct text as [|a text]; simpl.
      * eexists _, _, _, _. split;
          [by apply update_component_task_status_sync_get,
                    update_component_task_status_sync_get|].
        right. split_and!; [done..|]. right; by right.
      * eexists _, _, _, _. split;
          [by apply update_component_task_status_sync_get,
                    update_component_task_status_sync_get|].
        left. split_and!; [done..|]. by eexists.
    + eexists _, _, _, _. split;
        [by apply update_component_task_status_sync_get,
                  update_component_task_status_sync_get|].
      right. split_and!; [done..|]. right; left. by eexists.
  - eexists _, _, _, _. split;
      [by apply update_component_task_status_sync_get,
                update_component_task_status_sync_get|].
    right. split_and!; [done..|]. by left.
Qed.
End tasks.

(** X8: the audio-feature, emotion, sentiment and linguistic analyses catch
    their own exceptions, so their tasks never mark the component FAILED:
    whatever the library calls do, an existing component ends COMPLETED
    with its error message as before.  A failed audio-feature extraction
    returns an empty dictionary, which is not stored: the row is COMPLETED
    with the result it had. *)
Theorem caught_analysis_errors_complete now1 now2 component_id st c :
  get_component st component_id = Some c →
  (∀ extraction,
     ∃ c', get_component
             (extract_audio_features_task now1 now2 component_id extraction st).2
             component_id = Some c'
           ∧ c_status c' = COMPLETED
           ∧ c_error_message c' = c_error_message c
           ∧ (∀ e, extraction = Raises e → c_result c' = c_result c))
  ∧ (∀ pipeline_loaded blank classification,
       ∃ c', get_component
               (analyze_text_emotion_task now1 now2 component_id pipeline_loaded
                  blank classification st).2 component_id = Some c'
             ∧ c_status c' = COMPLETED
             ∧ c_error_message c' = c_error_message c
             ∧ (∀ e, classification = Raises e →
                     c_result c' = Some (JObj neutral_emotion)))
  ∧ (∀ scoring,
       ∃ c', get_component
               (analyze_text_sentiment_task now1 now2 component_id
                  (analyze_sentiment scoring) st).2 component_id = Some c'
             ∧ c_status c' = COMPLETED
             ∧ c_error_message c' = c_error_message c
             ∧ (∀ e, scoring = Raises e →
                     c_result c' = Some (JObj neutral_sentiment)))
  ∧ (∀ blank analysis,
       ∃ c', get_component
               (analyze_linguistic_features_task now1 now2 component_id blank
                  analysis st).2 component_id = Some c'
             ∧ c_status c' = COMPLETED
             ∧ c_error_message c' = c_error_message c
             ∧ (∀ e, analysis = Raises e → blank = false →
                     c_result c' = Some (JObj failed_linguistic_features))).
Proof.
  intros Hget. split; [|split; [|split]].
  - intros extraction. eexists. split.
    + by apply _run_component_task_get.
    + destruct extraction; simpl; split_and!; try done; by intros ? [=].
  - intros pipeline_loaded blank classification. eexists. split.
    + by apply _run_component_task_get.
    + unfold analyze_emotion.
      destruct pipeline_loaded, blank, classification; simpl; split_and!;
        try done; by intros ? [=].
  - intros scoring. eexists. split.
    + by apply _run_component_task_get.
    + destruct scoring; simpl; split_and!; try done; by intros ? [=].
  - intros blank analysis. eexists. split.
    + by apply _run_component_task_get.
    + unfold analyze_linguistic_features.
      destruct blank, analysis; simpl; split_and!; try done; by intros ? [=].
Qed.

Lemma caught_analysis_errors_complete_witness :
  ∃ c', get_component
          (extract_audio_features_task 12 14 2%nat (Raises "NoBackendError")
             submitted).2 2%nat = Some c'
        ∧ c_status c' = COMPLETED
        ∧ c_error_message c' = None
        ∧ (∀ e, Raises "NoBackendError" = @Raises (list (string * json)) e →
                c_result c' = None).
Proof.
  exact (proj1 (caught_analysis_errors_complete 12 14 2%nat submitted
                  (new_component 10 "task-1" 2 AUDIO_FEATURES) eq_refl)
           (Raises "NoBackendError")).
Defined.

(** X9: the transcription task always ends in a terminal status on an
    existing component.  It ends COMPLETED exactly when the audio file exists
    and the recognition returns a text that is not empty, and then the result
    holds that text with an empty list of flagged words; when the file is
    missing, the recognition raises or no speech is found, it ends FAILED
    with an error message and stores no result. *)
Theorem transcription_task_outcome now1 now2 component_id path path_exists
    recognition st c :
  get_component st component_id = Some c →
  ∃ c',
    get_component
      (transcribe_audio_task now1 now2 component_id path path_exists recognition st).2
      component_id = Some c'
    ∧ c_completed_at c' = Some now2
    ∧ ((c_status c' = COMPLETED
        ∧ c_error_message c' = c_error_message c
        ∧ ∃ text, recognition = Returns text ∧ path_exists = true ∧ text ≠ ""
                  ∧ c_result c'
                    = Some (JObj [("transcript", JStr text);
                                  ("flagged_words", JArr [])]))
       ∨ (c_status c' = FAILED
          ∧ c_error_message c' ≠ None
          ∧ c_result c' = c_result c
          ∧ (path_exists = false
             ∨ (∃ e, recognition = Raises e)
             ∨ recognition = Returns ""))).
Proof.
  intros Hget.
  destruct (transcribe_audio_task_get now1 now2 component_id path path_exists
              recognition st c Hget)
    as (status & msg & result & error & Hrow & Hcases).
  eexists. split; [exact Hrow|].
  destruct Hcases as [(-> & -> & text & -> & -> & Htext & ->)
                     |(-> & -> & Herr & Hwhy)]; simpl.
  - split; [done|]. left. split_and!; [done..|].
    exists text. split_and!; [done..| |done]. by intros ->.
  - split; [done|]. right. rewrite Herr. split_and!; [done| |done..].
    by destruct error as [[|]|].
Qed.

Lemma transcription_task_outcome_witness :
  ∃ c',
    get_component
      (transcribe_audio_task 11 13 1%nat "/tmp/audio_task-1_a.wav" true
         (Returns "the quick brown fox") submitted).2 1%nat = Some c'
    ∧ c_completed_at c' = Some 13
    ∧ ((c_status c' = COMPLETED
        ∧ c_error_message c' = None
        ∧ ∃ text, Returns "the quick brown fox" = Returns text ∧ true = true
                  ∧ text ≠ ""
                  ∧ c_result c'
                    = Some (JObj [("transcript", JStr text);
                                  ("flagged_words", JArr [])]))
       ∨ (c_status c' = FAILED
          ∧ c_error_message c' ≠ None
          ∧ c_result c' = None
          ∧ (true = false
             ∨ (∃ e, Returns "the quick brown fox" = @Raises string e)
             ∨ Returns "the quick brown fox" = Returns ""))).
Proof.
  exact (transcription_task_outcome 11 13 1%nat "/tmp/audio_task-1_a.wav" true
           (Returns "the quick brown fox") submitted
           (new_component 10 "task-1" 1 TRANSCRIPTION) eq_refl).
Defined.

(** The dispatch of the second wave, with what it reads from the
    transcription result. *)
Lemma stage2_needs_transcription_result_dispatch parent_task components
    transcription_comp fields :
  ¬ any_failed components →
  stage2_due parent_task components →
  transcription_comp_of components = Some transcription_comp →
  c_result transcription_comp = Some (JObj fields) →
  evaluate_components parent_task components
  = Some (set_dispatched parent_task,
          text_job parent_task
            (default JNull (dict_lookup "transcript" fields))
            (default JNull (dict_lookup "flagged_words" fields))
            <$> text_components components).
Proof.
  intros Hf Hs Htc Hres. rewrite (evaluate_stage2 _ _ Hf Hs).
  unfold dispatch_text_tasks. unfold transcription_comp_of in Htc.
  rewrite Htc. simpl. by rewrite Hres.
Qed.

(** X10: a pronunciation feedback never comes from the model.  The
    recognition flags no word, so the transcription result holds an empty
    list of flagged words; the evaluator hands that list to the
    pronunciation task, and [get_speech_feedback] answers an empty list with
    its fixed text without calling the model: whatever the model would do,
    the pronunciation component ends COMPLETED with that text. *)
Theorem pronunciation_feedback_is_fixed parent_task components recognition text
    flagged_words transcription_comp comp_entry now1 now2 st c llm :
  transcribe recognition = Returns (text, flagged_words) →
  ¬ any_failed components →
  stage2_due parent_task components →
  transcription_comp_of components = Some transcription_comp →
  c_result transcription_comp
  = Some (JObj [("transcript", JStr text);
                ("flagged_words", json_of_flagged_words flagged_words)]) →
  comp_entry ∈ components →
  c_component_type comp_entry = PRONUNCIATION →
  get_component st (c_id comp_entry) = Some c →
  ∃ parent_task' jobs flagged_arg,
    evaluate_components parent_task components = Some (parent_task', jobs)
    ∧ mkJob "tasks.component_tasks.pronunciation_task"
        [JInt (Z.of_nat (c_id comp_entry)); JStr text; flagged_arg;
         json_of_str (bt_question parent_task);
         json_of_str (bt_model parent_task)] ∈ jobs
    ∧ flagged_arg = JArr []
    ∧ ∃ c',
        get_component
          (evaluate_pronunciation_task now1 now2 (c_id comp_entry)
             (get_speech_feedback flagged_arg llm) st).2 (c_id comp_entry)
        = Some c'
        ∧ c_status c' = COMPLETED
        ∧ c_result c'
          = Some (JObj [("pronunciation_feedback",
                         JStr "✅ Your speech was clear!")]).
Proof.
  intros Htr Hf Hs Htc Hres Hin Hkind Hget.
  assert (flagged_words = []) as ->
    by (destruct recognition; simpl in Htr; congruence).
  pose proof (stage2_needs_transcription_result_dispatch parent_task components
                transcription_comp _ Hf Hs Htc Hres) as Hev.
  change (default JNull (dict_lookup "transcript" _)) with (JStr text) in Hev.
  change (default JNull (dict_lookup "flagged_words" _)) with (JArr []) in Hev.
  eexists _, _, (JArr []). split; [exact Hev|]. split; [|split; [done|]].
  - apply list_elem_of_fmap. exists comp_entry. split.
    + unfold text_job. by rewrite Hkind.
    + apply list_elem_of_filter. split; [|done]. rewrite Hkind.
      intros Hw. by repeat (apply elem_of_cons in Hw as [?|Hw]; [done|]);
        apply elem_of_nil in Hw.
  - eexists. split; [|split].
    + exact (_run_component_task_get now1 now2 (c_id comp_entry)
               "Pronunciation evaluation"
               (Returns (Some [("pronunciation_feedback",
                                JStr "✅ Your speech was clear!")]))
               st c Hget).
    + done.
    + done.
Qed.

Lemma pronunciation_feedback_is_fixed_witness :
  ∃ parent_task' jobs flagged_arg,
    evaluate_components (parent_of wave1_done) (components_of wave1_done)
    = Some (parent_task', jobs)
    ∧ mkJob "tasks.component_tasks.pronunciation_task"
        [JInt 8; JStr "the quick brown fox"; flagged_arg;
         JStr "Describe your last trip."; JStr "mistral:latest"] ∈ jobs
    ∧ flagged_arg = JArr []
    ∧ ∃ c',
        get_component
          (evaluate_pronunciation_task 27 28 8%nat
             (get_speech_feedback flagged_arg (Raises "ConnectionError"))
             wave2_dispatched).2 8%nat
        = Some c'
        ∧ c_status c' = COMPLETED
        ∧ c_result c'
          = Some (JObj [("pronunciation_feedback",
                         JStr "✅ Your speech was clear!")]).
Proof.
  apply (pronunciation_feedback_is_fixed (parent_of wave1_done)
           (components_of wave1_done) (Returns "the quick brown fox")
           "the quick brown fox" []
           (mkComponent 1 "task-1" TRANSCRIPTION COMPLETED
              (Some "Transcription complete.")
              (Some (JObj [("transcript", JStr "the quick brown fox");
                           ("flagged_words", JArr [])]))
              None 10 13 (Some 13))
           (new_component 10 "task-1" 8 PRONUNCIATION) 27 28 wave2_dispatched
           (new_component 10 "task-1" 8 PRONUNCIATION)
           (Raises "ConnectionError")).
  - reflexivity.
  - unfold any_failed. vm_compute. lia.
  - repeat split; vm_compute; reflexivity.
  - vm_compute. reflexivity.
  - reflexivity.
  - apply list_elem_of_lookup. exists 7%nat. vm_compute. reflexivity.
  - reflexivity.
  - vm_compute. reflexivity.
Defined.

Section messages.
Implicit Types (parent_task : BackgroundTask)
  (components : list EvaluationComponentResult).

Lemma text_job_registered parent_task transcript flagged_words comp_entry :
  c_component_type comp_entry ∉ [TRANSCRIPTION; AUDIO_FEATURES] →
  (job_name (text_job parent_task transcript flagged_words comp_entry),
   length (job_args (text_job parent_task transcript flagged_words comp_entry)))
  ∈ registered_tasks.
Proof.
  intros Hkind. unfold text_job.
  destruct (c_component_type comp_entry); simpl.
  - destruct Hkind. by left.
  - destruct Hkind. right; by left.
  - apply list_elem_of_lookup. by exists 2%nat.
  - apply list_elem_of_lookup. by exists 3%nat.
  - apply list_elem_of_lookup. by exists 4%nat.
  - apply list_elem_of_lookup. by exists 5%nat.
  - apply list_elem_of_lookup. by exists 6%nat.
  - apply list_elem_of_lookup. by exists 7%nat.
Qed.

Lemma wave1_job_registered temp_audio_path parent_task_id question ideal_answer
    model component_entries j :
  j ∈ wave1_jobs temp_audio_path parent_task_id question ideal_answer model
        component_entries →
  (job_name j, length (job_args j)) ∈ registered_tasks.
Proof.
  unfold wave1_jobs. intros (comp_entry & _ & Hj)%list_elem_of_omap.
  destruct (c_component_type comp_entry); simplify_eq; simpl.
  - apply list_elem_of_lookup. by exists 0%nat.
  - apply list_elem_of_lookup. by exists 1%nat.
Qed.
End messages.

(** X11: every message the two handlers send names a task that is
    registered with Celery and carries as many arguments as that task
    takes: the messages of the first wave sent by the submission, and the
    text-analysis and final-summary messages sent by the evaluator. *)
Theorem sent_messages_are_registered :
  (∀ now user_id parent_task_id temp_audio_path topic difficulty question
     ideal_answer model st j,
     j ∈ broker
           (evaluate_speech_async now user_id parent_task_id temp_audio_path
              topic difficulty question ideal_answer model st).2 →
     j ∈ broker st ∨ (job_name j, length (job_args j)) ∈ registered_tasks)
  ∧ (∀ parent_task components parent_task' jobs j,
       evaluate_components parent_task components = Some (parent_task', jobs) →
       j ∈ jobs →
       (job_name j, length (job_args j)) ∈ registered_tasks).
Proof.
  split.
  - intros now user_id parent_task_id temp_audio_path topic difficulty question
      ideal_answer model st j.
    unfold evaluate_speech_async. case_bool_decide; [by left|].
    cbn [snd broker]. intros [Hj|Hj]%elem_of_app; [by left|right].
    by apply wave1_job_registered in Hj.
  - intros parent_task components parent_task' jobs j Hev Hj.
    apply evaluate_components_cases in Hev
      as [(e & _ & ->)|[(tr & w & _ & _ & ->)|(n & msg & _ & _ & _ & [->| ->])]].
    + by apply elem_of_nil in Hj.
    + apply list_elem_of_fmap in Hj as (comp_entry & -> & Hc).
      apply list_elem_of_filter in Hc as [Hkind _].
      by apply text_job_registered.
    + by apply elem_of_nil in Hj.
    + apply list_elem_of_singleton in Hj as ->.
      apply list_elem_of_lookup. by exists 8%nat.
Qed.

Lemma sent_messages_are_registered_witness :
  (job_name
     (text_job (parent_of wave1_done) (JStr "the quick brown fox") (JArr [])
        (new_component 10 "task-1" 8 PRONUNCIATION)),
   length
     (job_args
        (text_job (parent_of wave1_done) (JStr "the quick brown fox") (JArr [])
           (new_component 10 "task-1" 8 PRONUNCIATION))))
  ∈ registered_tasks.
Proof.
  apply (proj2 sent_messages_are_registered (parent_of wave1_done)
           (components_of wave1_done) (set_dispatched (parent_of wave1_done))
           (text_job (parent_of wave1_done) (JStr "the quick brown fox")
              (JArr []) <$> text_components (components_of wave1_done))).
  - vm_compute. reflexivity.
  - apply list_elem_of_lookup. exists 5%nat. vm_compute. reflexivity.
Defined.

(** X12: a worker whose component row no longer exists changes nothing and
    still succeeds: with no row under the key, the transcription task and
    [_run_component_task], whatever the analysis does, return with the state
    as it was. *)
Theorem vanished_component_is_ignored now1 now2 component_id st :
  get_component st component_id = None →
  (∀ path path_exists recognition,
     transcribe_audio_task now1 now2 component_id path path_exists recognition st
     = (SUCCESS, st))
  ∧ (∀ label analysis,
       _run_component_task now1 now2 component_id label analysis st
       = (SUCCESS, st))
  ∧ (∀ feedback,
       evaluate_grammar_task now1 now2 component_id (Returns feedback) st
       = (SUCCESS, st)).
Proof.
  intros Hget.
  assert (∀ now status msg result error,
            update_component_task_status_sync now component_id status msg result
              error st = st) as Hnoop
    by (intros; by apply update_component_absent).
  split; [|split].
  - intros path path_exists recognition. unfold transcribe_audio_task.
    destruct path_exists; simpl.
    + destruct recognition as [[|a text]|e]; simpl; by rewrite !Hnoop.
    + by rewrite !Hnoop.
  - intros label analysis. unfold _run_component_task.
    destruct analysis; by rewrite !Hnoop.
  - intros feedback. unfold evaluate_grammar_task, _run_component_task.
    by rewrite !Hnoop.
Qed.

Lemma vanished_component_is_ignored_witness :
  _run_component_task 20 21 99%nat "Text sentiment analysis"
    (Raises "timeout") wave1_done
  = (SUCCESS, wave1_done).
Proof.
  exact (proj1 (proj2 (vanished_component_is_ignored 20 21 99%nat wave1_done
                         eq_refl))
           "Text sentiment analysis" (Raises "timeout")).
Defined.

(** ** The values of the rating *)

Section rating_values.
Implicit Types (components : list EvaluationComponentResult).

Lemma rating_step_values kind key limit components :
  rating_step kind key limit components = None
  ∨ rating_step kind key limit components = Some 0%Q
  ∨ rating_step kind key limit components = Some 1%Q.
Proof.
  unfold rating_step. destruct (find _ _) as [comp|]; [|by right; left].
  destruct (c_result comp) as [payload|]; [|by left]. simpl.
  destruct (json_get payload key (JStr "")) as [feedback|]; [|by left]. simpl.
  destruct (py_len feedback) as [n|]; [|by left]. simpl.
  case_bool_decide; [right; by right|right; by left].
Qed.

(** The step of a kind whose row holds a dictionary: the feedback under
    the key decides, and a missing key counts as the empty text. *)
Lemma rating_step_of_row components kind key limit c fields :
  NoDup (c_component_type <$> components) →
  c ∈ components → c_component_type c = kind →
  c_result c = Some (JObj fields) →
  rating_step kind key limit components
  = n ← py_len (default (JStr "") (dict_lookup key fields));
    Some (if bool_decide (n < limit)%nat then 1%Q else 0%Q).
Proof.
  intros Hnd Hin Hkind Hres. unfold rating_step.
  rewrite (find_component_with_result _ _ c (JObj fields)) by done.
  by rewrite Hres.
Qed.
End rating_values.

(** X13: the rating is always 3.0, 4.0 or 5.0: no component and no payload
    takes it below the base value, and the clamp to [1.0, 5.0] never
    changes it. *)
Theorem rating_is_three_four_or_five components :
  _calculate_rating components = 3%Q
  ∨ _calculate_rating components = 4%Q
  ∨ _calculate_rating components = 5%Q.
Proof.
  unfold _calculate_rating.
  destruct (rating_step_values GRAMMAR "grammar_feedback" 300 components)
    as [-> | [-> | ->]];
    [by left | |];
    destruct (rating_step_values CONTENT_COMPARISON "content_evaluation" 500
                components) as [-> | [-> | ->]];
    vm_compute; auto.
Qed.

(** X14: what the rating makes of a grammar result without a usable
    feedback, with one row per kind.  A feedback that has no length (a
    number, a boolean, null) makes the rating 3.0 whatever the content
    feedback is: the exception ends the scoring before the content step.  A
    grammar result without the feedback key counts as an empty feedback
    and earns the point, so the rating is 4.0 or 5.0. *)
Theorem rating_of_unusual_grammar_result components c fields :
  NoDup (c_component_type <$> components) →
  c ∈ components →
  c_component_type c = GRAMMAR →
  c_result c = Some (JObj fields) →
  (∀ feedback,
     dict_lookup "grammar_feedback" fields = Some feedback →
     py_len feedback = None →
     _calculate_rating components = 3%Q)
  ∧ (dict_lookup "grammar_feedback" fields = None →
     _calculate_rating components = 4%Q ∨ _calculate_rating components = 5%Q).
Proof.
  intros Hnd Hin Hkind Hres. split.
  - intros feedback Hkey Hlen. unfold _calculate_rating.
    rewrite (rating_step_of_row _ _ _ _ c fields) by done.
    rewrite Hkey. simpl. rewrite Hlen. reflexivity.
  - intros Hkey. unfold _calculate_rating.
    rewrite (rating_step_of_row _ _ _ _ c fields) by done.
    rewrite Hkey. simpl.
    destruct (rating_step_values CONTENT_COMPARISON "content_evaluation" 500
                components) as [-> | [-> | ->]];
      vm_compute; auto.
Qed.

Lemma rating_of_unusual_grammar_result_witness :
  _calculate_rating
    [mkComponent 6 "task-1" GRAMMAR COMPLETED (Some "Analysis complete.")
       (Some (JObj [("grammar_feedback", JNull)])) None 10 24 (Some 24);
     mkComponent 7 "task-1" CONTENT_COMPARISON COMPLETED
       (Some "Analysis complete.")
       (Some (JObj [("content_evaluation", JStr "Relevant.")])) None 10 25
       (Some 25)]
  = 3%Q.
Proof.
  refine (proj1 (rating_of_unusual_grammar_result _
                   (mkComponent 6 "task-1" GRAMMAR COMPLETED
                      (Some "Analysis complete.")
                      (Some (JObj [("grammar_feedback", JNull)])) None 10 24
                      (Some 24))
                   [("grammar_feedback", JNull)] _ _ _ _) JNull _ _).
  - compute_done.
  - by left.
  - reflexivity.
  - reflexivity.
  - reflexivity.
  - reflexivity.
Defined.

(** ** Runs of the summariser *)

Section summary.
Implicit Types (st : State) (t row : BackgroundTask).

(** After the commit of a row that continues the row found under a
    [task_id], the row found under it is the committed one. *)
Lemma find_task_commit st parent_task_id p row :
  find_task st parent_task_id = Some p →
  bt_id row = bt_id p → bt_task_id row = parent_task_id →
  find_task (commit_task row st) parent_task_id = Some row.
Proof.
  unfold find_task, commit_task; simpl. intros Hfind Hid Htid.
  induction (background_tasks st) as [|x l IH]; [done|]. simpl in *.
  destruct (decide (bt_task_id x = parent_task_id)) as [Hx|Hx].
  - rewrite bool_decide_eq_true_2 in Hfind by done. injection Hfind as ->.
    rewrite (bool_decide_eq_true_2 (bt_id p = bt_id row)) by done.
    by rewrite bool_decide_eq_true_2.
  - rewrite bool_decide_eq_false_2 in Hfind by done.
    destruct (decide (bt_id x = bt_id row)) as [Hxid|Hxid].
    + rewrite (bool_decide_eq_true_2 (bt_id x = bt_id row)) by done.
      by rewrite bool_decide_eq_true_2.
    + rewrite (bool_decide_eq_false_2 (bt_id x = bt_id row)) by done.
      rewrite bool_decide_eq_false_2 by done. by apply IH.
Qed.

Lemma try_final_summary_Some now parent_task_id st st' :
  try_final_summary now parent_task_id st = Some st' →
  ∃ p s,
    find_task st parent_task_id = Some p
    ∧ final_session_data now parent_task_id p
        (completed_components_of st parent_task_id)
        (S (length (practice_sessions st))) = Some s
    ∧ (parent_task_id ∉ ps_parent_task_id <$> practice_sessions st)
    ∧ st' = commit_task (set_completed now (ps_id s) p)
              {| background_tasks := background_tasks st;
                 component_results := component_results st;
                 practice_sessions := practice_sessions st ++ [s];
                 broker := broker st |}.
Proof.
  unfold try_final_summary. intros Htry.
  apply bind_Some in Htry as (p & Hfind & Htry).
  apply bind_Some in Htry as (s & Hdata & Htry).
  case_bool_decide; [done|]. injection Htry as <-. by exists p, s.
Qed.

Lemma final_session_data_fields now parent_task_id p completed id s :
  final_session_data now parent_task_id p completed id = Some s →
  ps_id s = id
  ∧ ps_parent_task_id s = parent_task_id
  ∧ ps_rating s = _calculate_rating completed
  ∧ ps_user_id s = Some (bt_user_id p)
  ∧ ps_created_at s = now
  ∧ Some (ps_topic s) = bt_topic p
  ∧ Some (ps_question s) = bt_question p
  ∧ Some (ps_ideal_answer s) = bt_ideal_answer p.
Proof.
  unfold final_session_data. intros H.
  apply bind_Some in H as (transcript & _ & H).
  apply bind_Some in H as (topic & Htopic & H).
  apply bind_Some in H as (difficulty & _ & H).
  apply bind_Some in H as (question & Hq & H).
  apply bind_Some in H as (ideal & Hi & H).
  apply bind_Some in H as (g & _ & H).
  apply bind_Some in H as (pr & _ & H).
  apply bind_Some in H as (ce & _ & H).
  injection H as <-. simpl. by rewrite Htopic, Hq, Hi.
Qed.
End summary.

(** X15: what a successful summary leaves.  When the [try] block of the
    summariser goes through, one practice session is appended, for this
    parent and its user, with the time of the run and the rating of the
    parent's COMPLETED components; the row then found under the [task_id] is
    COMPLETED with progress 100, [completed_at] the time of the run and the
    key of that session, whichever the database gave it, as its result;
    component rows and broker are untouched. *)
Theorem successful_summary_outcome now parent_task_id st st' :
  try_final_summary now parent_task_id st = Some st' →
  create_final_summary_task now parent_task_id st = st'
  ∧ ∃ p s,
      find_task st parent_task_id = Some p
      ∧ practice_sessions st' = practice_sessions st ++ [s]
      ∧ ps_parent_task_id s = parent_task_id
      ∧ ps_user_id s = Some (bt_user_id p)
      ∧ ps_created_at s = now
      ∧ ps_rating s
        = _calculate_rating (completed_components_of st parent_task_id)
      ∧ find_task st' parent_task_id = Some (set_completed now (ps_id s) p)
      ∧ component_results st' = component_results st
      ∧ broker st' = broker st.
Proof.
  intros Htry. split; [unfold create_final_summary_task; by rewrite Htry|].
  apply try_final_summary_Some in Htry as (p & s & Hfind & Hdata & _ & ->).
  pose proof (final_session_data_fields _ _ _ _ _ _ Hdata)
    as (Hid & Hpid & Hrating & Huser & Hcreated & _).
  exists p, s. split_and!; try done.
  apply find_task_commit with p; [done..|].
  by apply find_task_elem in Hfind as [_ ?].
Qed.

Lemma successful_summary_outcome_witness :
  create_final_summary_task 40 "task-1" all_done
  = create_final_summary_task 40 "task-1" all_done
  ∧ ∃ p s,
      find_task all_done "task-1" = Some p
      ∧ practice_sessions (create_final_summary_task 40 "task-1" all_done)
        = practice_sessions all_done ++ [s]
      ∧ ps_parent_task_id s = "task-1"
      ∧ ps_user_id s = Some (bt_user_id p)
      ∧ ps_created_at s = 40
      ∧ ps_rating s = _calculate_rating (completed_components_of all_done "task-1")
      ∧ find_task (create_final_summary_task 40 "task-1" all_done) "task-1"
        = Some (set_completed 40 (ps_id s) p)
      ∧ component_results (create_final_summary_task 40 "task-1" all_done)
        = component_results all_done
      ∧ broker (create_final_summary_task 40 "task-1" all_done) = broker all_done.
Proof.
  apply (successful_summary_outcome 40 "task-1" all_done
           (create_final_summary_task 40 "task-1" all_done)).
  vm_compute. reflexivity.
Defined.

(** X16: a summary of a parent that already has a practice session
    persists nothing and marks the parent FAILED.  The insert of a second
    session of the parent fails, and the [except] branch sets the row found
    under the [task_id] to FAILED with "Failed to create final summary.",
    also when that row was COMPLETED; its progress and its result stay. *)
Theorem second_summary_fails_the_parent now parent_task_id st p :
  find_task st parent_task_id = Some p →
  parent_task_id ∈ ps_parent_task_id <$> practice_sessions st →
  create_final_summary_task now parent_task_id st
  = commit_task (set_failed "Failed to create final summary." p) st
  ∧ practice_sessions (create_final_summary_task now parent_task_id st)
    = practice_sessions st
  ∧ ∃ p', find_task (create_final_summary_task now parent_task_id st)
            parent_task_id = Some p'
          ∧ bt_status p' = FAILED
          ∧ bt_error_message p' = Some "Failed to create final summary."
          ∧ bt_progress p' = bt_progress p
          ∧ bt_result p' = bt_result p.
Proof.
  intros Hfind Hin.
  assert (create_final_summary_task now parent_task_id st
          = commit_task (set_failed "Failed to create final summary." p) st)
    as Heq.
  { unfold create_final_summary_task.
    destruct (try_final_summary now parent_task_id st) as [st'|] eqn:Htry.
    - by apply try_final_summary_Some in Htry as (_ & _ & _ & _ & Hnew & _).
    - by rewrite Hfind. }
  rewrite Heq. split; [done|]. split; [done|].
  exists (set_failed "Failed to create final summary." p). split; [|done].
  apply find_task_commit with p; [done..|].
  by apply find_task_elem in Hfind as [_ ?].
Qed.

Lemma second_summary_fails_the_parent_witness :
  create_final_summary_task 50 "task-1" summarised
  = commit_task
      (set_failed "Failed to create final summary." (parent_of summarised))
      summarised
  ∧ practice_sessions (create_final_summary_task 50 "task-1" summarised)
    = practice_sessions summarised
  ∧ ∃ p', find_task (create_final_summary_task 50 "task-1" summarised) "task-1"
          = Some p'
          ∧ bt_status p' = FAILED
          ∧ bt_error_message p' = Some "Failed to create final summary."
          ∧ bt_progress p' = bt_progress (parent_of summarised)
          ∧ bt_result p' = bt_result (parent_of summarised).
Proof.
  apply (second_summary_fails_the_parent 50 "task-1" summarised
           (parent_of summarised)).
  - vm_compute. reflexivity.
  - apply list_elem_of_lookup. exists 0%nat. vm_compute. reflexivity.
Defined.

(** X17: the summariser does not wait for the components.  For a parent
    with its submission data, no practice session yet and no COMPLETED
    component at all, the summary still goes through: it persists a session
    with the transcript "N/A", no feedback, null analysis fields and the
    rating 3.0, and marks the parent COMPLETED with progress 100 and the key
    of that session as its result. *)
Theorem summary_without_completed_components now parent_task_id st p topic
    difficulty question ideal_answer :
  find_task st parent_task_id = Some p →
  bt_topic p = Some topic →
  bt_difficulty p = Some difficulty →
  bt_question p = Some question →
  bt_ideal_answer p = Some ideal_answer →
  (parent_task_id ∉ ps_parent_task_id <$> practice_sessions st) →
  completed_components_of st parent_task_id = [] →
  ∃ s,
    practice_sessions (create_final_summary_task now parent_task_id st)
    = practice_sessions st ++ [s]
    ∧ ps_parent_task_id s = parent_task_id
    ∧ ps_topic s = topic
    ∧ ps_difficulty s = difficulty
    ∧ ps_question s = question
    ∧ ps_ideal_answer s = ideal_answer
    ∧ ps_transcript s = "N/A"
    ∧ ps_grammar_feedback s = None
    ∧ ps_pronunciation_feedback s = None
    ∧ ps_content_evaluation s = None
    ∧ ps_audio_features s = Some JNull
    ∧ ps_linguistic_features s = Some JNull
    ∧ ps_sentiment_analysis s = Some JNull
    ∧ ps_emotion_analysis s = Some JNull
    ∧ ps_rating s = 3%Q
    ∧ ps_created_at s = now
    ∧ ps_user_id s = Some (bt_user_id p)
    ∧ find_task (create_final_summary_task now parent_task_id st) parent_task_id
      = Some (set_completed now (ps_id s) p).
Proof.
  intros Hfind Htopic Hdiff Hq Hi Hnew Hnone.
  destruct (try_final_summary now parent_task_id st) as [st'|] eqn:Htry.
  - pose proof Htry as Hsome.
    apply try_final_summary_Some in Hsome as (p' & s & Hfind' & Hdata & _ & ->).
    assert (p' = p) as -> by congruence.
    unfold create_final_summary_task. rewrite Htry.
    exists s. rewrite Hnone in Hdata. unfold final_session_data in Hdata.
    rewrite Htopic, Hdiff, Hq, Hi in Hdata. simpl in Hdata.
    injection Hdata as <-. simpl. split_and!; try done.
    apply find_task_commit with p; [done..|].
    by apply find_task_elem in Hfind as [_ ?].
  - exfalso. unfold try_final_summary in Htry. rewrite Hfind in Htry.
    simpl in Htry. fold (completed_components_of st parent_task_id) in Htry.
    rewrite Hnone in Htry. unfold final_session_data in Htry.
    rewrite Htopic, Hdiff, Hq, Hi in Htry. simpl in Htry.
    by rewrite bool_decide_eq_false_2 in Htry.
Qed.

Lemma summary_without_completed_components_witness :
  ∃ s,
    practice_sessions (create_final_summary_task 20 "task-1" submitted)
    = practice_sessions submitted ++ [s]
    ∧ ps_parent_task_id s = "task-1"
    ∧ ps_topic s = "travel"
    ∧ ps_difficulty s = "easy"
    ∧ ps_question s = "Describe your last trip."
    ∧ ps_ideal_answer s = "I went to the sea."
    ∧ ps_transcript s = "N/A"
    ∧ ps_grammar_feedback s = None
    ∧ ps_pronunciation_feedback s = None
    ∧ ps_content_evaluation s = None
    ∧ ps_audio_features s = Some JNull
    ∧ ps_linguistic_features s = Some JNull
    ∧ ps_sentiment_analysis s = Some JNull
    ∧ ps_emotion_analysis s = Some JNull
    ∧ ps_rating s = 3%Q
    ∧ ps_created_at s = 20
    ∧ ps_user_id s = Some (bt_user_id (parent_of submitted))
    ∧ find_task (create_final_summary_task 20 "task-1" submitted) "task-1"
      = Some (set_completed 20 (ps_id s) (parent_of submitted)).
Proof.
  apply (summary_without_completed_components 20 "task-1" submitted
           (parent_of submitted) "travel" "easy" "Describe your last trip."
           "I went to the sea.").
  - vm_compute. reflexivity.
  - reflexivity.
  - reflexivity.
  - reflexivity.
  - reflexivity.
  - intros Hin. vm_compute in Hin. by apply elem_of_nil in Hin.
  - vm_compute. reflexivity.
Defined.

(** ** Stored results *)

Section stored_results.
Implicit Types (st : State) (c : EvaluationComponentResult).

Lemma results_are_dicts_exec o st :
  results_are_dicts st → results_are_dicts (exec o st).
Proof.
  intros Hinv. destruct o; simpl.
  - unfold evaluate_speech_async. case_bool_decide; [done|]. simpl.
    intros c [Hc|Hc]%elem_of_app; [by apply Hinv|]. left.
    repeat (apply elem_of_cons in Hc as [->|Hc]; [done|]).
    by apply elem_of_nil in Hc.
  - intros c. destruct (get_task_status_frame task_id user_id st) as (-> & _).
    apply Hinv.
  - unfold update_component_task_status_sync.
    destruct (get_component st component_id) as [c0|] eqn:Hget; [|done].
    apply find_elem_of in Hget as [Hc0 _].
    intros c (x & -> & Hx)%list_elem_of_fmap. simpl.
    case_bool_decide; [|by apply Hinv]. simpl.
    destruct (truthy_dict result) eqn:Hr.
    + destruct result as [fields|]; [|done]. right. by exists fields.
    + by apply Hinv.
  - destruct (take_job _ _) as [rest|]; [|done].
    intros c. rewrite final_summary_component_results. apply Hinv.
Qed.

Lemma results_are_dicts_reachable st : reachable st → results_are_dicts st.
Proof.
  intros [ops ->]. induction ops as [|o ops IH] using rev_ind.
  - by intros c ?%elem_of_nil.
  - unfold run. rewrite foldl_snoc. by apply results_are_dicts_exec.
Qed.

(** On rows whose results are dictionaries the evaluator does not raise. *)
Lemma evaluate_components_is_Some parent_task
    (components : list EvaluationComponentResult) :
  (∀ c, c ∈ components →
        c_result c = None ∨ ∃ fields, c_result c = Some (JObj fields)) →
  is_Some (evaluate_components parent_task components).
Proof.
  intros Hdicts.
  destruct (decide (any_failed components)) as [Hf|Hf];
    [by rewrite evaluate_failed|].
  destruct (decide (stage2_due parent_task components)) as [Hs|Hs].
  - rewrite evaluate_stage2 by done. unfold dispatch_text_tasks.
    destruct (find _ components) as [tc|] eqn:Hfind; [|done]. simpl.
    apply find_elem_of in Hfind as [Htc _].
    destruct (Hdicts tc Htc) as [-> | [fields ->]]; done.
  - destruct (decide (all_complete components)).
    + by rewrite evaluate_all_complete.
    + by rewrite evaluate_partial.
Qed.
End stored_results.

(** X18: in a reachable state a status query never fails on the stored
    data: every stored result is a dictionary, so reading the transcript
    out of the transcription result cannot raise, and the answer is either
    404 or a task status. *)
Theorem status_query_never_fails st task_id user_id :
  reachable st →
  (get_task_status task_id user_id st).1 ≠ HTTP_500
  ∧ ((get_task_status task_id user_id st).1 = HTTP_404
     ↔ load_task st task_id user_id = None).
Proof.
  intros Hreach. apply results_are_dicts_reachable in Hreach.
  unfold get_task_status.
  destruct (load_task st task_id user_id) as [[p cs]|] eqn:Hload; [|done].
  apply load_task_elem in Hload as (_ & _ & ->).
  unfold finish_task_status. case_bool_decide; [|done].
  destruct (evaluate_components_is_Some p
              (filter (λ c, c_parent_task_id c = task_id) (component_results st)))
    as [[p' jobs] ->]; [|done].
  intros c [_ Hc]%list_elem_of_filter. by apply Hreach.
Qed.

Lemma status_query_never_fails_witness :
  (get_task_status "task-1" 1%nat wave1_done).1 ≠ HTTP_500
  ∧ ((get_task_status "task-1" 1%nat wave1_done).1 = HTTP_404
     ↔ load_task wave1_done "task-1" 1%nat = None).
Proof.
  apply (status_query_never_fails wave1_done "task-1" 1%nat).
  exists (take 5 ops_until_aggregating). vm_compute. reflexivity.
Defined.

(** ** The language model client and the question generator *)

Section strings_in.

Lemma is_prefix_spec needle hay :
  is_prefix needle hay = true ↔ ∃ post, hay = needle +:+ post.
Proof.
  revert hay. induction needle as [|a n IH]; intros hay; simpl.
  - split; [|done]. intros _. by exists hay.
  - destruct hay as [|b h].
    + split; [done|]. by intros [post ?].
    + rewrite andb_true_iff, bool_decide_eq_true, IH. split.
      * intros [-> [post ->]]. by exists post.
      * intros [post [= -> ->]]. split; [done|]. by exists post.
Qed.

Lemma is_substring_spec needle hay :
  is_substring needle hay = true ↔ ∃ pre post, hay = pre +:+ needle +:+ post.
Proof.
  induction hay as [|b h IH]; simpl.
  - rewrite orb_false_r, is_prefix_spec. split.
    + intros [post ->]. by exists "", post.
    + intros (pre & post & H). destruct pre; [by exists post|done].
  - rewrite orb_true_iff, is_prefix_spec, IH. split.
    + intros [[post ->]|(pre & post & ->)].
      * by exists "", post.
      * by exists (String b pre), post.
    + intros ([|a pre] & post & H).
      * left. by exists post.
      * right. injection H as -> ->. by exists pre, post.
Qed.
End strings_in.

Section ollama.

Lemma scan_lines_passed_over skipped rest :
  Forall passed_over skipped →
  scan_lines (skipped ++ rest) = scan_lines rest.
Proof.
  induction 1 as [|line skipped Hline _ IH]; [done|]. simpl.
  destruct Hline as [-> | (data & -> & Hin)]; [done|]. by rewrite Hin.
Qed.
End ollama.

(** X19: what [call_ollama] makes of the answer of the model server.  Once
    the request is answered it always returns: it passes over every line
    that does not parse and every container without "response", and the
    first other line decides.  A dictionary with the key gives the value
    under it, whatever lines follow; a string or a list that contains
    "response", and a number, a boolean or null, give the call-failed
    message; when all lines were passed over the result is the
    could-not-parse message.  Every answer falls under one of these cases,
    and only an exception of the request itself leaves the function. *)
Theorem ollama_reply_is_first_response skipped rest :
  Forall passed_over skipped →
  (∀ fields value,
     dict_lookup "response" fields = Some value →
     call_ollama (Returns (skipped ++ Some (JObj fields) :: rest))
     = Returns (Reply value))
  ∧ call_ollama (Returns skipped) = Returns CouldNotParse
  ∧ (∀ data,
       py_in "response" data = None →
       call_ollama (Returns (skipped ++ Some data :: rest)) = Returns CallFailed)
  ∧ (∀ data,
       py_in "response" data = Some true →
       (∀ fields, data ≠ JObj fields) →
       call_ollama (Returns (skipped ++ Some data :: rest)) = Returns CallFailed)
  ∧ (∀ raw_lines,
       (Forall passed_over raw_lines
        ∨ ∃ before data after,
            raw_lines = before ++ Some data :: after
            ∧ Forall passed_over before
            ∧ (py_in "response" data = None
               ∨ py_in "response" data = Some true
                 ∧ ((∀ fields, data ≠ JObj fields)
                    ∨ ∃ fields value,
                        data = JObj fields
                        ∧ dict_lookup "response" fields = Some value)))
       ∧ ∃ reply, call_ollama (Returns raw_lines) = Returns reply)
  ∧ (∀ e, call_ollama (Raises e) = Raises e).
Proof.
  intros Hskipped. split_and!.
  - intros fields value Hvalue. simpl.
    rewrite scan_lines_passed_over by done. simpl.
    by rewrite Hvalue.
  - simpl. rewrite <- (app_nil_r skipped).
    by rewrite scan_lines_passed_over.
  - intros data Hdata. simpl.
    rewrite scan_lines_passed_over by done. simpl. by rewrite Hdata.
  - intros data Hdata Hnodict. simpl.
    rewrite scan_lines_passed_over by done. simpl. rewrite Hdata.
    destruct data; try done. by destruct (Hnodict fields).
  - intros raw_lines. split; [|by eexists].
    induction raw_lines as [|line raw_lines IH]; [by left|].
    destruct line as [data|].
    + destruct (py_in "response" data) as [[]|] eqn:Hin.
      * right. exists [], data, raw_lines. split_and!; [done|done|].
        right. split; [done|].
        destruct data as [|b|n|q|text|items|fields];
          try (left; intros ? [=]; fail).
        right. simpl in Hin. injection Hin as Hin.
        apply bool_decide_eq_true in Hin as [value Hvalue].
        by exists fields, value.
      * destruct IH as [Hall|(before & d & after & -> & Hbefore & Hd)].
        -- left. apply Forall_cons. split; [|done]. right. by exists data.
        -- right. exists (Some data :: before), d, after.
           split_and!; [done| |done].
           apply Forall_cons. split; [|done]. right. by exists data.
      * right. exists [], data, raw_lines. split_and!; [done|done|by left].
    + destruct IH as [Hall|(before & d & after & -> & Hbefore & Hd)].
      * left. apply Forall_cons. split; [by left|done].
      * right. exists (None :: before), d, after. split_and!; [done| |done].
        apply Forall_cons. split; [by left|done].
  - done.
Qed.

Lemma ollama_reply_is_first_response_witness :
  call_ollama
    (Returns ([None; Some (JObj [("done", JBool false)])]
              ++ Some (JObj [("response", JStr "Fine."); ("done", JBool true)])
                 :: [Some (JObj [("response", JStr "Later.")])]))
  = Returns (Reply (JStr "Fine.")).
Proof.
  refine (proj1 (ollama_reply_is_first_response
                   [None; Some (JObj [("done", JBool false)])]
                   [Some (JObj [("response", JStr "Later.")])] _)
            [("response", JStr "Fine."); ("done", JBool true)] (JStr "Fine.") _).
  - apply Forall_cons. split; [by left|].
    apply Forall_cons. split; [|by apply Forall_nil].
    right. eexists. split; reflexivity.
  - reflexivity.
Defined.

Lemma default_error_text key fields dflt text :
  default (JStr dflt) (dict_lookup key fields) = JStr text →
  is_substring "Error:" text = false →
  is_substring "Error:" dflt = true →
  dict_lookup key fields = Some (JStr text).
Proof.
  destruct (dict_lookup key fields) as [v|]; simpl; [by intros ->|].
  intros [= ->]. congruence.
Qed.

(** X20: the question endpoint answers with a question only when the text
    of the model is a JSON dictionary whose "question" and "ideal_answer" are
    both texts that do not contain "Error:"; then it returns exactly these
    two texts.  A text of the model that is not JSON, that is JSON but no
    dictionary, or that lacks one of the two keys ends in the status 500. *)
Theorem question_only_from_model_json loaded question ideal_answer :
  generate_question loaded = QuestionResponse question ideal_answer
  ↔ ∃ fields,
      loaded = Some (JObj fields)
      ∧ dict_lookup "question" fields = Some (JStr question)
      ∧ dict_lookup "ideal_answer" fields = Some (JStr ideal_answer)
      ∧ (¬ ∃ pre post, question = pre +:+ "Error:" +:+ post)
      ∧ (¬ ∃ pre post, ideal_answer = pre +:+ "Error:" +:+ post).
Proof.
  split.
  - unfold generate_question, generate_question_and_answer, py_in, validate_str.
    intros H. destruct loaded as [[| | | | | |fields]|]; try done.
    repeat (case_match; try done); simplify_eq.
    exists fields. split; [done|].
    split; [eapply default_error_text; [eassumption|eassumption|reflexivity]|].
    split; [eapply default_error_text; [eassumption|eassumption|reflexivity]|].
    split; intros ?%is_substring_spec; congruence.
  - intros (fields & -> & Hq & Ha & Hnq & Hna).
    unfold generate_question, generate_question_and_answer.
    rewrite Hq, Ha. simpl.
    destruct (is_substring "Error:" question) eqn:Eq;
      [by apply is_substring_spec in Eq|].
    destruct (is_substring "Error:" ideal_answer) eqn:Ea;
      [by apply is_substring_spec in Ea|].
    done.
Qed.

Lemma question_only_from_model_json_witness :
  generate_question
    (Some (JObj [("question", JStr "Where do you live?");
                 ("ideal_answer", JStr "I live in Pune.")]))
  = QuestionResponse "Where do you live?" "I live in Pune.".
Proof.
  apply (proj2 (question_only_from_model_json
                  (Some (JObj [("question", JStr "Where do you live?");
                               ("ideal_answer", JStr "I live in Pune.")]))
                  "Where do you live?" "I live in Pune.")).
  eexists. split; [reflexivity|]. split; [reflexivity|]. split; [reflexivity|].
  split; intros H; apply is_substring_spec in H; vm_compute in H; discriminate.
Defined.

(** ** Accounts and tokens *)

Section tokens.
Implicit Types (d upd : list (string * json)) (users : list User).

Lemma dict_lookup_set key v d k :
  dict_lookup k (dict_set key v d)
  = if decide (key = k) then Some v else dict_lookup k d.
Proof.
  induction d as [|[k' w] d IH]; simpl.
  - by destruct (decide (key = k)).
  - destruct (decide (k' = key)) as [->|Hne]; simpl.
    + by destruct (decide (key = k)).
    + destruct (decide (k' = k)) as [->|?]; [|done].
      by rewrite decide_False by done.
Qed.

(** A key that the update does not name keeps its value. *)
Lemma dict_lookup_update_other d upd k :
  k ∉ upd.*1 → dict_lookup k (dict_update d upd) = dict_lookup k d.
Proof.
  unfold dict_update. revert d.
  induction upd as [|[key v] upd IH]; intros d Hk; [done|]. simpl in *.
  apply not_elem_of_cons in Hk as [Hne Hk].
  rewrite IH by done. rewrite dict_lookup_set. by rewrite decide_False.
Qed.

Lemma find_user_email users email user :
  find_user users email = Some user → u_email user = email.
Proof.
  intros [_ H]%find_elem_of. by apply bool_decide_eq_true in H.
Qed.

Lemma issued_claims_sub email expires_delta expire now jti :
  dict_lookup "sub"
    (create_access_token [("sub", JStr email)] expires_delta expire now jti)
  = Some (JStr email)
  ∧ dict_lookup "sub"
      (create_refresh_token [("sub", JStr email)] expires_delta expire now jti)
    = Some (JStr email)
  ∧ dict_lookup "type"
      (create_access_token [("sub", JStr email)] expires_delta expire now jti)
    = None
  ∧ dict_lookup "type"
      (create_refresh_token [("sub", JStr email)] expires_delta expire now jti)
    = None.
Proof.
  unfold create_access_token, create_refresh_token.
  rewrite !dict_lookup_update_other; [done|compute_done..].
Qed.
Lemma find_app_r_user users (email : string) (rest : list User) :
  find_user users email = None →
  find (λ u, bool_decide (u_email u = email)) (users ++ rest)
  = find (λ u, bool_decide (u_email u = email)) rest.
Proof.
  unfold find_user. induction users as [|u users IH]; [done|]. simpl.
  destruct (bool_decide (u_email u = email)); [done|]. apply IH.
Qed.
End tokens.

(** X21: the refresh endpoint accepts none of the tokens the application
    issues.  A refresh token carries the claim "token_type", the endpoint
    asks for the claim "type": for the two tokens of any successful login,
    whatever the accounts and the clock, it answers 401 "Invalid refresh
    token". *)
Theorem issued_tokens_cannot_refresh verify_password username password users
    access_expire refresh_expire now jti_access jti_refresh access_token
    refresh_token users' now' jti_access' jti_refresh' :
  login_for_access_token verify_password username password users access_expire
    refresh_expire now jti_access jti_refresh
  = Tokens access_token refresh_token →
  refresh_access_token (Some refresh_token) users' access_expire refresh_expire
    now' jti_access' jti_refresh'
  = HTTP_401 "Invalid refresh token"
  ∧ refresh_access_token (Some access_token) users' access_expire refresh_expire
      now' jti_access' jti_refresh'
    = HTTP_401 "Invalid refresh token".
Proof.
  unfold login_for_access_token.
  destruct (find_user users username) as [user|]; [|done].
  destruct (verify_password password (u_hashed_password user)); [|done].
  intros [= <- <-].
  destruct (issued_claims_sub (u_email user) None access_expire now jti_access)
    as (_ & _ & Ha & _).
  destruct (issued_claims_sub (u_email user) None refresh_expire now jti_refresh)
    as (_ & _ & _ & Hr).
  unfold refresh_access_token. by rewrite Ha, Hr.
Qed.

Lemma issued_tokens_cannot_refresh_witness :
  refresh_access_token
    (Some (create_refresh_token [("sub", JStr "asha@example.org")] None 604800
             100 "jti-2"))
    one_user 1800 604800 200 "jti-3" "jti-4"
  = HTTP_401 "Invalid refresh token"
  ∧ refresh_access_token
      (Some (create_access_token [("sub", JStr "asha@example.org")] None 1800
               100 "jti-1"))
      one_user 1800 604800 200 "jti-3" "jti-4"
    = HTTP_401 "Invalid refresh token".
Proof.
  apply (issued_tokens_cannot_refresh sample_verify "asha@example.org" "secret"
           one_user 1800 604800 100 "jti-1" "jti-2").
  reflexivity.
Defined.

(** X22: a refresh token opens every endpoint that asks for an access
    token.  [get_current_user] only reads the claim "sub", so with either
    token of a successful login it returns the account that logged in, as
    long as the account exists. *)
Theorem refresh_token_authenticates verify_password username password users
    access_expire refresh_expire now jti_access jti_refresh access_token
    refresh_token :
  login_for_access_token verify_password username password users access_expire
    refresh_expire now jti_access jti_refresh
  = Tokens access_token refresh_token →
  ∃ user,
    find_user users username = Some user
    ∧ get_current_user (Some access_token) users = Authenticated user
    ∧ get_current_user (Some refresh_token) users = Authenticated user.
Proof.
  unfold login_for_access_token.
  destruct (find_user users username) as [user|] eqn:Hfind; [|done].
  destruct (verify_password password (u_hashed_password user)); [|done].
  intros [= <- <-]. exists user. split; [done|].
  pose proof (find_user_email _ _ _ Hfind) as Hemail.
  destruct (issued_claims_sub (u_email user) None access_expire now jti_access)
    as (Ha & _).
  destruct (issued_claims_sub (u_email user) None refresh_expire now jti_refresh)
    as (_ & Hr & _).
  unfold get_current_user, claim_is_none, user_of_sub.
  rewrite Ha, Hr, Hemail, Hfind. done.
Qed.

Lemma refresh_token_authenticates_witness :
  ∃ user,
    find_user one_user "asha@example.org" = Some user
    ∧ get_current_user
        (Some (create_access_token [("sub", JStr "asha@example.org")] None 1800
                 100 "jti-1")) one_user = Authenticated user
    ∧ get_current_user
        (Some (create_refresh_token [("sub", JStr "asha@example.org")] None
                 604800 100 "jti-2")) one_user = Authenticated user.
Proof.
  apply (refresh_token_authenticates sample_verify "asha@example.org" "secret"
           one_user 1800 604800 100 "jti-1" "jti-2").
  reflexivity.
Defined.

(** X23: registration keeps one account per e-mail address, and a
    registered account can log in.  A second registration of an address is
    answered 400 and changes nothing; a first one appends the account, keeps
    the addresses distinct, and a login with that address and a password the
    stored hash verifies returns tokens whose "sub" is the address. *)
Theorem register_then_login now email full_name hashed_password users
    verify_password password access_expire refresh_expire now' jti_access
    jti_refresh :
  NoDup (u_email <$> users) →
  NoDup (u_email <$> (register_user now email full_name hashed_password users).2)
  ∧ (email ∈ u_email <$> users →
     register_user now email full_name hashed_password users
     = (HTTP_400 "Email already registered", users))
  ∧ ((email ∉ u_email <$> users) →
     verify_password password hashed_password = true →
     ∃ access_token refresh_token,
       login_for_access_token verify_password email password
         (register_user now email full_name hashed_password users).2
         access_expire refresh_expire now' jti_access jti_refresh
       = Tokens access_token refresh_token
       ∧ dict_lookup "sub" access_token = Some (JStr email)
       ∧ dict_lookup "sub" refresh_token = Some (JStr email)).
Proof.
  intros Hnd.
  assert (find_user users email = None ↔ email ∉ u_email <$> users) as Hfind.
  { unfold find_user. split.
    - intros Hnone (u & -> & Hu)%list_elem_of_fmap.
      apply list_elem_of_In in Hu.
      pose proof (find_none _ _ Hnone u Hu) as H. simpl in H.
      by rewrite bool_decide_eq_true_2 in H.
    - intros Hnot. destruct (find _ users) as [u|] eqn:Hu; [|done].
      apply find_elem_of in Hu as [Hu He]. apply bool_decide_eq_true in He.
      destruct Hnot. rewrite <- He. by apply list_elem_of_fmap_2. }
  unfold register_user.
  destruct (find_user users email) as [u|] eqn:Hu.
  - split; [done|]. split; [done|].
    intros Hnot. apply Hfind in Hnot. done.
  - pose proof (proj1 Hfind eq_refl) as Hnot. cbn [snd]. split; [|split].
    + rewrite fmap_app. apply NoDup_app. split; [done|].
      split; [|apply NoDup_singleton].
      intros x Hx ->%list_elem_of_singleton. done.
    + done.
    + intros _ Hverify. unfold login_for_access_token, find_user.
      rewrite find_app_r_user by done. simpl.
      rewrite bool_decide_eq_true_2 by done. simpl. rewrite Hverify.
      eexists _, _. split; [done|].
      destruct (issued_claims_sub email None access_expire now' jti_access)
        as (Ha & _).
      destruct (issued_claims_sub email None refresh_expire now' jti_refresh)
        as (_ & Hr & _).
      done.
Qed.

Lemma register_then_login_witness :
  NoDup (u_email <$> one_user)
  ∧ ∃ access_token refresh_token,
      login_for_access_token sample_verify "asha@example.org" "secret" one_user
        1800 604800 100 "jti-1" "jti-2"
      = Tokens access_token refresh_token
      ∧ dict_lookup "sub" access_token = Some (JStr "asha@example.org")
      ∧ dict_lookup "sub" refresh_token = Some (JStr "asha@example.org").
Proof.
  destruct (register_then_login 5 "asha@example.org" (Some "Asha") "$2b$12$hash"
              [] sample_verify "secret" 1800 604800 100 "jti-1" "jti-2")
    as (Hnodup & _ & Hlogin); [apply NoDup_nil_2|].
  split; [exact Hnodup|].
  apply Hlogin; [apply not_elem_of_nil|reflexivity].
Defined.

(** ** Who can read a practice session *)

Section sessions.
Implicit Types (st : State) (o : op) (ops : list op).

Lemma owners_commit st row t :
  store_inv st → t ∈ background_tasks st →
  bt_id row = bt_id t → owner_of row = owner_of t →
  owners (commit_task row st) = owners st.
Proof.
  intros Hinv Ht Hid Hown. unfold owners. apply commit_task_fmap.
  intros t' Ht' Hid'. rewrite Hown. f_equal.
  apply (store_inv_task_key st); [done..|congruence].
Qed.

Lemma evaluate_components_owner parent_task components parent_task' jobs :
  evaluate_components parent_task components = Some (parent_task', jobs) →
  bt_id parent_task' = bt_id parent_task
  ∧ owner_of parent_task' = owner_of parent_task.
Proof.
  intros Hev.
  destruct (evaluate_components_cases _ _ _ _ Hev)
    as [(? & -> & _)|[(? & ? & -> & _)|(? & ? & -> & _)]]; done.
Qed.

Lemma owners_get_task_status task_id user_id st :
  store_inv st → owners (get_task_status task_id user_id st).2 = owners st.
Proof.
  intros Hinv. unfold get_task_status.
  destruct (load_task st task_id user_id) as [[parent_task components]|] eqn:Hload;
    [|done].
  apply load_task_elem in Hload as (Hin & _ & _).
  unfold finish_task_status. case_bool_decide; [|done].
  destruct (evaluate_components parent_task components) as [[parent_task' jobs]|]
    eqn:Hev; [|done].
  apply evaluate_components_owner in Hev as [Hid Hown]. simpl.
  change (owners (commit_task parent_task' (send_jobs jobs st)))
    with (owners (commit_task parent_task' st)).
  by apply owners_commit with parent_task.
Qed.

(** What the summariser does to the sessions and the owners: nothing, or
    one session more, owned by the user of its parent. *)
Lemma final_summary_sessions now parent_task_id st :
  store_inv st →
  owners (create_final_summary_task now parent_task_id st) = owners st
  ∧ (practice_sessions (create_final_summary_task now parent_task_id st)
     = practice_sessions st
     ∨ ∃ p s,
         practice_sessions (create_final_summary_task now parent_task_id st)
         = practice_sessions st ++ [s]
         ∧ ps_id s = S (length (practice_sessions st))
         ∧ ps_user_id s = Some (bt_user_id p)
         ∧ (ps_parent_task_id s, bt_user_id p) ∈ owners st).
Proof.
  intros Hinv. unfold create_final_summary_task.
  destruct (try_final_summary now parent_task_id st) as [st'|] eqn:Htry.
  - apply try_final_summary_Some in Htry as (p & s & Hfind & Hdata & _ & ->).
    apply find_task_elem in Hfind as [Hin Htid].
    pose proof (final_session_data_fields _ _ _ _ _ _ Hdata)
      as (Hid & Hpid & _ & Huser & _).
    split.
    + match goal with
      | |- owners (commit_task ?row ?lit) = _ =>
          change (owners (commit_task row lit)) with (owners (commit_task row st))
      end.
      by apply owners_commit with p.
    + right. exists p, s. simpl. split_and!; [done..|].
      rewrite Hpid, <- Htid. unfold owners. by apply (list_elem_of_fmap_2 owner_of).
  - destruct (find_task st parent_task_id) as [p|] eqn:Hfind; [|by split; [|left]].
    apply find_task_elem in Hfind as [Hin _].
    split; [|by left]. by apply owners_commit with p.
Qed.

(** An operation leaves the owners as they are, or is a submission that
    adds its own. *)
Lemma owners_exec o st :
  store_inv st →
  owners (exec o st) = owners st
  ∨ ∃ now user_id task_id temp_audio_path topic difficulty question ideal_answer
      model,
      o = Submit now user_id task_id temp_audio_path topic difficulty question
            ideal_answer model
      ∧ owners (exec o st) = owners st ++ [(task_id, user_id)].
Proof.
  intros Hinv. destruct o as [now u tid path topic diff q ia m|tid u|????? e|now tid];
    simpl.
  - unfold evaluate_speech_async. case_bool_decide; [by left|].
    right. exists now, u, tid, path, topic, diff, q, ia, m. split; [done|].
    unfold owners. simpl. by rewrite fmap_app.
  - left. by apply owners_get_task_status.
  - left. unfold owners. by rewrite report_background_tasks.
  - left. destruct (take_job _ _) as [rest|]; [|done].
    apply (store_inv_with_broker rest) in Hinv.
    by destruct (final_summary_sessions now tid _ Hinv) as [-> _].
Qed.

Lemma owners_exec_subseteq o st x :
  store_inv st → x ∈ owners st → x ∈ owners (exec o st).
Proof.
  intros Hinv Hx.
  destruct (owners_exec o st Hinv) as [->|(?&?&?&?&?&?&?&?&?& _ & ->)]; [done|].
  apply elem_of_app. by left.
Qed.

Lemma report_practice_sessions now component_id status msg result error st :
  practice_sessions
    (update_component_task_status_sync now component_id status msg result error st)
  = practice_sessions st.
Proof.
  unfold update_component_task_status_sync.
  by destruct (get_component st component_id).
Qed.

Lemma sessions_owned_exec o st :
  store_inv st → sessions_owned st → sessions_owned (exec o st).
Proof.
  intros Hinv [Hids Hown].
  assert (practice_sessions (exec o st) = practice_sessions st
          → sessions_owned (exec o st)) as Hsame.
  { intros Heq. split; rewrite Heq; [done|].
    intros s Hs. destruct (Hown s Hs) as (u & Hu & Hin).
    exists u. split; [done|]. by apply owners_exec_subseteq. }
  destruct o as [now u tid path topic diff q ia m|tid u|????? e|now tid].
  - apply Hsame. simpl. unfold evaluate_speech_async. by case_bool_decide.
  - apply Hsame. simpl. by destruct (get_task_status_frame tid u st) as (_ & -> & _).
  - apply Hsame. simpl. apply report_practice_sessions.
  - simpl in *. destruct (take_job _ _) as [rest|]; [|by split].
    apply (store_inv_with_broker rest) in Hinv.
    destruct (final_summary_sessions now tid _ Hinv)
      as [Hsameown [Heq|(p & s & Heq & Hid & Hu & Hin)]].
    + by apply Hsame.
    + split.
      * rewrite Heq. simpl. rewrite fmap_app, length_app, Hids. simpl.
        rewrite Nat.add_1_r, seq_S. by rewrite Hid.
      * rewrite Heq, Hsameown. simpl.
        intros s' [Hs'| ->%list_elem_of_singleton]%elem_of_app.
        -- by apply Hown.
        -- by exists (bt_user_id p).
Qed.

Lemma run_snoc ops o st : run (ops ++ [o]) st = exec o (run ops st).
Proof. unfold run. by rewrite foldl_snoc. Qed.

Lemma run_reachable ops : reachable (run ops empty_state).
Proof. by exists ops. Qed.

Lemma sessions_owned_run ops : sessions_owned (run ops empty_state).
Proof.
  induction ops as [|o ops IH] using rev_ind.
  - split; [done|]. by intros s Hs%elem_of_nil.
  - rewrite run_snoc. apply sessions_owned_exec; [|done].
    apply store_inv_reachable, run_reachable.
Qed.

Lemma submitted_by_snoc ops o task_id user_id :
  submitted_by ops task_id user_id → submitted_by (ops ++ [o]) task_id user_id.
Proof.
  intros (now & path & topic & diff & q & ia & m & Hin).
  exists now, path, topic, diff, q, ia, m. apply elem_of_app. by left.
Qed.

(** Every parent row was added by a submission of its user. *)
Lemma owners_submitted ops task_id user_id :
  (task_id, user_id) ∈ owners (run ops empty_state) →
  submitted_by ops task_id user_id.
Proof.
  induction ops as [|o ops IH] using rev_ind.
  - by intros H%elem_of_nil.
  - rewrite run_snoc.
    destruct (owners_exec o (run ops empty_state))
      as [->|(now & u & tid & path & topic & diff & q & ia & m & -> & ->)].
    + apply store_inv_reachable, run_reachable.
    + intros H. by apply submitted_by_snoc, IH.
    + intros [H|[= -> ->]%list_elem_of_singleton]%elem_of_app.
      * by apply submitted_by_snoc, IH.
      * exists now, path, topic, diff, q, ia, m. apply elem_of_app. right.
        by apply list_elem_of_singleton.
Qed.

Lemma sessions_owned_key st s s' :
  sessions_owned st → s ∈ practice_sessions st → s' ∈ practice_sessions st →
  ps_id s = ps_id s' → s = s'.
Proof.
  intros [Hids _]. apply NoDup_fmap_elem_inj. rewrite Hids. apply NoDup_seq.
Qed.

Lemma get_session_details_owned st s user_id :
  sessions_owned st → s ∈ practice_sessions st →
  get_session_details (ps_id s) user_id st
  = if decide (ps_user_id s = Some user_id) then PracticeSessionRead s
    else Session_404.
Proof.
  intros Hown Hs. unfold get_session_details.
  destruct (find _ _) as [s'|] eqn:Hfind.
  - apply find_elem_of in Hfind as [Hs' Hp].
    apply andb_true_iff in Hp as [Hid%bool_decide_eq_true Hu%bool_decide_eq_true].
    assert (s' = s) as -> by by apply (sessions_owned_key st).
    by rewrite decide_True.
  - destruct (decide (ps_user_id s = Some user_id)) as [Hu|]; [|done].
    apply list_elem_of_In in Hs.
    pose proof (find_none _ _ Hfind s Hs) as Hnone. simpl in Hnone.
    by rewrite !bool_decide_eq_true_2 in Hnone.
Qed.
End sessions.

(** X24: a practice session can be read only by the user whose task
    produced it.  After any run of the pipeline, every stored session has a
    parent row with its [parent_task_id]; that row was added by a submission
    of the row's user; and the session endpoint, asked for the session's
    key, returns the session to this user and answers 404 to every other
    one. *)
Theorem session_read_only_by_owner ops s :
  s ∈ practice_sessions (run ops empty_state) →
  ∃ p,
    p ∈ background_tasks (run ops empty_state)
    ∧ bt_task_id p = ps_parent_task_id s
    ∧ submitted_by ops (bt_task_id p) (bt_user_id p)
    ∧ ∀ user_id,
        get_session_details (ps_id s) user_id (run ops empty_state)
        = if decide (user_id = bt_user_id p) then PracticeSessionRead s
          else Session_404.
Proof.
  intros Hs. pose proof (sessions_owned_run ops) as Hown.
  destruct (proj2 Hown s Hs) as (u & Hu & Hin).
  pose proof (owners_submitted _ _ _ Hin) as Hsub.
  apply list_elem_of_fmap in Hin as (p & [= Htid Huid] & Hp).
  exists p. split_and!; [done|done|by rewrite <- Htid, <- Huid|].
  intros user_id. rewrite (get_session_details_owned _ _ _ Hown Hs), Hu, <- Huid.
  destruct (decide (user_id = u)) as [->|Hne].
  - by rewrite decide_True.
  - rewrite decide_False; [done|]. congruence.
Qed.

Lemma session_read_only_by_owner_witness :
  ∃ s,
    head (practice_sessions (run ops_until_summarised empty_state)) = Some s
    ∧ ∃ p,
        p ∈ background_tasks (run ops_until_summarised empty_state)
        ∧ bt_task_id p = ps_parent_task_id s
        ∧ submitted_by ops_until_summarised (bt_task_id p) (bt_user_id p)
        ∧ ∀ user_id,
            get_session_details (ps_id s) user_id
              (run ops_until_summarised empty_state)
            = if decide (user_id = bt_user_id p) then PracticeSessionRead s
              else Session_404.
Proof.
  destruct (practice_sessions (run ops_until_summarised empty_state))
    as [|s l] eqn:Hsessions; [vm_compute in Hsessions; discriminate|].
  exists s. split; [done|].
  apply (session_read_only_by_owner ops_until_summarised s).
  rewrite Hsessions. apply list_elem_of_here.
Defined.

(** X25: the history of a user is the sessions of the user's own tasks,
    newest first.  After any run of the pipeline, the list the history
    endpoint returns is ordered by [created_at] descending, and a session is
    in it exactly when it is stored and the parent row with its
    [parent_task_id] belongs to the caller. *)
Theorem history_lists_own_sessions ops user_id :
  Sorted newer_first (read_user_history user_id (run ops empty_state))
  ∧ ∀ s,
      s ∈ read_user_history user_id (run ops empty_state)
      ↔ s ∈ practice_sessions (run ops empty_state)
        ∧ ∃ p, p ∈ background_tasks (run ops empty_state)
               ∧ bt_task_id p = ps_parent_task_id s
               ∧ bt_user_id p = user_id.
Proof.
  assert (Total newer_first) as Htotal.
  { intros s1 s2. unfold newer_first. lia. }
  split; [apply Sorted_merge_sort; apply _|].
  intros s. unfold read_user_history. rewrite merge_sort_Permutation.
  rewrite list_elem_of_filter.
  pose proof (sessions_owned_run ops) as Hown.
  pose proof (store_inv_reachable _ (run_reachable ops)) as Hinv.
  split.
  - intros [Hu Hs]. split; [done|].
    destruct (proj2 Hown s Hs) as (u & Hu' & Hin).
    apply list_elem_of_fmap in Hin as (p & [= Htid Huid] & Hp).
    exists p. split_and!; [done..|]. congruence.
  - intros [Hs (p & Hp & Htid & Huid)]. split; [|done].
    destruct (proj2 Hown s Hs) as (u & Hu' & Hin).
    apply list_elem_of_fmap in Hin as (p' & [= Htid' Huid'] & Hp').
    assert (p = p') as <-.
    { apply (store_inv_task_id _ _ _ Hinv Hp Hp'). congruence. }
    congruence.
Qed.

(** ** Bookings *)

Section bookings.
Import booking.
Implicit Types (b : BookingSlot) (bookings : list BookingSlot).

Lemma expired_mark_no_show now now' b : expired now' (mark_no_show now b) = false.
Proof. unfold expired. simpl. by rewrite andb_false_r. Qed.

Lemma expired_later now d b :
  expired now b = true → expired (now + Z.of_nat d) b = true.
Proof.
  unfold expired. intros [H1%bool_decide_eq_true H2]%andb_true_iff.
  rewrite H2, andb_true_r. apply bool_decide_eq_true. lia.
Qed.
End bookings.

(** X26: what the clean-up of expired bookings does to the table.  After
    it no SCHEDULED booking lies in the past; exactly the SCHEDULED bookings
    of the past have become NO_SHOW, with [updated_at] the time of the run,
    and there are as many of them as the task logs; every other booking, and
    every other column, is as before; running it again at the same time
    changes nothing, a later run gives the states a single run at the later
    time gives; and the reminders of the same moment are the same before and
    after the clean-up. *)
Theorem expired_bookings_become_no_show now bookings :
  let cleaned := booking.cleanup_expired_bookings now bookings in
  (∀ b, b ∈ cleaned → booking.b_status b = booking.SCHEDULED →
        now ≤ booking.b_scheduled_time b)
  ∧ (∀ i b, bookings !! i = Some b →
       ∃ b', cleaned !! i = Some b'
         ∧ booking.b_id b' = booking.b_id b
         ∧ booking.b_user_id b' = booking.b_user_id b
         ∧ booking.b_scheduled_time b' = booking.b_scheduled_time b
         ∧ booking.b_duration_minutes b' = booking.b_duration_minutes b
         ∧ booking.b_session_type b' = booking.b_session_type b
         ∧ booking.b_topic b' = booking.b_topic b
         ∧ booking.b_notes b' = booking.b_notes b
         ∧ booking.b_created_at b' = booking.b_created_at b
         ∧ (booking.b_scheduled_time b < now
            ∧ booking.b_status b = booking.SCHEDULED
            ∧ booking.b_status b' = booking.NO_SHOW
            ∧ booking.b_updated_at b' = now
            ∨ ¬ (booking.b_scheduled_time b < now
                 ∧ booking.b_status b = booking.SCHEDULED)
              ∧ b' = b))
  ∧ length cleaned = length bookings
  ∧ length (filter (λ b, booking.b_status b = booking.NO_SHOW) cleaned)
    = (length (filter (λ b, booking.b_status b = booking.NO_SHOW) bookings)
       + booking.count_expired now bookings)%nat
  ∧ booking.cleanup_expired_bookings now cleaned = cleaned
  ∧ (∀ d : nat,
       booking.b_status
         <$> booking.cleanup_expired_bookings (now + Z.of_nat d) cleaned
       = booking.b_status
           <$> booking.cleanup_expired_bookings (now + Z.of_nat d) bookings)
  ∧ (∀ day users,
       booking.send_booking_reminder day now cleaned users
       = booking.send_booking_reminder day now bookings users).
Proof.
  intros cleaned. subst cleaned. unfold booking.cleanup_expired_bookings.
  split_and!.
  - intros b (b0 & -> & Hb0)%list_elem_of_fmap.
    destruct (booking.expired now b0) eqn:Hexp; [done|].
    intros Hst. unfold booking.expired in Hexp. rewrite Hst in Hexp.
    rewrite (bool_decide_eq_true_2 (booking.SCHEDULED = booking.SCHEDULED)) in Hexp
      by done.
    rewrite andb_true_r in Hexp. apply bool_decide_eq_false in Hexp. lia.
  - intros i b Hi. rewrite list_lookup_fmap, Hi. simpl.
    eexists. split; [done|].
    destruct (booking.expired now b) eqn:Hexp; simpl.
    + apply andb_true_iff in Hexp
        as [H1%bool_decide_eq_true H2%bool_decide_eq_true].
      split_and!; try done. by left.
    + split_and!; try done. right. split; [|done].
      intros [H1 H2]. unfold booking.expired in Hexp.
      by rewrite !bool_decide_eq_true_2 in Hexp.
  - by rewrite length_fmap.
  - unfold booking.count_expired.
    induction bookings as [|b bookings IH]; [done|].
    rewrite fmap_cons, !filter_cons.
    destruct (booking.expired now b) eqn:Hexp.
    + apply andb_true_iff in Hexp as [_ H2%bool_decide_eq_true].
      rewrite (decide_True (P := true = true)) by done.
      rewrite (decide_True (P := booking.b_status (booking.mark_no_show now b)
                                = booking.NO_SHOW)) by done.
      rewrite (decide_False (P := booking.b_status b = booking.NO_SHOW))
        by congruence.
      simpl. rewrite IH. lia.
    + rewrite (decide_False (P := false = true)) by done.
      destruct (decide (booking.b_status b = booking.NO_SHOW)); simpl;
        rewrite IH; lia.
  - rewrite <- list_fmap_compose. apply list_fmap_ext. intros i b _. simpl.
    destruct (booking.expired now b) eqn:Hexp; [|by rewrite Hexp].
    by rewrite expired_mark_no_show.
  - intros d. rewrite <- !list_fmap_compose. apply list_fmap_ext. intros i b _.
    simpl. destruct (booking.expired now b) eqn:Hexp; [|done].
    rewrite expired_mark_no_show, (expired_later _ _ _ Hexp). done.
  - intros day users. unfold booking.send_booking_reminder.
    induction bookings as [|b bookings IH]; [done|].
    rewrite fmap_cons, !bind_cons, IH. f_equal.
    destruct (booking.expired now b) eqn:Hexp; [|done].
    apply andb_true_iff in Hexp
      as [H1%bool_decide_eq_true H2%bool_decide_eq_true].
    clear IH. induction users as [|user users IHu]; [done|].
    rewrite !bind_cons, IHu. f_equal. simpl.
    rewrite (bool_decide_eq_false_2 (now ≤ _ ≤ _)) by lia.
    by rewrite !andb_false_r.
Qed.

(** ** The single-task evaluation *)

Section single_task.
Implicit Types (st : State) (p : BackgroundTask).

Lemma update_task_status_frame now task_id status progress msg result error st :
  component_results
    (update_task_status now task_id status progress msg result error st)
  = component_results st
  ∧ practice_sessions
      (update_task_status now task_id status progress msg result error st)
    = practice_sessions st
  ∧ broker (update_task_status now task_id status progress msg result error st)
    = broker st
  ∧ (find_task st task_id = None →
     update_task_status now task_id status progress msg result error st = st).
Proof.
  unfold update_task_status. by destruct (find_task st task_id).
Qed.

Lemma update_task_status_found now task_id status progress msg result error st p :
  find_task st task_id = Some p →
  ∃ p',
    find_task (update_task_status now task_id status progress msg result error st)
      task_id = Some p'
    ∧ bt_user_id p' = bt_user_id p
    ∧ bt_status p' = status
    ∧ bt_progress p' = progress
    ∧ bt_result p' = (if truthy_dict result then JObj <$> result else bt_result p)
    ∧ bt_error_message p'
      = (if truthy_str error then error else bt_error_message p)
    ∧ bt_status_message p'
      = (if truthy_str error then Some ("Task failed: " +:+ default "" error)
         else if truthy_dict result then Some "Evaluation complete. Results ready."
         else if truthy_str msg then msg else bt_status_message p)
    ∧ bt_completed_at p'
      = (if bool_decide (status ∈ [COMPLETED; FAILED]) then Some now
         else bt_completed_at p).
Proof.
  intros Hfind. unfold update_task_status. rewrite Hfind.
  eexists. split.
  - apply find_task_commit with p; [done|done|].
    simpl. by apply find_task_elem in Hfind as [_ ?].
  - done.
Qed.

(** A status update without result and error keeps a row under the
    [task_id] and its result. *)
Lemma update_task_status_progress now task_id progress msg st p :
  find_task st task_id = Some p →
  ∃ p',
    find_task (update_task_status now task_id PROCESSING progress msg None None st)
      task_id = Some p'
    ∧ bt_user_id p' = bt_user_id p ∧ bt_result p' = bt_result p.
Proof.
  intros Hfind.
  destruct (update_task_status_found now task_id PROCESSING progress msg None None
              st p Hfind) as (p' & H1 & H2 & _ & _ & H3 & _).
  by exists p'.
Qed.

Lemma failure_recorded_update now task_id a msg message st :
  failure_recorded task_id (String a msg) st
    (update_task_status now task_id FAILED 0 message None (Some (String a msg)) st).
Proof.
  destruct (update_task_status_frame now task_id FAILED 0 message None
              (Some (String a msg)) st) as (H1 & H2 & H3 & H4).
  split_and!; try done.
  intros p Hfind.
  destruct (update_task_status_found now task_id FAILED 0 message None
              (Some (String a msg)) st p Hfind)
    as (p' & G1 & G2 & G3 & G4 & G5 & G6 & G7 & G8).
  exists p', now. split_and!; done.
Qed.

Lemma failure_recorded_after_progress now task_id progress message msg st st' :
  failure_recorded task_id msg
    (update_task_status now task_id PROCESSING progress message None None st) st' →
  failure_recorded task_id msg st st'.
Proof.
  intros (H1 & H2 & H3 & H4 & H5).
  destruct (update_task_status_frame now task_id PROCESSING progress message None
              None st) as (F1 & F2 & F3 & F4).
  split_and!; try congruence.
  - intros Hnone. rewrite (F4 Hnone) in H4. by apply H4.
  - intros p Hfind.
    destruct (update_task_status_progress now task_id progress message st p Hfind)
      as (q & Hq & Hu & Hr).
    destruct (H5 q Hq) as (p' & now' & G1 & G2 & G3 & G4 & G5 & G6 & G7 & G8).
    exists p', now'. split_and!; congruence.
Qed.

Lemma evaluation_failed_recorded now task_id e st :
  ∃ msg,
    (evaluation_failed now task_id e st).1 = [("error", JStr msg)]
    ∧ failure_recorded task_id msg st (evaluation_failed now task_id e st).2.
Proof.
  eexists. split; [done|]. simpl. apply failure_recorded_update.
Qed.
End single_task.

(** X27: the single-task evaluation never completes.  Whatever the speech
    recogniser and the language model do, and whatever the table holds,
    [evaluate_speech_background] returns a dictionary with the one key
    "error"; it stores no practice session and touches no component row and
    no message; and a parent row under its id ends FAILED with progress 0,
    [completed_at] set, the returned text as [error_message] and "Task
    failed: " followed by it as [status_message], its result and its user
    as before.  The steps after the comparison are never reached. *)
Theorem single_task_evaluation_always_fails clock task_id recognition grammar_llm
    feedback_llm continue st :
  ∃ msg,
    (evaluate_speech_background clock task_id recognition grammar_llm
       feedback_llm continue st).1 = [("error", JStr msg)]
    ∧ practice_sessions
        (evaluate_speech_background clock task_id recognition grammar_llm
           feedback_llm continue st).2 = practice_sessions st
    ∧ component_results
        (evaluate_speech_background clock task_id recognition grammar_llm
           feedback_llm continue st).2 = component_results st
    ∧ broker
        (evaluate_speech_background clock task_id recognition grammar_llm
           feedback_llm continue st).2 = broker st
    ∧ (find_task st task_id = None →
       (evaluate_speech_background clock task_id recognition grammar_llm
          feedback_llm continue st).2 = st)
    ∧ ∀ p, find_task st task_id = Some p →
        ∃ p' now,
          find_task
            (evaluate_speech_background clock task_id recognition grammar_llm
               feedback_llm continue st).2 task_id = Some p'
          ∧ bt_user_id p' = bt_user_id p
          ∧ bt_status p' = FAILED
          ∧ bt_progress p' = 0
          ∧ bt_error_message p' = Some msg
          ∧ bt_status_message p' = Some ("Task failed: " +:+ msg)
          ∧ bt_completed_at p' = Some now
          ∧ bt_result p' = bt_result p.
Proof.
  assert (∃ msg,
    (evaluate_speech_background clock task_id recognition grammar_llm
       feedback_llm continue st).1 = [("error", JStr msg)]
    ∧ failure_recorded task_id msg st
        (evaluate_speech_background clock task_id recognition grammar_llm
           feedback_llm continue st).2) as (msg & Hret & Hrec).
  { unfold evaluate_speech_background.
    set (st1 := update_task_status (clock 0%nat) _ _ _ _ _ _ st).
    set (st2 := update_task_status (clock 1%nat) _ _ _ _ _ _ st1).
    assert (∀ msg st', failure_recorded task_id msg st2 st' →
                       failure_recorded task_id msg st st') as Hback.
    { intros msg st' H. subst st2 st1.
      by do 2 apply failure_recorded_after_progress in H. }
    destruct (transcribe recognition) as [[transcript flagged_words]|e].
    2:{ destruct (evaluation_failed_recorded (clock 2%nat) task_id e st2)
          as (msg & H1 & H2). exists msg. split; [done|]. by apply Hback. }
    destruct transcript as [|a transcript]; simpl negb; cbv iota.
    { eexists. split; [done|]. apply Hback. simpl.
      apply failure_recorded_update. }
    set (st3 := update_task_status (clock 2%nat) _ _ _ _ _ _ st2).
    destruct (get_corrected_grammar _ grammar_llm) as [grammar_output|e].
    2:{ destruct (evaluation_failed_recorded (clock 3%nat) task_id e st3)
          as (msg & H1 & H2). exists msg. split; [done|]. apply Hback.
        subst st3. by apply failure_recorded_after_progress in H2. }
    set (st4 := update_task_status (clock 3%nat) _ _ _ _ _ _ st3).
    destruct (get_speech_feedback _ feedback_llm) as [feedback_output|e].
    2:{ destruct (evaluation_failed_recorded (clock 4%nat) task_id e st4)
          as (msg & H1 & H2). exists msg. split; [done|]. apply Hback.
        subst st4 st3. by do 2 apply failure_recorded_after_progress in H2. }
    set (st5 := update_task_status (clock 4%nat) _ _ _ _ _ _ st4).
    unfold compare_answers_call.
    destruct (evaluation_failed_recorded (clock 5%nat) task_id
                "compare_answers() missing 1 required positional argument: 'question'"
                st5) as (msg & H1 & H2).
    exists msg. split; [done|]. apply Hback.
    subst st5 st4 st3. by do 3 apply failure_recorded_after_progress in H2. }
  exists msg. destruct Hrec as (H1 & H2 & H3 & H4 & H5). by split_and!.
Qed.

(** ** Component rows of a parent, with submissions that raise *)

Section rows.
Implicit Types (st : State) (t row : BackgroundTask)
  (c : EvaluationComponentResult).

Lemma rows_inv_task_key st t t' :
  rows_inv st → t ∈ background_tasks st → t' ∈ background_tasks st →
  bt_id t = bt_id t' → t = t'.
Proof.
  intros (I1 & _). apply NoDup_fmap_elem_inj. rewrite I1. apply NoDup_seq.
Qed.

Lemma rows_inv_component_key st c c' :
  rows_inv st → c ∈ component_results st → c' ∈ component_results st →
  c_id c = c_id c' → c = c'.
Proof.
  intros (_ & I2 & _). apply NoDup_fmap_elem_inj. rewrite I2. apply NoDup_seq.
Qed.

Lemma rows_inv_task_id st t t' :
  rows_inv st → t ∈ background_tasks st → t' ∈ background_tasks st →
  bt_task_id t = bt_task_id t' → t = t'.
Proof. intros (_ & _ & I3 & _). by apply NoDup_fmap_elem_inj. Qed.


(** The commit of a row that continues a row [t] of the table, neither of
    them PENDING. *)
Lemma rows_inv_commit_task st row t :
  rows_inv st → t ∈ background_tasks st →
  bt_id row = bt_id t → bt_task_id row = bt_task_id t →
  bt_status t ≠ PENDING → bt_status row ≠ PENDING →
  rows_inv (commit_task row st).
Proof.
  intros Hinv Ht Hid Htid Hst Hrow.
  pose proof Hinv as (I1 & I2 & I3 & I4 & I5 & I6).
  assert (∀ x, x ∈ background_tasks st → bt_id x = bt_id row → x = t) as Hkey.
  { intros x Hx Hxid. apply (rows_inv_task_key st); [done..|congruence]. }
  assert (bt_task_id <$> background_tasks (commit_task row st)
          = bt_task_id <$> background_tasks st) as Htids.
  { apply commit_task_fmap. intros x Hx Hxid. rewrite (Hkey x Hx Hxid). done. }
  assert (bt_id <$> background_tasks (commit_task row st)
          = bt_id <$> background_tasks st) as Hids.
  { apply commit_task_fmap. intros x Hx Hxid. by rewrite (Hkey x Hx Hxid). }
  unfold rows_inv. rewrite Htids, Hids. split_and!; try done.
  - rewrite I1. f_equal. unfold commit_task. simpl. by rewrite length_fmap.
  - intros x (y & -> & Hy)%list_elem_of_fmap.
    case_bool_decide as Hyid.
    + intros _. rewrite Htid. apply (I5 t Ht Hst).
    + apply (I5 y Hy).
  - intros j task_id Hj Hfinal.
    destruct (I6 j task_id Hj Hfinal) as (x & Hx & Hxtid & Hxst).
    destruct (decide (bt_id x = bt_id row)) as [Hxid|Hxid].
    + rewrite (Hkey x Hx Hxid) in Hxtid.
      exists row. split_and!; [|congruence|done].
      apply list_elem_of_fmap. exists t. by rewrite bool_decide_eq_true_2.
    + exists x. split_and!; [|done..]. by apply commit_task_other.
Qed.

Lemma rows_inv_commit_component st (row : EvaluationComponentResult) c :
  rows_inv st → c ∈ component_results st →
  c_id row = c_id c →
  c_parent_task_id row = c_parent_task_id c →
  c_component_type row = c_component_type c →
  rows_inv (commit_component row st).
Proof.
  intros Hinv Hc Hid Hpid Hkind.
  pose proof Hinv as (I1 & I2 & I3 & I4 & I5 & I6).
  assert (∀ x, x ∈ component_results st → c_id x = c_id row → x = c) as Hkey.
  { intros x Hx Hxid. apply (rows_inv_component_key st); [done..|congruence]. }
  assert (∀ task_id, kinds_of (commit_component row st) task_id
                     = kinds_of st task_id) as Hkinds.
  { intros task_id. unfold kinds_of, commit_component. simpl.
    apply kinds_of_parent_fmap. intros x Hx.
    case_bool_decide as Hxid; [|done]. by rewrite (Hkey x Hx Hxid). }
  unfold rows_inv. split_and!; try done.
  - rewrite (commit_component_fmap c_id).
    + rewrite I2. f_equal. unfold commit_component. simpl. by rewrite length_fmap.
    + intros x Hx Hxid. by rewrite (Hkey x Hx Hxid).
  - intros x (y & -> & Hy)%list_elem_of_fmap. simpl.
    case_bool_decide as Hyid; [|by apply I4].
    rewrite Hpid. by apply I4.
  - intros t Ht Hst. rewrite Hkinds. by apply I5.
Qed.

Lemma rows_inv_report now component_id status msg result error st :
  rows_inv st →
  rows_inv
    (update_component_task_status_sync now component_id status msg result error st).
Proof.
  intros Hinv. unfold update_component_task_status_sync.
  destruct (get_component st component_id) as [c|] eqn:Hget; [|done].
  apply find_elem_of in Hget as [Hc _].
  by apply rows_inv_commit_component with c.
Qed.

Lemma evaluate_components_status parent_task components parent_task' jobs :
  evaluate_components parent_task components = Some (parent_task', jobs) →
  bt_status parent_task = PROCESSING →
  bt_status parent_task' ≠ PENDING
  ∧ ∀ j task_id, j ∈ jobs → is_final_summary_job task_id j = true →
                 task_id = bt_task_id parent_task.
Proof.
  intros Hev Hst.
  destruct (evaluate_components_cases _ _ _ _ Hev)
    as [(e & -> & ->)|[(tr & fw & -> & _ & ->)|(pr & m & -> & _ & _ & Hjobs)]].
  - split; [done|]. by intros j task_id ?%elem_of_nil.
  - split; [simpl; by rewrite Hst|].
    intros j task_id (c & -> & _)%list_elem_of_fmap Hfinal. exfalso.
    unfold is_final_summary_job, text_job in Hfinal.
    destruct (c_component_type c); simpl in Hfinal; done.
  - split; [simpl; by rewrite Hst|].
    destruct Hjobs as [-> | ->]; [by intros j task_id ?%elem_of_nil|].
    intros j task_id ->%list_elem_of_singleton Hfinal.
    unfold is_final_summary_job, final_summary_job in Hfinal. simpl in Hfinal.
    by apply bool_decide_eq_true in Hfinal.
Qed.

Lemma rows_inv_send_jobs jobs st t :
  rows_inv st → t ∈ background_tasks st → bt_status t ≠ PENDING →
  (∀ j task_id, j ∈ jobs → is_final_summary_job task_id j = true →
                task_id = bt_task_id t) →
  rows_inv (send_jobs jobs st).
Proof.
  intros (I1 & I2 & I3 & I4 & I5 & I6) Ht Hst Hjobs.
  unfold rows_inv. split_and!; try done.
  intros j task_id [Hj|Hj]%elem_of_app Hfinal; [by apply (I6 j)|].
  exists t. split_and!; [done| |done]. symmetry. by apply (Hjobs j).
Qed.

Lemma rows_inv_get_task_status task_id user_id st :
  rows_inv st → rows_inv (get_task_status task_id user_id st).2.
Proof.
  intros Hinv. unfold get_task_status.
  destruct (load_task st task_id user_id) as [[parent_task components]|] eqn:Hload;
    [|done].
  apply load_task_elem in Hload as (Hin & _ & _).
  unfold finish_task_status. case_bool_decide as Hst; [|done].
  destruct (evaluate_components parent_task components) as [[parent_task' jobs]|]
    eqn:Hev; [|done].
  destruct (evaluate_components_status _ _ _ _ Hev Hst) as [Hst' Hjobs].
  apply evaluate_components_progress in Hev as (Hid & Htid & _). simpl.
  apply rows_inv_commit_task with parent_task; [|done..|by rewrite Hst|done].
  apply rows_inv_send_jobs with parent_task; [done..|by rewrite Hst|done].
Qed.

Lemma take_job_Some p jobs rest :
  take_job p jobs = Some rest →
  (∀ j, j ∈ rest → j ∈ jobs) ∧ ∃ j, j ∈ jobs ∧ p j = true.
Proof.
  revert rest. induction jobs as [|j jobs IH]; intros rest; [done|]. simpl.
  destruct (p j) eqn:Hp.
  - intros [= <-]. split; [intros x ?; by right|]. exists j. split; [by left|done].
  - destruct (take_job p jobs) as [rest'|]; [|done]. intros [= <-].
    destruct (IH rest' eq_refl) as [Hsub (x & Hx & Hpx)]. split.
    + intros y [->|Hy]%elem_of_cons; [by left|]. right. by apply Hsub.
    + exists x. split; [by right|done].
Qed.

Lemma rows_inv_summarize now parent_task_id st :
  rows_inv st → rows_inv (exec (Summarize now parent_task_id) st).
Proof.
  intros Hinv. simpl.
  destruct (take_job _ _) as [rest|] eqn:Htake; [|done].
  apply take_job_Some in Htake as [Hsub (j & Hj & Hfinal)].
  pose proof Hinv as (I1 & I2 & I3 & I4 & I5 & I6).
  destruct (I6 j parent_task_id Hj Hfinal) as (t & Ht & Htid & Hst).
  assert (rows_inv (with_broker rest st)) as Hinv'.
  { unfold rows_inv. split_and!; try done.
    intros j' task_id Hj'. apply I6. by apply Hsub. }
  assert (find_task (with_broker rest st) parent_task_id = Some t) as Hfind.
  { destruct (find_task (with_broker rest st) parent_task_id) as [p|] eqn:Hp.
    - apply find_task_elem in Hp as [Hp Hptid]. f_equal.
      apply (rows_inv_task_id st); [done..|congruence].
    - unfold find_task in Hp. apply list_elem_of_In in Ht.
      pose proof (find_none _ _ Hp t Ht) as Hnone. simpl in Hnone.
      by rewrite bool_decide_eq_true_2 in Hnone. }
  unfold create_final_summary_task.
  destruct (try_final_summary now parent_task_id (with_broker rest st))
    as [st'|] eqn:Htry.
  - apply try_final_summary_Some in Htry as (p & s & Hfind' & _ & _ & ->).
    assert (p = t) as -> by congruence.
    match goal with
    | |- rows_inv (commit_task ?row ?lit) =>
        assert (rows_inv lit) as Hlit
    end.
    { destruct Hinv' as (J1 & J2 & J3 & J4 & J5 & J6).
      unfold rows_inv. by split_and!. }
    by apply rows_inv_commit_task with t.
  - rewrite Hfind. by apply rows_inv_commit_task with t.
Qed.

Lemma new_rows_kinds now parent_task_id n task_id :
  c_component_type
    <$> filter (λ c, c_parent_task_id c = task_id)
          (imap (λ i comp_type, new_component now parent_task_id (S (n + i)) comp_type)
             all_component_types)
  = if decide (parent_task_id = task_id) then all_component_types else [].
Proof.
  destruct (decide (parent_task_id = task_id)) as [->|Hne].
  - rewrite filter_all; [done|].
    intros c Hc. repeat (apply elem_of_cons in Hc as [->|Hc]; [done|]).
    by apply elem_of_nil in Hc.
  - rewrite filter_none; [done|].
    intros c Hc Hp. apply Hne. rewrite <- Hp.
    repeat (apply elem_of_cons in Hc as [->|Hc]; [done|]).
    by apply elem_of_nil in Hc.
Qed.

Lemma wave1_jobs_not_final temp_audio_path parent_task_id question ideal_answer
    model entries j task_id :
  j ∈ wave1_jobs temp_audio_path parent_task_id question ideal_answer model entries →
  is_final_summary_job task_id j = false.
Proof.
  unfold wave1_jobs. intros (c & Hc & Hj)%list_elem_of_omap.
  destruct (c_component_type c); simplify_eq; done.
Qed.

(** What a submission leaves, whether it went through or raised: a new
    parent at the end of the table, none or all eight of its rows, and
    messages of the first wave. *)
Lemma rows_inv_new_parent st parent_task (with_rows : bool) now jobs :
  rows_inv st →
  bt_id parent_task = S (length (background_tasks st)) →
  (bt_task_id parent_task ∉ bt_task_id <$> background_tasks st) →
  (bt_status parent_task ≠ PENDING → with_rows = true) →
  (∀ j task_id, j ∈ jobs → is_final_summary_job task_id j = false) →
  rows_inv
    {| background_tasks := background_tasks st ++ [parent_task];
       component_results :=
         component_results st
         ++ (if with_rows then
               imap (λ i comp_type,
                       new_component now (bt_task_id parent_task)
                         (S (length (component_results st) + i)) comp_type)
                 all_component_types
             else []);
       practice_sessions := practice_sessions st;
       broker := broker st ++ jobs |}.
Proof.
  intros (I1 & I2 & I3 & I4 & I5 & I6) Hid Hfresh Hrows Hjobs.
  assert (filter (λ c, c_parent_task_id c = bt_task_id parent_task)
            (component_results st) = []) as Hnone.
  { apply filter_none. intros c Hc Hp. apply Hfresh. rewrite <- Hp. by apply I4. }
  remember (imap (λ i comp_type,
                    new_component now (bt_task_id parent_task)
                      (S (length (component_results st) + i)) comp_type)
              all_component_types) as rows eqn:Hdef.
  assert (∀ task_id,
            c_component_type <$> filter (λ c, c_parent_task_id c = task_id) rows
            = if decide (bt_task_id parent_task = task_id)
              then all_component_types else []) as Hkinds.
  { intros task_id. subst rows. apply new_rows_kinds. }
  assert (∀ c, c ∈ rows → c_parent_task_id c = bt_task_id parent_task) as Hparent.
  { subst rows. intros c Hc.
    repeat (apply elem_of_cons in Hc as [->|Hc]; [done|]).
    by apply elem_of_nil in Hc. }
  assert (c_id <$> rows = seq (S (length (component_results st))) (length rows))
    as Hkeys.
  { subst rows. simpl. repeat (f_equal; try lia). }
  clear Hdef.
  unfold rows_inv, kinds_of; simpl. rewrite !fmap_app, !length_app. simpl.
  split_and!.
  - rewrite Nat.add_1_r, seq_S, I1, Hid. done.
  - destruct with_rows; simpl.
    + by rewrite seq_app, I2, Hkeys.
    + by rewrite !app_nil_r, Nat.add_0_r.
  - apply NoDup_app. split_and!; [done| |apply NoDup_singleton].
    intros x Hx ->%list_elem_of_singleton. done.
  - intros c [Hc|Hc]%elem_of_app.
    + apply elem_of_app. left. by apply I4.
    + apply elem_of_app. right. destruct with_rows; [|by apply elem_of_nil in Hc].
      rewrite (Hparent c Hc). by apply list_elem_of_singleton.
  - intros t [Ht| ->%list_elem_of_singleton]%elem_of_app Hst.
    + rewrite filter_app, fmap_app. fold (kinds_of st (bt_task_id t)).
      rewrite (I5 t Ht Hst).
      destruct with_rows; [|by rewrite app_nil_r].
      rewrite Hkinds, decide_False; [by rewrite app_nil_r|].
      intros Heq. apply Hfresh. rewrite Heq. by apply list_elem_of_fmap_2.
    + rewrite filter_app, fmap_app, Hnone, (Hrows Hst).
      by rewrite Hkinds, decide_True.
  - intros j task_id [Hj|Hj]%elem_of_app Hfinal.
    + destruct (I6 j task_id Hj Hfinal) as (t & Ht & Htid & Hst).
      exists t. split_and!; [|done..]. apply elem_of_app. by left.
    + by rewrite (Hjobs j task_id Hj) in Hfinal.
Qed.

Lemma rows_inv_submit now user_id parent_task_id temp_audio_path topic difficulty
    question ideal_answer model st :
  rows_inv st →
  rows_inv
    (evaluate_speech_async now user_id parent_task_id temp_audio_path topic
       difficulty question ideal_answer model st).2.
Proof.
  intros Hinv. unfold evaluate_speech_async. case_bool_decide as Hfresh; [done|].
  cbn [snd].
  match goal with
  | |- rows_inv {| background_tasks := _ ++ [?p]; broker := _ ++ ?jobs |} =>
      apply (rows_inv_new_parent st p true now jobs Hinv)
  end; [done|done|done|].
  intros j task_id Hj. by eapply wave1_jobs_not_final.
Qed.

Lemma rows_inv_submit_raises failure now user_id parent_task_id temp_audio_path
    topic difficulty question ideal_answer model st :
  rows_inv st →
  rows_inv
    (evaluate_speech_async_raises failure now user_id parent_task_id
       temp_audio_path topic difficulty question ideal_answer model st).
Proof.
  intros Hinv. unfold evaluate_speech_async_raises.
  case_bool_decide as Hfresh; [done|].
  destruct failure as [| |sent|]; [done| | |].
  - pose proof (rows_inv_new_parent st
                  (pending_parent now user_id parent_task_id topic difficulty
                     question ideal_answer model st) false now [] Hinv) as H.
    simpl in H. rewrite !app_nil_r in H.
    apply H; [done|done|by intros []|by intros j task_id ?%elem_of_nil].
  - match goal with
    | |- rows_inv {| background_tasks := _ ++ [?p]; broker := _ ++ ?jobs |} =>
        apply (rows_inv_new_parent st p true now jobs Hinv)
    end; [done|done|done|].
    intros j task_id Hj. eapply wave1_jobs_not_final. by eapply subseteq_take.
  - by apply rows_inv_submit.
Qed.

Lemma rows_inv_exec_step s st : rows_inv st → rows_inv (exec_step s st).
Proof.
  intros Hinv. destruct s as [[]|]; simpl.
  - by apply rows_inv_submit.
  - by apply rows_inv_get_task_status.
  - by apply rows_inv_report.
  - by apply rows_inv_summarize.
  - by apply rows_inv_submit_raises.
Qed.

Lemma rows_inv_run_steps steps : rows_inv (run_steps steps empty_state).
Proof.
  induction steps as [|s steps IH] using rev_ind.
  - unfold rows_inv. split_and!; try done; [apply NoDup_nil_2|..].
    + by intros c ?%elem_of_nil.
    + by intros t ?%elem_of_nil.
    + by intros j task_id ?%elem_of_nil.
  - unfold run_steps. rewrite foldl_snoc. by apply rows_inv_exec_step.
Qed.

(** No step touches a PENDING parent. *)
Lemma pending_parent_kept s st t :
  rows_inv st → t ∈ background_tasks st → bt_status t = PENDING →
  t ∈ background_tasks (exec_step s st).
Proof.
  intros Hinv Ht Hst.
  assert (∀ row p st', p ∈ background_tasks st → bt_status p ≠ PENDING →
            bt_id row = bt_id p →
            background_tasks st' = background_tasks st →
            t ∈ background_tasks (commit_task row st')) as Hcommit.
  { intros row p st' Hp Hpst Hid Hsame. apply commit_task_other.
    - by rewrite Hsame.
    - intros Heq. apply Hpst.
      rewrite <- (rows_inv_task_key st t p Hinv Ht Hp); [done|congruence]. }
  destruct s as [[now u tid path topic diff q ia m|tid u|????? e|now tid]
                |failure now u tid path topic diff q ia m]; simpl.
  - unfold evaluate_speech_async. case_bool_decide; [done|].
    simpl. apply elem_of_app. by left.
  - unfold get_task_status.
    destruct (load_task st tid u) as [[p cs]|] eqn:Hload; [|done].
    apply load_task_elem in Hload as (Hp & _ & _).
    unfold finish_task_status. case_bool_decide as Hpst; [|done].
    destruct (evaluate_components p cs) as [[p' jobs]|] eqn:Hev; [|done].
    apply evaluate_components_progress in Hev as (Hid & _). simpl.
    apply (Hcommit p' p (send_jobs jobs st)); [done|by rewrite Hpst|done|done].
  - by rewrite report_background_tasks.
  - destruct (take_job _ _) as [rest|] eqn:Htake; [|done].
    apply take_job_Some in Htake as [_ (j & Hj & Hfinal)].
    destruct Hinv as (I1 & I2 & I3 & I4 & I5 & I6).
    destruct (I6 j tid Hj Hfinal) as (p & Hp & Hptid & Hpst).
    assert (rows_inv st) as Hinv by (unfold rows_inv; by split_and!).
    assert (∀ x, find_task (with_broker rest st) tid = Some x → x = p) as Hfound.
    { intros x [Hx Hxtid]%find_task_elem.
      apply (rows_inv_task_id st); [done..|congruence]. }
    unfold create_final_summary_task.
    destruct (try_final_summary now tid (with_broker rest st)) as [st'|] eqn:Htry.
    + apply try_final_summary_Some in Htry as (x & s & Hfind & _ & _ & ->).
      rewrite (Hfound x Hfind). by apply (Hcommit _ p).
    + destruct (find_task (with_broker rest st) tid) as [x|] eqn:Hfind; [|done].
      rewrite (Hfound x eq_refl). by apply (Hcommit _ p).
  - unfold evaluate_speech_async_raises. case_bool_decide; [done|].
    destruct failure; [done| | |]; simpl; try (apply elem_of_app; by left).
    unfold evaluate_speech_async. rewrite bool_decide_eq_false_2 by done.
    simpl. apply elem_of_app. by left.
Qed.

Lemma run_steps_app steps steps' st :
  run_steps (steps ++ steps') st = run_steps steps' (run_steps steps st).
Proof. unfold run_steps. by rewrite foldl_app. Qed.
End rows.

Lemma all_rows_complete_count (components : list EvaluationComponentResult) :
  c_component_type <$> components = all_component_types →
  count_status COMPLETED (component_statuses components)
  = len_EvaluationComponentType
  ↔ ∀ c, c ∈ components → c_status c = COMPLETED.
Proof.
  intros Hkinds.
  assert (NoDup (c_component_type <$> components)) as Hnd.
  { rewrite Hkinds. apply NoDup_all_component_types. }
  split.
  - intros Hcount c Hc.
    destruct (decide (c_status c = COMPLETED)) as [|Hne]; [done|]. exfalso.
    pose proof (component_statuses_lookup components c Hnd Hc) as Hlookup.
    assert (component_statuses components !! c_component_type c ≠ Some COMPLETED)
      as Hno by (rewrite Hlookup; congruence).
    apply (count_status_lt COMPLETED) in Hno. lia.
  - intros Hall. unfold count_status.
    assert (∀ k, component_statuses components !! k = Some COMPLETED) as Hevery.
    { intros k.
      assert (k ∈ c_component_type <$> components) as (c & -> & Hc)%list_elem_of_fmap.
      { rewrite Hkinds. apply elem_of_all_component_types. }
      rewrite (component_statuses_lookup components c Hnd Hc). f_equal.
      by apply Hall. }
    rewrite map_filter_id.
    + rewrite <- size_dom.
      assert (dom (component_statuses components)
              = list_to_set all_component_types) as ->.
      { apply set_eq. intros k. rewrite elem_of_dom, elem_of_list_to_set.
        split; [intros _; apply elem_of_all_component_types|].
        intros _. by rewrite Hevery. }
      rewrite size_list_to_set; [done|apply NoDup_all_component_types].
    + intros k s Hk. rewrite Hevery in Hk. by injection Hk as <-.
Qed.

(** X1: a parent that has left PENDING has its eight component rows, also
    when submissions raise midway.  After any run of submissions that went
    through or raised at any point, status queries, component reports and
    summary runs, a status query that loads a parent which is not PENDING
    holds exactly one component row of each kind; so the evaluator's count of
    COMPLETED statuses reaches the number of kinds exactly when every row it
    holds is COMPLETED. *)
Theorem started_parent_has_every_component steps task_id user_id parent_task
    components :
  load_task (run_steps steps empty_state) task_id user_id
  = Some (parent_task, components) →
  bt_status parent_task ≠ PENDING →
  c_component_type <$> components ≡ₚ all_component_types
  ∧ NoDup (c_component_type <$> components)
  ∧ length components = 8%nat
  ∧ (all_complete components ↔ ∀ c, c ∈ components → c_status c = COMPLETED).
Proof.
  intros Hload Hst.
  destruct (rows_inv_run_steps steps) as (_ & _ & _ & _ & I5 & _).
  apply load_task_elem in Hload as (Hin & <- & ->).
  specialize (I5 parent_task Hin Hst). unfold kinds_of in I5.
  split_and!.
  - by rewrite I5.
  - rewrite I5. apply NoDup_all_component_types.
  - apply (f_equal length) in I5. by rewrite length_fmap in I5.
  - by apply all_rows_complete_count.
Qed.

Lemma started_parent_has_every_component_witness :
  ∃ parent_task components,
    load_task (run_steps steps_with_failures empty_state) "task-1" 1%nat
    = Some (parent_task, components)
    ∧ bt_status parent_task ≠ PENDING
    ∧ c_component_type <$> components ≡ₚ all_component_types
    ∧ NoDup (c_component_type <$> components)
    ∧ length components = 8%nat
    ∧ (all_complete components ↔ ∀ c, c ∈ components → c_status c = COMPLETED).
Proof.
  destruct (load_task (run_steps steps_with_failures empty_state) "task-1" 1%nat)
    as [[parent_task components]|] eqn:Hload;
    [|vm_compute in Hload; discriminate].
  assert (bt_status parent_task = PROCESSING) as Hst.
  { vm_compute in Hload. by injection Hload as <- _. }
  exists parent_task, components. split; [done|].
  split; [by rewrite Hst|].
  apply (started_parent_has_every_component steps_with_failures "task-1" 1%nat
           parent_task components); [done|by rewrite Hst].
Defined.

(** X28: a submission that raised before its last commit leaves a task
    that never starts.  Whatever steps follow (queries, reports, summary
    runs, other submissions), a parent row that is PENDING stays in the
    table exactly as it is: the status query evaluates only PROCESSING
    parents, and no final-summary message names a PENDING parent. *)
Theorem pending_parent_never_starts steps steps' t :
  t ∈ background_tasks (run_steps steps empty_state) →
  bt_status t = PENDING →
  t ∈ background_tasks (run_steps (steps ++ steps') empty_state).
Proof.
  intros Ht Hst. rewrite run_steps_app.
  induction steps' as [|s steps' IH] using rev_ind; [done|].
  rewrite <- run_steps_app, app_assoc, (run_steps_app (steps ++ steps')).
  simpl. apply pending_parent_kept; [apply rows_inv_run_steps| |done].
  by rewrite run_steps_app.
Qed.

Lemma pending_parent_never_starts_witness :
  pending_parent 8 2%nat "task-8" "food" "easy" "What do you cook?" "I cook rice."
    "mistral:latest" empty_state
  ∈ background_tasks (run_steps (take 1 steps_with_failures
                                 ++ drop 1 steps_with_failures) empty_state).
Proof.
  apply (pending_parent_never_starts (take 1 steps_with_failures)
           (drop 1 steps_with_failures)).
  - apply list_elem_of_lookup. exists 0%nat. vm_compute. reflexivity.
  - reflexivity.
Defined.
